(** * tsbean-driver-postgres: the query compiler, verified

    A shallow embedding of [src/utils.ts], [src/filtering.ts] and
    [src/driver.ts] of the PostgreSQL driver for tsbean-orm, with the
    properties of its specification stated and proved over it.

    Conventions of the embedding:
    - a JavaScript string is a [string] (a sequence of 8-bit code units);
      the case mappings are those of JavaScript on the ASCII range
      ([ascii_only] strings), and every statement that depends on the case
      of a character is made on such strings;
    - a JavaScript value is a [value]; a number carries an integer, and
      the one place where the driver computes a number, [parseInt], gives
      the double nearest to the integer it reads ([JsNumber.Number_value]);
    - an object used as a record (a row, an update descriptor) is the
      list of its own enumerable properties in [Object.keys] order; what
      the object gives under a name out of that list (a property it
      inherits from its prototype chain) is a parameter, [inherited], of
      the operations that read such a name ([member]);
    - the connection pool, the cursor and the callbacks of the caller are
      parameters of the driver operations; what an operation does to them
      is recorded as a list of events, next to the way its promise
      settles. *)

From Stdlib Require Import List Bool Arith ZArith Lia Ascii String.
From Stdlib Require Import Numbers.DecimalString Numbers.DecimalNat.
From Equations Require Import Equations.
Import ListNotations.

Set Warnings "-register-all".
Local Open Scope list_scope.
Local Open Scope string_scope.

(* ===================================================================== *)
(** ** JavaScript strings *)
(* ===================================================================== *)

Module JsString.

(** The double-quote character and the one-character string made of it. *)
Definition dquote_char : ascii := ascii_of_nat 34.
Definition dq : string := String dquote_char "".

Definition is_upper (c : ascii) : bool :=
  let n := nat_of_ascii c in ((65 <=? n) && (n <=? 90))%nat.

Definition is_lower (c : ascii) : bool :=
  let n := nat_of_ascii c in ((97 <=? n) && (n <=? 122))%nat.

Definition is_digit (c : ascii) : bool :=
  let n := nat_of_ascii c in ((48 <=? n) && (n <=? 57))%nat.

(** The code units of the ASCII range, and the strings made of them. *)
Definition is_ascii (c : ascii) : bool := (nat_of_ascii c <? 128)%nat.

Fixpoint ascii_only (s : string) : bool :=
  match s with
  | EmptyString => true
  | String c rest => is_ascii c && ascii_only rest
  end.

(** [c.toLowerCase()] and [c.toUpperCase()] for a one-character string
    of the ASCII range.  (A code unit from 128 on is left as it is, which
    is not JavaScript's mapping for all of them: the statements below are
    on [ascii_only] strings wherever a case mapping is applied.) *)
Definition toLowerCase (c : ascii) : ascii :=
  if is_upper c then ascii_of_nat (nat_of_ascii c + 32) else c.

Definition toUpperCase (c : ascii) : ascii :=
  if is_lower c then ascii_of_nat (nat_of_ascii c - 32) else c.

(** [s.indexOf(c)] for a one-character pattern: the position of the first
    occurrence, or -1. *)
Fixpoint indexOf_from (c : ascii) (s : string) (pos : Z) : Z :=
  match s with
  | EmptyString => (-1)%Z
  | String d rest => if Ascii.eqb d c then pos else indexOf_from c rest (pos + 1)%Z
  end.

Definition indexOf (c : ascii) (s : string) : Z := indexOf_from c s 0%Z.

(** [s.replace(c, by)] with a one-character string pattern: only the first
    occurrence is replaced.  [by] is taken literally: the replacement
    strings of this program hold no substitution pattern that a string
    search gives a meaning to. *)
Fixpoint replace_first (c : ascii) (by_ : string) (s : string) : string :=
  match s with
  | EmptyString => EmptyString
  | String d rest =>
      if Ascii.eqb d c then by_ ++ rest else String d (replace_first c by_ rest)
  end.

(** [s.replace(/[c]/g, by)]: every occurrence is replaced. *)
Fixpoint replace_all (c : ascii) (by_ : string) (s : string) : string :=
  match s with
  | EmptyString => EmptyString
  | String d rest =>
      if Ascii.eqb d c then by_ ++ replace_all c by_ rest
      else String d (replace_all c by_ rest)
  end.

(** [s.startsWith(c)] and [s.endsWith(c)] for a one-character argument. *)
Definition startsWith (c : ascii) (s : string) : bool :=
  match s with
  | String d _ => Ascii.eqb d c
  | EmptyString => false
  end.

Fixpoint endsWith (c : ascii) (s : string) : bool :=
  match s with
  | EmptyString => false
  | String d EmptyString => Ascii.eqb d c
  | String _ rest => endsWith c rest
  end.

(** [s.substr(start)] and [s.substr(start, len)] for in-range arguments. *)
Definition substr_from (start : nat) (s : string) : string :=
  substring start (String.length s - start) s.

Definition substr (start len : nat) (s : string) : string :=
  substring start len s.

(** [parts.join(sep)]. *)
Fixpoint join (sep : string) (parts : list string) : string :=
  match parts with
  | [] => ""
  | [p] => p
  | p :: rest => p ++ sep ++ join sep rest
  end.

(** [s.length > 0]. *)
Definition nonempty (s : string) : bool := (0 <? String.length s)%nat.

(** Number of occurrences of a character. *)
Fixpoint count (c : ascii) (s : string) : nat :=
  match s with
  | EmptyString => 0
  | String d rest => (if Ascii.eqb d c then 1 else 0) + count c rest
  end.

(** The string holds no question mark. *)
Definition no_question (s : string) : bool := Nat.eqb (count "?" s) 0.

(** Decimal rendering of a non-negative integer, as string concatenation
    with a number produces it. *)
Definition of_nat (n : nat) : string :=
  NilEmpty.string_of_uint (Nat.to_uint n).

End JsString.

Import JsString.

(* ===================================================================== *)
(** ** JavaScript values *)
(* ===================================================================== *)

Inductive value : Type :=
| VNull
| VUndefined
| VNum (n : Z)
| VStr (s : string)
| VDate (t : Z)
| VBigInt (n : Z)
| VBool (b : bool)
| VObject (props : list (string * value))
| VFunction.

(** A row, an update descriptor: the own enumerable properties of an
    object, in [Object.keys] order. *)
Definition GenericRow : Type := list (string * value).

Definition Object_keys (o : GenericRow) : list string := map fst o.

(** [Object.keys(o).includes(k)]: the object lists a property [k]. *)
Definition has (o : GenericRow) (k : string) : bool :=
  existsb (String.eqb k) (Object_keys o).

(** The own property [k] of the object: its value, [undefined] when the
    object lists no such property.  This is [o[k]] for a listed name, and
    for any name on an object with nothing out of its list (an object
    made by [Object.create(null)], or a name such as [count], [update] or
    [value] that [Object.prototype] does not have). *)
Fixpoint get (o : GenericRow) (k : string) : value :=
  match o with
  | [] => VUndefined
  | (k', v) :: rest => if String.eqb k' k then v else get rest k
  end.

(** [o[k]], for any name: the own property when the object lists one,
    and otherwise what the object gives under a name out of its list, a
    property that it inherits along its prototype chain ([undefined] when
    there is none). *)
Definition member (inherited : GenericRow -> string -> value)
    (o : GenericRow) (k : string) : value :=
  if has o k then get o k else inherited o k.

(** What an object literal inherits: the members of [Object.prototype],
    functions all of them but [__proto__], which gives the prototype
    itself (an object that lists no property). *)
Definition Object_prototype_names : list string :=
  ["constructor"; "__defineGetter__"; "__defineSetter__"; "hasOwnProperty";
   "__lookupGetter__"; "__lookupSetter__"; "isPrototypeOf";
   "propertyIsEnumerable"; "toString"; "valueOf"; "__proto__";
   "toLocaleString"].

Definition Object_prototype (o : GenericRow) (k : string) : value :=
  if existsb (String.eqb k) Object_prototype_names
  then (if String.eqb k "__proto__" then VObject [] else VFunction)
  else VUndefined.

(** The array index that a property name writes, if it writes one: the
    decimal digits, without a leading zero, of an integer below 2^32 - 1. *)
Fixpoint decimal (acc : N) (s : string) : option N :=
  match s with
  | EmptyString => Some acc
  | String c rest =>
      if is_digit c
      then decimal (10 * acc + N.of_nat (nat_of_ascii c - 48))%N rest
      else None
  end.

Definition array_index (k : string) : option N :=
  match k with
  | EmptyString => None
  | String c rest =>
      if Ascii.eqb c "0" && nonempty rest then None
      else
        match decimal 0%N k with
        | Some i => if N.ltb i 4294967295%N then Some i else None
        | None => None
        end
  end.

(** [o[k] = v] on an object that lists [k]: the property keeps its place. *)
Fixpoint assign (o : GenericRow) (k : string) (v : value) : GenericRow :=
  match o with
  | [] => []
  | (k', v') :: rest =>
      if String.eqb k' k then (k', v) :: rest else (k', v') :: assign rest k v
  end.

(** [o[k] = v] for an array index [i] that the object does not list: the
    property goes after the array indices below it, which come first in
    the list, in ascending order. *)
Fixpoint add_index (o : GenericRow) (i : N) (k : string) (v : value) : GenericRow :=
  match o with
  | [] => [(k, v)]
  | (k', v') :: rest =>
      match array_index k' with
      | Some j => if N.ltb j i then (k', v') :: add_index rest i k v else (k, v) :: o
      | None => (k, v) :: o
      end
  end.

(** [o[k] = v] on an object without setters: a property that the object
    lists keeps its place; a new one goes last, unless its name is an
    array index: those are listed first, in ascending order. *)
Definition set (o : GenericRow) (k : string) (v : value) : GenericRow :=
  if has o k then assign o k v
  else
    match array_index k with
    | Some i => add_index o i k v
    | None => (o ++ [(k, v)])%list
    end.

(** [v === null || v === undefined]. *)
Definition is_nullish (v : value) : bool :=
  match v with
  | VNull | VUndefined => true
  | _ => false
  end.

(* ===================================================================== *)
(** ** src/utils.ts *)
(* ===================================================================== *)

Module Utils.

(** [toSnakeCase]: the loop appends to [result] from left to right, so
    the result of a string is the output for its first character
    followed by the result of the rest. *)
Fixpoint toSnakeCase (camel : string) : string :=
  match camel with
  | EmptyString => ""
  | String c rest =>
      if negb (Ascii.eqb (toLowerCase c) c)
      then "_" ++ String (toLowerCase c) (toSnakeCase rest)
      else String c (toSnakeCase rest)
  end.

(** [toCamelCase]: [nextUpper] is the loop's flag. *)
Fixpoint toCamelCase_loop (nextUpper : bool) (snake : string) : string :=
  match snake with
  | EmptyString => ""
  | String c rest =>
      if Ascii.eqb c "_" then toCamelCase_loop true rest
      else
        (if nextUpper then String (toUpperCase c) (toCamelCase_loop false rest)
         else String (toLowerCase c) (toCamelCase_loop false rest))
  end.

Definition toCamelCase (snake : string) : string :=
  toCamelCase_loop false snake.

(** [replaceLikeWildcards]: two global replacements, one after the other. *)
Definition replaceLikeWildcards (str : string) : string :=
  replace_all "_" "\_" (replace_all "%" "\%" str).

(** [reverseRegexp], on the source of the regular expression;
    [nextEscape] is the loop's flag. *)
Fixpoint reverseRegexp_loop (nextEscape : bool) (source : string) : string :=
  match source with
  | EmptyString => ""
  | String c rest =>
      if Ascii.eqb c "\" then
        (if nextEscape then String c (reverseRegexp_loop false rest)
         else reverseRegexp_loop true rest)
      else String c (reverseRegexp_loop false rest)
  end.

Definition reverseRegexp_source (source : string) : string :=
  reverseRegexp_loop false source.

(** [toSQLCompatibleValue]; [JSON.stringify] is the platform's. *)
Section Coercion.
Variable JSON_stringify : value -> value.

Definition toSQLCompatibleValue (val : value) : value :=
  match val with
  | VNull | VUndefined => VNull
  | VNum _ | VStr _ | VDate _ => val
  | VObject _ => JSON_stringify val
  | VBigInt n => VStr (NilEmpty.string_of_int (Z.to_int n))
  | VBool b => VNum (if b then 1 else 0)
  | VFunction => VNull
  end.
End Coercion.

(** [normalizeSQLResults]: every row is rebuilt, property by property,
    in an object without prototype that starts empty. *)
Fixpoint normalizeRow_loop (r : GenericRow) (props : GenericRow) : GenericRow :=
  match props with
  | [] => r
  | (key, v) :: rest => normalizeRow_loop (set r (toCamelCase key) v) rest
  end.

Definition normalizeRow (result : GenericRow) : GenericRow :=
  normalizeRow_loop [] result.

Definition normalizeSQLResults (results : list GenericRow) : list GenericRow :=
  map normalizeRow results.

(** [toPostgresTemplate]: while a question mark is left, the first one
    is replaced by the marker of the counter.  The loop ends because the
    marker holds no question mark, so each turn leaves one fewer. *)
Definition marker (i : nat) : string := "$" ++ of_nat i.

Lemma uint_no_question (d : Decimal.uint) :
  count "?" (NilEmpty.string_of_uint d) = 0.
Proof. induction d; simpl; auto. Qed.

Lemma marker_no_question (i : nat) : count "?" (marker i) = 0.
Proof. unfold marker, of_nat. simpl. apply uint_no_question. Qed.

Lemma count_append (c : ascii) (s t : string) :
  count c (s ++ t) = count c s + count c t.
Proof. induction s as [|d s IH]; simpl; [reflexivity|]. rewrite IH. lia. Qed.

Lemma indexOf_from_found (c : ascii) (s : string) (pos : Z) :
  (0 <= pos)%Z ->
  (0 <=? indexOf_from c s pos)%Z = true -> 0 < count c s.
Proof.
  revert pos. induction s as [|d s IH]; simpl; intros pos Hpos H.
  - discriminate.
  - destruct (Ascii.eqb d c); [lia|].
    simpl. apply (IH (pos + 1)%Z); [lia|assumption].
Qed.

Lemma replace_first_count (c : ascii) (by_ s : string) :
  count c by_ = 0 -> 0 < count c s ->
  S (count c (replace_first c by_ s)) = count c s.
Proof.
  intros Hby. induction s as [|d s IH]; simpl; intros H; [lia|].
  destruct (Ascii.eqb d c) eqn:E.
  - rewrite count_append, Hby. reflexivity.
  - simpl. rewrite E. simpl in *. apply IH. assumption.
Qed.

Definition inspect {A : Type} (a : A) : {b : A | a = b} := exist _ a eq_refl.

Equations? toPostgresTemplate_loop (i : nat) (queryTemplate : string) : string
  by wf (count "?" queryTemplate) lt :=
  toPostgresTemplate_loop i queryTemplate
    with inspect (0 <=? indexOf "?" queryTemplate)%Z := {
    | exist _ true _ =>
        toPostgresTemplate_loop (S i) (replace_first "?" (marker i) queryTemplate)
    | exist _ false _ => queryTemplate }.
Proof.
  pose proof (indexOf_from_found "?" queryTemplate 0 (Z.le_refl 0) e) as Hpos.
  pose proof (replace_first_count "?" (marker i) queryTemplate
                (marker_no_question i) Hpos).
  lia.
Qed.

Definition toPostgresTemplate (queryTemplate : string) : string :=
  toPostgresTemplate_loop 1 queryTemplate.

End Utils.

Import Utils.

(* ===================================================================== *)
(** ** src/filtering.ts *)
(* ===================================================================== *)

Module Filtering.

(** A regular expression, as far as the compiler reads it. *)
Record RegExp : Type := { source : string; flags : string }.

Definition reverseRegexp (exp : RegExp) : string :=
  reverseRegexp_source (source exp).

(** [GenericFilter] of tsbean-orm; [FNull] is the absent filter. *)
Inductive GenericFilter : Type :=
| FNull
| FAnd (children : list GenericFilter)
| FOr (children : list GenericFilter)
| FNot (child : GenericFilter)
| FRegex (key : string) (regexp : RegExp)
| FIn (key : string) (values : list value)
| FExists (key : string) (exists_ : bool)
| FEq (key : string) (val : value)
| FNe (key : string) (val : value)
| FGt (key : string) (val : value)
| FLt (key : string) (val : value)
| FGte (key : string) (val : value)
| FLte (key : string) (val : value).

Record compiled : Type := { query : string; values : list value }.

(** The loop of the "and" and "or" cases over the compiled children:
    [first], [query] and [values] are its variables. *)
Fixpoint combine_children (sep : string) (children : list compiled)
    (first : bool) (query0 : string) (values0 : list value) : compiled :=
  match children with
  | [] => {| query := query0; values := values0 |}
  | child :: rest =>
      if nonempty (query child) then
        combine_children sep rest false
          ((if first then query0 else query0 ++ sep) ++ "( " ++ query child ++ " )")
          (values0 ++ values child)%list
      else combine_children sep rest first query0 values0
  end.

(** The loop of the "in" case: [first], [subquery] and [values]. *)
Fixpoint in_loop (column : string) (vs : list value)
    (first : bool) (subquery : string) (values0 : list value) : string * list value :=
  match vs with
  | [] => (subquery, values0)
  | v :: rest =>
      in_loop column rest false
        ((if first then subquery else subquery ++ " OR ")
           ++ "(" ++ dq ++ column ++ dq ++ " = ?)")
        (values0 ++ [v])%list
  end.

(** The value pushed by the "regex" case, from [rStr]. *)
Definition like_value (rStr : string) : string :=
  if startsWith "^" rStr then
    replaceLikeWildcards (substr_from 1 rStr) ++ "%"
  else if endsWith "$" rStr then
    "%" ++ replaceLikeWildcards (substr 0 (String.length rStr - 1) rStr)
  else
    "%" ++ replaceLikeWildcards rStr ++ "%".

Fixpoint filterToSQL (filter : GenericFilter) (idConverter : string -> string)
    {struct filter} : compiled :=
  match filter with
  | FNull => {| query := ""; values := [] |}
  | FAnd children =>
      combine_children " AND "
        (map (fun subCondition => filterToSQL subCondition idConverter) children)
        true "" []
  | FOr children =>
      combine_children " OR "
        (map (fun subCondition => filterToSQL subCondition idConverter) children)
        true "" []
  | FNot child0 =>
      let child := filterToSQL child0 idConverter in
      if nonempty (query child)
      then {| query := "NOT( " ++ query child ++ " )"; values := values child |}
      else {| query := ""; values := [] |}
  | FRegex field val =>
      let rStr := reverseRegexp val in
      {| query :=
           if (0 <=? indexOf "i" (flags val))%Z
           then "UPPER(" ++ dq ++ idConverter field ++ dq ++ ") LIKE UPPER(?)"
           else dq ++ idConverter field ++ dq ++ " LIKE ?";
         values := [VStr (like_value rStr)] |}
  | FIn field vs =>
      let '(subquery, values0) := in_loop (idConverter field) vs true "" [] in
      if nonempty subquery
      then {| query := "(" ++ subquery ++ ")"; values := values0 |}
      else {| query := ""; values := values0 |}
  | FExists key exists_ =>
      if exists_
      then {| query := dq ++ idConverter key ++ dq ++ " IS NOT NULL"; values := [] |}
      else {| query := dq ++ idConverter key ++ dq ++ " IS NULL"; values := [] |}
  | FEq key val =>
      if is_nullish val
      then {| query := dq ++ idConverter key ++ dq ++ " IS NULL"; values := [] |}
      else {| query := dq ++ idConverter key ++ dq ++ " = ?"; values := [val] |}
  | FNe key val =>
      if is_nullish val
      then {| query := dq ++ idConverter key ++ dq ++ " IS NOT NULL"; values := [] |}
      else {| query := dq ++ idConverter key ++ dq ++ " != ?"; values := [val] |}
  | FGt key val =>
      {| query := dq ++ idConverter key ++ dq ++ " > ?"; values := [val] |}
  | FLt key val =>
      {| query := dq ++ idConverter key ++ dq ++ " < ?"; values := [val] |}
  | FGte key val =>
      {| query := dq ++ idConverter key ++ dq ++ " >= ?"; values := [val] |}
  | FLte key val =>
      {| query := dq ++ idConverter key ++ dq ++ " <= ?"; values := [val] |}
  end.

End Filtering.

Import Filtering.

(* ===================================================================== *)
(** ** Templates with their placeholders made explicit *)
(* ===================================================================== *)

(** A template seen as the program builds it: stretches of SQL text, and
    placeholders, each of them carrying the value bound to it. *)
Module Template.

Inductive piece : Type :=
| Text (s : string)
| Slot (v : value).

(** The [?]-template: every placeholder is a question mark. *)
Fixpoint render (ps : list piece) : string :=
  match ps with
  | [] => ""
  | Text s :: rest => s ++ render rest
  | Slot _ :: rest => "?" ++ render rest
  end.

(** The values of the placeholders, from left to right. *)
Fixpoint slots (ps : list piece) : list value :=
  match ps with
  | [] => []
  | Text _ :: rest => slots rest
  | Slot v :: rest => v :: slots rest
  end.

(** The positional template: the placeholders are numbered from [k] on,
    from left to right. *)
Fixpoint render_pg (k : nat) (ps : list piece) : string :=
  match ps with
  | [] => ""
  | Text s :: rest => s ++ render_pg k rest
  | Slot _ :: rest => marker k ++ render_pg (S k) rest
  end.

(** Every question mark of the template is a placeholder: the text
    holds none. *)
Definition text_clean (p : piece) : bool :=
  match p with
  | Text s => no_question s
  | Slot _ => true
  end.

Definition clean (ps : list piece) : bool := forallb text_clean ps.

End Template.

Import Template.

(** The filter compiler again, keeping with every question mark it writes
    the value it pushes for it. *)
Module FilterPieces.

Fixpoint combine_pieces (sep : string) (children : list (list piece))
    (first : bool) (acc : list piece) : list piece :=
  match children with
  | [] => acc
  | child :: rest =>
      if nonempty (render child) then
        combine_pieces sep rest false
          (acc ++ (if first then [] else [Text sep])
               ++ [Text "( "] ++ child ++ [Text " )"])%list
      else combine_pieces sep rest first acc
  end.

Fixpoint in_pieces (column : string) (vs : list value)
    (first : bool) (acc : list piece) : list piece :=
  match vs with
  | [] => acc
  | v :: rest =>
      in_pieces column rest false
        (acc ++ (if first then [] else [Text " OR "])
             ++ [Text ("(" ++ dq ++ column ++ dq ++ " = "); Slot v; Text ")"])%list
  end.

Definition comparison (column op : string) (v : value) : list piece :=
  [Text (dq ++ column ++ dq ++ op); Slot v].

Fixpoint filterPieces (filter : GenericFilter) (idConverter : string -> string)
    {struct filter} : list piece :=
  match filter with
  | FNull => []
  | FAnd children =>
      combine_pieces " AND "
        (map (fun subCondition => filterPieces subCondition idConverter) children)
        true []
  | FOr children =>
      combine_pieces " OR "
        (map (fun subCondition => filterPieces subCondition idConverter) children)
        true []
  | FNot child0 =>
      let child := filterPieces child0 idConverter in
      if nonempty (render child)
      then ([Text "NOT( "] ++ child ++ [Text " )"])%list
      else []
  | FRegex field val =>
      let bound := VStr (like_value (reverseRegexp val)) in
      if (0 <=? indexOf "i" (flags val))%Z
      then [Text ("UPPER(" ++ dq ++ idConverter field ++ dq ++ ") LIKE UPPER(");
            Slot bound; Text ")"]
      else comparison (idConverter field) " LIKE " bound
  | FIn field vs =>
      let body := in_pieces (idConverter field) vs true [] in
      if nonempty (render body)
      then ([Text "("] ++ body ++ [Text ")"])%list
      else body
  | FExists key exists_ =>
      if exists_
      then [Text (dq ++ idConverter key ++ dq ++ " IS NOT NULL")]
      else [Text (dq ++ idConverter key ++ dq ++ " IS NULL")]
  | FEq key val =>
      if is_nullish val
      then [Text (dq ++ idConverter key ++ dq ++ " IS NULL")]
      else comparison (idConverter key) " = " val
  | FNe key val =>
      if is_nullish val
      then [Text (dq ++ idConverter key ++ dq ++ " IS NOT NULL")]
      else comparison (idConverter key) " != " val
  | FGt key val => comparison (idConverter key) " > " val
  | FLt key val => comparison (idConverter key) " < " val
  | FGte key val => comparison (idConverter key) " >= " val
  | FLte key val => comparison (idConverter key) " <= " val
  end.

(** The field names of a filter, as the compiler writes them. *)
Fixpoint columns (filter : GenericFilter) (idConverter : string -> string)
    {struct filter} : list string :=
  match filter with
  | FNull => []
  | FAnd children | FOr children =>
      List.concat (map (fun subCondition => columns subCondition idConverter) children)
  | FNot child => columns child idConverter
  | FRegex key _ | FIn key _ | FExists key _
  | FEq key _ | FNe key _ | FGt key _ | FLt key _ | FGte key _ | FLte key _ =>
      [idConverter key]
  end.

(** No field name of the filter, once converted, holds a question mark. *)
Definition columns_clean (filter : GenericFilter) (idConverter : string -> string) : bool :=
  forallb no_question (columns filter idConverter).

End FilterPieces.

Import FilterPieces.

(* ===================================================================== *)
(** ** src/driver.ts *)
(* ===================================================================== *)

Module Driver.

Definition CURSOR_READ_AMOUNT : nat := 100.

Record NameConversion : Type := {
  parseResults : list GenericRow -> list GenericRow;
  toSQL : string -> string;
  toBean : string -> string
}.

(** The configuration, as far as the identifiers go (the other fields
    configure the connection pool). *)
Record PostgreSQLSourceConfiguration : Type := {
  disableIdentifierConversion : bool;
  customIdentifierConversion : option NameConversion
}.

(** [this.idConversion], as the constructor sets it. *)
Definition constructor_idConversion (config : PostgreSQLSourceConfiguration)
    : NameConversion :=
  match customIdentifierConversion config with
  | Some custom => custom
  | None =>
      if disableIdentifierConversion config
      then {| parseResults := fun a => a; toSQL := fun a => a; toBean := fun a => a |}
      else {| parseResults := normalizeSQLResults;
              toSQL := toSnakeCase;
              toBean := toCamelCase |}
  end.

(** The conversion of a driver configured with neither option. *)
Definition default_idConversion : NameConversion :=
  constructor_idConversion
    {| disableIdentifierConversion := false; customIdentifierConversion := None |}.

(** What the pool answers to a query: an error, or results. *)
Record QueryResult : Type := { rows : option (list GenericRow); rowCount : Z }.

Inductive reply : Type :=
| Failure (error : value)
| Success (results : QueryResult).

(** What [pool.connect()] answers, and what a [cursor.read] answers. *)
Inductive connect_reply : Type :=
| ConnectFailure (ex : value)
| Connected.

Inductive read_reply : Type :=
| ReadError (err : value)
| ReadRows (rows : list GenericRow).

(** What a handler of the caller does with a row: it completes (a
    suspending handler's promise is fulfilled), or it raises (the
    promise is rejected). *)
Inductive handler_result : Type :=
| Completes
| Raises (ex : value).

(** The calls the driver makes on its collaborators, in order. *)
Inductive event : Type :=
| Query (sql : string) (values : list value)
| Connect
| OpenCursor (sql : string) (values : list value)
| Read (amount : nat)
| Each (row : value)
| CloseCursor
| Release
| Callback (v : value).

(** How a promise ends: [Pending] is the promise that never settles. *)
Inductive settled : Type :=
| Fulfilled (v : value)
| Rejected (error : value)
| Pending.

(** What a method hands back: a promise, or a plain value. *)
Inductive returned : Type :=
| Promise (s : settled)
| Plain (v : value).

Record run : Type := { events : list event; outcome : returned }.

(** [await r]: a plain value is awaited as a promise fulfilled with it. *)
Definition await (r : returned) : settled :=
  match r with
  | Promise s => s
  | Plain v => Fulfilled v
  end.

(** [rows[0]] as a value. *)
Definition first_row (rs : list GenericRow) : value :=
  match rs with
  | r :: _ => VObject r
  | [] => VUndefined
  end.

(** A string argument that may be [null]: is it truthy? *)
Definition truthy (s : option string) : bool :=
  match s with
  | Some str => nonempty str
  | None => false
  end.

Record statement : Type := { sql : string; values : list value }.

Section Instance.

(** The platform's [JSON.stringify], the driver's [idConversion], and
    its pool: the answers to a query, to [connect], and the successive
    answers of a cursor opened on a statement to [read] (a cursor whose
    answers are used up has no more rows).  [inherited] is what the
    objects handed to the driver (the rows of the caller, the rows of the
    pool) give under a name they do not list. *)
Variable JSON_stringify : value -> value.
Variable idConversion : NameConversion.
Variable pool_query : string -> list value -> reply.
Variable pool_connect : connect_reply.
Variable cursor_reads : string -> list value -> list read_reply.
Variable inherited : GenericRow -> string -> value.

(** *** findByKey *)
Definition findByKey_sentence (table keyName : string) : string :=
  "SELECT * FROM " ++ dq ++ table ++ dq ++ " WHERE " ++ dq
    ++ toSQL idConversion keyName ++ dq ++ " = $1".

Definition findByKey (table keyName : string) (keyValue : value) : run :=
  let sentence := findByKey_sentence table keyName in
  let values := [keyValue] in
  {| events := [Query sentence values];
     outcome := Promise
       match pool_query sentence values with
       | Failure error => Rejected error
       | Success results =>
           match rows results with
           | Some ((_ :: _) as rs) =>
               Fulfilled (first_row (parseResults idConversion rs))
           | _ => Fulfilled VNull
           end
       end |}.

(** *** generateSelectSentence
    [queryExtraOptions] is not read and is left out. *)
Definition where_clause (filter : GenericFilter) : statement :=
  let cond1 := filterToSQL filter (toSQL idConversion) in
  if nonempty (query cond1)
  then {| sql := " WHERE " ++ query cond1; values := Filtering.values cond1 |}
  else {| sql := ""; values := [] |}.

Definition select_sentence (table : string) (filter : GenericFilter)
    (sortBy sortDir : option string) (skip limit : option Z)
    (projection : option (list string)) : string :=
  "SELECT "
    ++ match projection with
       | Some toProject =>
           join ", " (map (fun f => dq ++ toSQL idConversion f ++ dq) toProject)
       | None => "*"
       end
    ++ " FROM " ++ dq ++ table ++ dq
    ++ sql (where_clause filter)
    ++ match sortBy with
       | Some field =>
           if nonempty field
           then " ORDER BY " ++ dq ++ toSQL idConversion field ++ dq ++ " "
                  ++ match sortDir with
                     | Some dir => if String.eqb dir "desc" then "DESC" else "ASC"
                     | None => "ASC"
                     end
           else ""
       | None => ""
       end
    ++ match limit with
       | Some n => if (0 <=? n)%Z then " LIMIT " ++ of_nat (Z.to_nat n) else ""
       | None => ""
       end
    ++ match skip with
       | Some n => if (0 <=? n)%Z then " OFFSET " ++ of_nat (Z.to_nat n) else ""
       | None => ""
       end.

Definition generateSelectSentence (table : string) (filter : GenericFilter)
    (sortBy sortDir : option string) (skip limit : option Z)
    (projection : option (list string)) : statement :=
  {| sql := toPostgresTemplate
              (select_sentence table filter sortBy sortDir skip limit projection);
     values := values (where_clause filter) |}.

(** *** count, deleteMany, sum: the statement handed to the pool *)
Definition count_sentence (table : string) (filter : GenericFilter) : string :=
  "SELECT COUNT(*) AS " ++ dq ++ "count" ++ dq ++ " FROM " ++ dq ++ table ++ dq
    ++ sql (where_clause filter).

Definition count_statement (table : string) (filter : GenericFilter) : statement :=
  {| sql := toPostgresTemplate (count_sentence table filter);
     values := values (where_clause filter) |}.

Definition deleteMany_sentence (table : string) (filter : GenericFilter) : string :=
  "DELETE FROM " ++ dq ++ table ++ dq ++ sql (where_clause filter).

Definition deleteMany_statement (table : string) (filter : GenericFilter) : statement :=
  {| sql := toPostgresTemplate (deleteMany_sentence table filter);
     values := values (where_clause filter) |}.

Definition sum_sentence (table : string) (filter : GenericFilter) (field : string)
    : string :=
  "SELECT SUM(" ++ dq ++ toSQL idConversion field ++ dq ++ ") AS "
    ++ dq ++ toSQL idConversion field ++ dq ++ " FROM " ++ dq ++ table ++ dq
    ++ sql (where_clause filter).

Definition sum_statement (table : string) (filter : GenericFilter) (field : string)
    : statement :=
  {| sql := toPostgresTemplate (sum_sentence table filter field);
     values := values (where_clause filter) |}.

(** *** findStream and findStreamSync *)

(** The [for] loop over a batch: the handler is awaited row by row; a
    handler that raises ends the loop and everything after it. *)
Fixpoint each_rows (each : value -> handler_result) (partialResults : list GenericRow)
    : list event * bool :=
  match partialResults with
  | [] => ([], true)
  | row :: rest =>
      let arg := first_row (parseResults idConversion [row]) in
      match each arg with
      | Completes =>
          let '(evs, ok) := each_rows each rest in (Each arg :: evs, ok)
      | Raises _ => ([Each arg], false)
      end
  end.

(** The [while] loop: a read that fails counts as a read of no row, and
    a read of no row ends the loop.  The boolean tells whether the loop
    ended (true) or was left by a handler that raised (false). *)
Fixpoint read_loop (each : value -> handler_result) (cursor : list read_reply)
    : list event * bool :=
  match cursor with
  | [] => ([Read CURSOR_READ_AMOUNT], true)
  | answer :: later =>
      let partialResults :=
        match answer with
        | ReadError _ => []
        | ReadRows rows => rows
        end in
      if (0 <? List.length partialResults)%nat then
        let '(evs, ok) := each_rows each partialResults in
        if ok then
          let '(evs', ok') := read_loop each later in
          (Read CURSOR_READ_AMOUNT :: evs ++ evs', ok')%list
        else (Read CURSOR_READ_AMOUNT :: evs, false)
      else ([Read CURSOR_READ_AMOUNT], true)
  end.

(** The executor of both methods.  It is an [async] function: when
    the handler raises, it is the executor's own promise that is
    rejected, which nobody reads, and the statements after the loop
    are not reached. *)
Definition stream (sentenceAndValues : statement) (each : value -> handler_result)
    : run :=
  let sentence := sql sentenceAndValues in
  let values := values sentenceAndValues in
  match pool_connect with
  | ConnectFailure ex =>
      {| events := [Connect]; outcome := Promise (Rejected ex) |}
  | Connected =>
      let '(evs, ok) := read_loop each (cursor_reads sentence values) in
      if ok then
        {| events := (Connect :: OpenCursor sentence values :: evs
                        ++ [CloseCursor; Release])%list;
           outcome := Promise (Fulfilled VUndefined) |}
      else
        {| events := Connect :: OpenCursor sentence values :: evs;
           outcome := Promise Pending |}
  end.

Definition findStream (table : string) (filter : GenericFilter)
    (sortBy sortDir : option string) (skip limit : option Z)
    (projection : option (list string)) (each : value -> handler_result) : run :=
  stream (generateSelectSentence table filter sortBy sortDir skip limit projection)
         each.

Definition findStreamSync (table : string) (filter : GenericFilter)
    (sortBy sortDir : option string) (skip limit : option Z)
    (projection : option (list string)) (each : value -> handler_result) : run :=
  stream (generateSelectSentence table filter sortBy sortDir skip limit projection)
         each.

(** *** insert *)

(** [key === k], for a key that may be [null]. *)
Definition key_is (key : option string) (k : string) : bool :=
  match key with
  | Some name => String.eqb name k
  | None => false
  end.

(** [row[key]], which the method reads for a key that is not [null]
    only: the key need not be a property that the row lists. *)
Definition get_key (row : GenericRow) (key : option string) : value :=
  match key with
  | Some name => member inherited row name
  | None => VUndefined
  end.

(** The loop over the keys of the row: [sqlKeys], [values] and [qm]. *)
Fixpoint insert_loop (row : GenericRow) (key : option string) (keys : list string)
    (sqlKeys : list string) (values0 : list value) (qm : list string)
    : list string * list value * list string :=
  match keys with
  | [] => (sqlKeys, values0, qm)
  | k :: rest =>
      if key_is key k && is_nullish (get row k)
      then insert_loop row key rest sqlKeys values0 qm
      else insert_loop row key rest
             (sqlKeys ++ [(dq ++ toSQL idConversion k ++ dq)%string])%list
             (values0 ++ [toSQLCompatibleValue JSON_stringify (get row k)])%list
             (qm ++ ["?"])%list
  end.

Definition insert_columns (row : GenericRow) (key : option string) : list string :=
  fst (fst (insert_loop row key (Object_keys row) [] [] [])).

Definition insert_values (row : GenericRow) (key : option string) : list value :=
  snd (fst (insert_loop row key (Object_keys row) [] [] [])).

Definition insert_qm (row : GenericRow) (key : option string) : list string :=
  snd (insert_loop row key (Object_keys row) [] [] []).

(** [insertReturns], as the method leaves it. *)
Definition insertReturns (row : GenericRow) (key : option string) : bool :=
  truthy key && is_nullish (get_key row key).

Definition insert_sentence (table : string) (row : GenericRow) (key : option string)
    : string :=
  "INSERT INTO " ++ dq ++ table ++ dq ++ "("
    ++ join "," (insert_columns row key)
    ++ ") VALUES ("
    ++ join "," (insert_qm row key)
    ++ ")"
    ++ (if insertReturns row key
        then " RETURNING " ++ dq
               ++ toSQL idConversion (match key with Some name => name | None => "" end)
               ++ dq
        else "").

(** [callback] tells whether the caller passed one; calling a callback
    that was not passed raises inside the pool's own callback, and the
    promise is never settled. *)
Definition insert (table : string) (row : GenericRow) (key : option string)
    (callback : bool) : run :=
  let sentence := toPostgresTemplate (insert_sentence table row key) in
  let values := insert_values row key in
  match pool_query sentence values with
  | Failure error =>
      {| events := [Query sentence values]; outcome := Promise (Rejected error) |}
  | Success results =>
      if insertReturns row key then
        match rows results with
        | Some (r :: _) =>
            if callback then
              {| events :=
                   [Query sentence values;
                    Callback (member inherited r
                                (toSQL idConversion
                                   (match key with Some name => name | None => "" end)))];
                 outcome := Promise (Fulfilled VUndefined) |}
            else
              {| events := [Query sentence values]; outcome := Promise Pending |}
        | _ =>
            {| events := [Query sentence values];
               outcome := Promise (Fulfilled VUndefined) |}
        end
      else
        {| events := [Query sentence values];
           outcome := Promise (Fulfilled VUndefined) |}
  end.

(** *** update *)

(** The loop over the keys of the descriptor: [first], [sentence] and
    [values]. *)
Fixpoint update_loop (updated : GenericRow) (keys : list string)
    (first : bool) (sentence : string) (values0 : list value)
    : string * list value :=
  match keys with
  | [] => (sentence, values0)
  | key :: rest =>
      update_loop updated rest false
        ((if first then sentence else sentence ++ ", ")
           ++ dq ++ toSQL idConversion key ++ dq ++ " = ?")
        (values0 ++ [toSQLCompatibleValue JSON_stringify (get updated key)])%list
  end.

(** [sentence] and [values] when the loop is left. *)
Definition update_set (table : string) (updated : GenericRow) : string * list value :=
  update_loop updated (Object_keys updated) true
    ("UPDATE " ++ dq ++ table ++ dq ++ " SET ") [].

Definition update_sentence (table keyName : string) (updated : GenericRow) : string :=
  fst (update_set table updated)
    ++ " WHERE " ++ dq ++ toSQL idConversion keyName ++ dq ++ " = ?".

Definition update_values (table : string) (keyValue : value) (updated : GenericRow)
    : list value :=
  (snd (update_set table updated) ++ [keyValue])%list.

Definition update (table keyName : string) (keyValue : value) (updated : GenericRow)
    : run :=
  let keys := Object_keys updated in
  if (List.length keys =? 0)%nat then
    {| events := []; outcome := Plain VUndefined |}
  else
    let sentence := toPostgresTemplate (update_sentence table keyName updated) in
    let values := update_values table keyValue updated in
    {| events := [Query sentence values];
       outcome := Promise
         match pool_query sentence values with
         | Failure error => Rejected error
         | Success _ => Fulfilled VUndefined
         end |}.

(** *** updateMany *)

(** One turn of the loop: the text and the value added for a key.  A
    date is an object without an [update] property and takes the last
    branch of the inner test, which writes what the outer [else]
    writes. *)
Definition updateMany_entry (key : string) (v : value) : string * value :=
  let column := dq ++ toSQL idConversion key ++ dq in
  match v with
  | VObject props =>
      match get props "update" with
      | VStr op =>
          if String.eqb op "set" then
            (column ++ " = ?", toSQLCompatibleValue JSON_stringify (get props "value"))
          else if String.eqb op "inc" then
            (column ++ " = " ++ column ++ " + ?",
             toSQLCompatibleValue JSON_stringify (get props "value"))
          else (column ++ " = ?", toSQLCompatibleValue JSON_stringify v)
      | _ => (column ++ " = ?", toSQLCompatibleValue JSON_stringify v)
      end
  | _ => (column ++ " = ?", toSQLCompatibleValue JSON_stringify v)
  end.

Fixpoint updateMany_loop (updated : GenericRow) (keys : list string)
    (first : bool) (sentence : string) (values0 : list value)
    : string * list value :=
  match keys with
  | [] => (sentence, values0)
  | key :: rest =>
      let '(text, v) := updateMany_entry key (get updated key) in
      updateMany_loop updated rest false
        ((if first then sentence else sentence ++ ", ") ++ text)
        (values0 ++ [v])%list
  end.

(** [sentence] and [values] when the loop is left. *)
Definition updateMany_set (table : string) (updated : GenericRow)
    : string * list value :=
  updateMany_loop updated (Object_keys updated) true
    ("UPDATE " ++ dq ++ table ++ dq ++ " SET ") [].

Definition updateMany_sentence (table : string) (filter : GenericFilter)
    (updated : GenericRow) : string :=
  fst (updateMany_set table updated) ++ sql (where_clause filter).

Definition updateMany_values (table : string) (filter : GenericFilter)
    (updated : GenericRow) : list value :=
  (snd (updateMany_set table updated) ++ values (where_clause filter))%list.

Definition updateMany (table : string) (filter : GenericFilter) (updated : GenericRow)
    : run :=
  let keys := Object_keys updated in
  if (List.length keys =? 0)%nat then
    {| events := []; outcome := Plain VUndefined |}
  else
    let sentence := toPostgresTemplate (updateMany_sentence table filter updated) in
    let values := updateMany_values table filter updated in
    {| events := [Query sentence values];
       outcome := Promise
         match pool_query sentence values with
         | Failure error => Rejected error
         | Success results => Fulfilled (VNum (rowCount results))
         end |}.

(** *** delete and increment: the sentence, numbered by hand *)
Definition delete_sentence (table keyName : string) : string :=
  "DELETE FROM " ++ dq ++ table ++ dq ++ " WHERE " ++ dq
    ++ toSQL idConversion keyName ++ dq ++ " = $1".

Definition increment_sentence (table keyName prop : string) : string :=
  "UPDATE " ++ dq ++ table ++ dq ++ " SET " ++ dq ++ toSQL idConversion prop ++ dq
    ++ " = " ++ dq ++ toSQL idConversion prop ++ dq ++ " + $1 WHERE " ++ dq
    ++ toSQL idConversion keyName ++ dq ++ " = $2".

End Instance.

End Driver.

Import Driver.

(* ===================================================================== *)
(** ** The statements of the builders, placeholders made explicit *)
(* ===================================================================== *)

(** The WHERE clause and the statement of [updateMany] again, keeping
    with every question mark the value pushed for it. *)
Module StatementPieces.

Section Pieces.

Variable JSON_stringify : value -> value.
Variable idConversion : NameConversion.

Definition where_pieces (filter : GenericFilter) : list piece :=
  let cond1 := filterPieces filter (toSQL idConversion) in
  if nonempty (render cond1) then Text " WHERE " :: cond1 else [].

Definition updateMany_entry_pieces (key : string) (v : value) : list piece :=
  let column := dq ++ toSQL idConversion key ++ dq in
  match v with
  | VObject props =>
      match get props "update" with
      | VStr op =>
          if String.eqb op "set" then
            [Text (column ++ " = ");
             Slot (toSQLCompatibleValue JSON_stringify (get props "value"))]
          else if String.eqb op "inc" then
            [Text (column ++ " = " ++ column ++ " + ");
             Slot (toSQLCompatibleValue JSON_stringify (get props "value"))]
          else [Text (column ++ " = "); Slot (toSQLCompatibleValue JSON_stringify v)]
      | _ => [Text (column ++ " = "); Slot (toSQLCompatibleValue JSON_stringify v)]
      end
  | _ => [Text (column ++ " = "); Slot (toSQLCompatibleValue JSON_stringify v)]
  end.

Fixpoint updateMany_set_pieces (updated : GenericRow) (keys : list string)
    (first : bool) (acc : list piece) : list piece :=
  match keys with
  | [] => acc
  | key :: rest =>
      updateMany_set_pieces updated rest false
        (acc ++ (if first then [] else [Text ", "])
             ++ updateMany_entry_pieces key (get updated key))%list
  end.

Definition updateMany_pieces (table : string) (filter : GenericFilter)
    (updated : GenericRow) : list piece :=
  (updateMany_set_pieces updated (Object_keys updated) true
     [Text ("UPDATE " ++ dq ++ table ++ dq ++ " SET ")]
   ++ where_pieces filter)%list.

Definition deleteMany_pieces (table : string) (filter : GenericFilter) : list piece :=
  Text ("DELETE FROM " ++ dq ++ table ++ dq) :: where_pieces filter.

End Pieces.

End StatementPieces.

Import StatementPieces.

(* ===================================================================== *)
(** ** The words of the specification *)
(* ===================================================================== *)

(** Definitions that follow the specification's text, to be compared with
    the program's. *)
Module Spec.

Fixpoint all_chars (p : ascii -> bool) (s : string) : bool :=
  match s with
  | EmptyString => true
  | String c rest => p c && all_chars p rest
  end.

Definition is_alnum (c : ascii) : bool := is_upper c || is_lower c || is_digit c.

(** Application convention: ASCII letters and digits without separators,
    the words told apart by their capital letters. *)
Definition application_convention (x : string) : bool := all_chars is_alnum x.

(** Storage convention: words of lower-case letters and digits, none of
    them empty, joined by single underscores.  With [letter_led], a word
    that follows an underscore must begin with a letter. *)
Inductive position : Type := AtStart | AfterUnderscore | InWord.

Fixpoint storage_scan (letter_led : bool) (pos : position) (s : string) : bool :=
  match s with
  | EmptyString =>
      match pos with
      | InWord => true
      | _ => false
      end
  | String c rest =>
      if Ascii.eqb c "_" then
        match pos with
        | InWord => storage_scan letter_led AfterUnderscore rest
        | _ => false
        end
      else
        match pos with
        | AfterUnderscore =>
            (is_lower c || (negb letter_led && is_digit c))
              && storage_scan letter_led InWord rest
        | _ => (is_lower c || is_digit c) && storage_scan letter_led InWord rest
        end
  end.

Definition after_underscore (pos : position) : bool :=
  match pos with AfterUnderscore => true | _ => false end.

Definition storage_convention (y : string) : bool := storage_scan false AtStart y.

Definition storage_convention_letter_led (y : string) : bool :=
  storage_scan true AtStart y.

(** One layer of backslash-escaping stripped: a backslash is dropped
    and the character after it is kept, whatever it is. *)
Fixpoint strip_escapes (source : string) : string :=
  match source with
  | EmptyString => ""
  | String c rest =>
      if Ascii.eqb c "\" then
        match rest with
        | EmptyString => ""
        | String d rest' => String d (strip_escapes rest')
        end
      else String c (strip_escapes rest)
  end.

(** [escape]: a backslash is put before every [%] and every [_]. *)
Fixpoint escape (s : string) : string :=
  match s with
  | EmptyString => ""
  | String c rest =>
      if Ascii.eqb c "%" || Ascii.eqb c "_"
      then String "\" (String c (escape rest))
      else String c (escape rest)
  end.

(** The case-insensitive flag of a regular expression. *)
Definition case_insensitive (re : RegExp) : bool :=
  negb (Nat.eqb (count "i" (flags re)) 0).

(** The columns an INSERT would list if only the fields that are not
    null were kept. *)
Definition non_null_columns (toSQL : string -> string) (row : GenericRow) : list string :=
  map (fun k => dq ++ toSQL k ++ dq)
      (filter (fun k => negb (is_nullish (get row k))) (Object_keys row)).

(** Offsets of the occurrences of a character, from left to right. *)
Fixpoint positions (c : ascii) (s : string) (offset : nat) : list nat :=
  match s with
  | EmptyString => []
  | String d rest =>
      if Ascii.eqb d c then offset :: positions c rest (S offset)
      else positions c rest (S offset)
  end.

(** Offsets, in the rendered template, of the placeholders, each with
    the value it carries. *)
Fixpoint slot_offsets (ps : list piece) (offset : nat) : list (nat * value) :=
  match ps with
  | [] => []
  | Text s :: rest => slot_offsets rest (offset + String.length s)
  | Slot v :: rest => (offset, v) :: slot_offsets rest (S offset)
  end.

(** Number of occurrences of an event. *)
Definition is_close (e : event) : bool :=
  match e with CloseCursor => true | _ => false end.

Definition is_release (e : event) : bool :=
  match e with Release => true | _ => false end.

Definition occurrences (p : event -> bool) (evs : list event) : nat :=
  List.length (filter p evs).

(** Neither a close of the cursor nor a release of the connection. *)
Definition quiet (evs : list event) : Prop :=
  occurrences is_close evs = 0 /\ occurrences is_release evs = 0.

(** The pieces render to the fragment and carry its values. *)
Definition pieces_agree (ps : list piece) (c : compiled) : Prop :=
  render ps = query c /\ slots ps = Filtering.values c.

(** The fields an INSERT lists: all of the row's, but the key when its
    value is null or absent. *)
Definition kept_fields (row : GenericRow) (key : option string) : list string :=
  filter (fun k => negb (key_is key k && is_nullish (get row k))) (Object_keys row).

End Spec.

Import Spec.

(* ===================================================================== *)
(** ** JavaScript numbers out of strings *)
(* ===================================================================== *)

Module JsNumber.

(** White space that [parseInt] skips, among the 8-bit code units. *)
Definition is_space (c : ascii) : bool :=
  let n := nat_of_ascii c in
  ((9 <=? n) && (n <=? 13) || (n =? 32) || (n =? 160))%nat.

Fixpoint trim_start (s : string) : string :=
  match s with
  | EmptyString => ""
  | String c rest => if is_space c then trim_start rest else s
  end.

Definition digit_value (c : ascii) : Z := Z.of_nat (nat_of_ascii c - 48).

(** The longest run of decimal digits at the front; [None] when there is
    no digit. *)
Fixpoint parse_digits (acc : option Z) (s : string) : option Z :=
  match s with
  | EmptyString => acc
  | String c rest =>
      if is_digit c then
        parse_digits
          (Some (10 * (match acc with Some n => n | None => 0 end) + digit_value c)%Z)
          rest
      else acc
  end.

(** The Number value of an integer: the double nearest to it, the one
    with the even significand when two are as near.  An integer of
    magnitude up to 2^53 is its own Number value; a larger one keeps its
    53 leading bits, rounded.  (The magnitudes from 2^1024 - 2^970 on,
    whose Number value is an infinity, are out of the integers that a
    [value] carries.) *)
Definition Number_value (m : Z) : Z :=
  let a := Z.abs m in
  if Z.ltb a (2 ^ 53) then m
  else
    let e := (Z.log2 a - 52)%Z in
    let q := Z.shiftr a e in
    let r := (a - Z.shiftl q e)%Z in
    let half := Z.shiftl 1 (e - 1) in
    let up :=
      if Z.ltb r half then false
      else if Z.ltb half r then true
      else Z.odd q in
    (Z.sgn m * Z.shiftl (if up then q + 1 else q) e)%Z.

(** [parseInt(s, 10)]; [None] is NaN. *)
Definition parseInt10 (s : string) : option Z :=
  option_map Number_value
    match trim_start s with
    | String c rest =>
        if Ascii.eqb c "-" then option_map Z.opp (parse_digits None rest)
        else if Ascii.eqb c "+" then parse_digits None rest
        else parse_digits None (String c rest)
    | EmptyString => None
    end.

Section Conversion.

(** The string of a date, an object or a function, and the string of
    a number from 10^21 on, which is written with an exponent, are the
    platform's. *)
Variable ToString_object : value -> string.

Definition ToString (v : value) : string :=
  match v with
  | VNull => "null"
  | VUndefined => "undefined"
  | VNum n =>
      if Z.ltb (Z.abs n) (10 ^ 21) then NilEmpty.string_of_int (Z.to_int n)
      else ToString_object v
  | VBigInt n => NilEmpty.string_of_int (Z.to_int n)
  | VStr s => s
  | VBool b => if b then "true" else "false"
  | VDate _ | VObject _ | VFunction => ToString_object v
  end.

(** [parseInt(v, 10) || 0]. *)
Definition parseInt_or_0 (v : value) : Z :=
  match parseInt10 (ToString v) with
  | Some n => n
  | None => 0%Z
  end.

End Conversion.

End JsNumber.

(* ===================================================================== *)
(** ** src/driver.ts: the other methods *)
(* ===================================================================== *)

(** The methods of the driver that come on top of the ones above.  The
    names are those of the source; the module is not imported, so that
    [count] stays the count of a character. *)
Module Methods.

(** How the promise of [find] ends: it carries an array of rows. *)
Inductive rows_settled : Type :=
| RowsFulfilled (found : list GenericRow)
| RowsRejected (error : value).

Record rows_run : Type := { rows_events : list event; rows_outcome : rows_settled }.

Section Instance.

Variable ToString_object : value -> string.
Variable idConversion : NameConversion.
Variable pool_query : string -> list value -> reply.

(** How the promise of [sum] ends when the result has no [rows]:
    [parseResults] is then applied to [undefined], which the converter
    alone decides ([normalizeSQLResults] raises and the promise stays
    pending, the identity gives [undefined] back and the promise is
    fulfilled with 0). *)
Variable sum_without_rows : settled.

(** *** find *)
Definition find (table : string) (filter : GenericFilter)
    (sortBy sortDir : option string) (skip limit : option Z)
    (projection : option (list string)) : rows_run :=
  let sentenceAndValues :=
    generateSelectSentence idConversion table filter sortBy sortDir skip limit
      projection in
  let sentence := sql sentenceAndValues in
  let values := values sentenceAndValues in
  {| rows_events := [Query sentence values];
     rows_outcome :=
       match pool_query sentence values with
       | Failure error => RowsRejected error
       | Success results =>
           match rows results with
           | Some rs => RowsFulfilled (parseResults idConversion rs)
           | None => RowsFulfilled []
           end
       end |}.

(** *** count
    [results.rows[0].count] is the own property of the row: no object
    inherits anything under that name. *)
Definition count (table : string) (filter : GenericFilter) : run :=
  let statement := count_statement idConversion table filter in
  {| events := [Query (sql statement) (values statement)];
     outcome := Promise
       match pool_query (sql statement) (values statement) with
       | Failure error => Rejected error
       | Success results =>
           match rows results with
           | Some (first :: _) =>
               Fulfilled (VNum (JsNumber.parseInt_or_0 ToString_object
                                  (get first "count")))
           | _ => Fulfilled (VNum 0)
           end
       end |}.

(** *** sum
    [normalized[0][field]] is the own property of the row: the rows of
    [normalizeSQLResults] have no prototype, and what a row of another
    conversion would inherit from [Object.prototype] under the name, a
    function or an object, is read by [parseInt] as [undefined] is, as no
    number. *)
Definition sum (table : string) (filter : GenericFilter) (field : string) : run :=
  let statement := sum_statement idConversion table filter field in
  {| events := [Query (sql statement) (values statement)];
     outcome := Promise
       match pool_query (sql statement) (values statement) with
       | Failure error => Rejected error
       | Success results =>
           match rows results with
           | Some rs =>
               match parseResults idConversion rs with
               | first :: _ =>
                   Fulfilled (VNum (JsNumber.parseInt_or_0 ToString_object
                                      (get first field)))
               | [] => Fulfilled (VNum 0)
               end
           | None => sum_without_rows
           end
       end |}.

(** *** delete *)
Definition delete (table keyName : string) (keyValue : value) : run :=
  let sentence := delete_sentence idConversion table keyName in
  let values := [keyValue] in
  {| events := [Query sentence values];
     outcome := Promise
       match pool_query sentence values with
       | Failure error => Rejected error
       | Success results => Fulfilled (VBool (negb (rowCount results =? 0)%Z))
       end |}.

(** *** deleteMany *)
Definition deleteMany (table : string) (filter : GenericFilter) : run :=
  let statement := deleteMany_statement idConversion table filter in
  {| events := [Query (sql statement) (values statement)];
     outcome := Promise
       match pool_query (sql statement) (values statement) with
       | Failure error => Rejected error
       | Success results => Fulfilled (VNum (rowCount results))
       end |}.

(** *** increment *)
Definition increment (table keyName : string) (keyValue : value) (prop : string)
    (inc : value) : run :=
  let sentence := increment_sentence idConversion table keyName prop in
  let values := [inc; keyValue] in
  {| events := [Query sentence values];
     outcome := Promise
       match pool_query sentence values with
       | Failure error => Rejected error
       | Success _ => Fulfilled VUndefined
       end |}.

End Instance.

Section Batch.

(** *** batchInsert
    An [async] function: the rows are inserted one after the other, each
    awaited, with no key and no callback; a rejected insert rejects the
    whole and the rows after it are not reached.

    This method sends several statements, and what the pool answers to
    one depends on those before it (the INSERT of a row is accepted, the
    same INSERT is then refused for its duplicate key): [pool_after made]
    is the pool after the calls [made], and each [insert] runs on the pool
    as the inserts before it have left it. *)
Variable JSON_stringify : value -> value.
Variable idConversion : NameConversion.
Variable pool_after : list event -> string -> list value -> reply.
Variable inherited : GenericRow -> string -> value.

Fixpoint batchInsert_from (made : list event) (table : string)
    (rows : list GenericRow) : run :=
  match rows with
  | [] => {| events := []; outcome := Promise (Fulfilled VUndefined) |}
  | row :: rest =>
      let one :=
        insert JSON_stringify idConversion (pool_after made) inherited
          table row None false in
      match await (outcome one) with
      | Fulfilled _ =>
          let others := batchInsert_from (made ++ events one)%list table rest in
          {| events := (events one ++ events others)%list; outcome := outcome others |}
      | Rejected error =>
          {| events := events one; outcome := Promise (Rejected error) |}
      | Pending => {| events := events one; outcome := Promise Pending |}
      end
  end.

Definition batchInsert (table : string) (rows : list GenericRow) : run :=
  batchInsert_from [] table rows.

End Batch.

End Methods.

(* ===================================================================== *)
(** ** More words for the properties *)
(* ===================================================================== *)

Module Words.

(** [s.toLowerCase()] for a whole string. *)
Fixpoint lower_string (s : string) : string :=
  match s with
  | EmptyString => ""
  | String c rest => String (toLowerCase c) (lower_string rest)
  end.

(** Every [%] and every [_] of the string comes right after a backslash. *)
Fixpoint wildcards_guarded (after_backslash : bool) (s : string) : bool :=
  match s with
  | EmptyString => true
  | String c rest =>
      (if Ascii.eqb c "%" || Ascii.eqb c "_" then after_backslash else true)
        && wildcards_guarded (Ascii.eqb c "\") rest
  end.

(** A filter that asks nothing: no filter, a group of such filters, the
    negation of one, a membership in no value. *)
Fixpoint vacuous (f : GenericFilter) : bool :=
  match f with
  | FNull => true
  | FAnd children | FOr children => forallb vacuous children
  | FNot child => vacuous child
  | FIn _ vs => match vs with [] => true | _ :: _ => false end
  | _ => false
  end.

(** The values of a filter tree, from left to right. *)
Fixpoint tree_values (f : GenericFilter) : list value :=
  match f with
  | FNull => []
  | FAnd children | FOr children => List.concat (map tree_values children)
  | FNot child => tree_values child
  | FRegex _ regexp => [VStr (like_value (reverseRegexp regexp))]
  | FIn _ vs => vs
  | FExists _ _ => []
  | FEq _ v | FNe _ v => if is_nullish v then [] else [v]
  | FGt _ v | FLt _ v | FGte _ v | FLte _ v => [v]
  end.

(** A fragment between the parentheses that a group puts around it. *)
Definition wrapped (fragment : string) : string := "( " ++ fragment ++ " )".

(** The fragments that are not empty. *)
Definition fragments (children : list compiled) : list string :=
  filter nonempty (map query children).

(** As many opening as closing parentheses. *)
Definition parens_even (s : string) : bool :=
  Nat.eqb (JsString.count "(" s) (JsString.count ")" s).

(** The texts of a list, each followed by the marker of its rank,
    counted from [k]. *)
Fixpoint numbered (texts : list string) (k : nat) : list string :=
  match texts with
  | [] => []
  | t :: rest => (t ++ marker k) :: numbered rest (S k)
  end.

(** The rows a cursor gives before its first read without rows (a read
    that fails is one), and the number of reads up to that one. *)
Fixpoint delivered (cursor : list read_reply) : list GenericRow :=
  match cursor with
  | ReadRows (row :: rows) :: later => (row :: rows ++ delivered later)%list
  | _ => []
  end.

Fixpoint reads_made (cursor : list read_reply) : nat :=
  match cursor with
  | ReadRows (_ :: _) :: later => S (reads_made later)
  | _ => 1
  end.

(** The rows handed to the handler, and the amounts asked of the cursor,
    in a list of events. *)
Fixpoint handled (evs : list event) : list value :=
  match evs with
  | [] => []
  | Each row :: rest => row :: handled rest
  | _ :: rest => handled rest
  end.

Fixpoint asked (evs : list event) : list nat :=
  match evs with
  | [] => []
  | Read amount :: rest => amount :: asked rest
  | _ :: rest => asked rest
  end.

(** The statements sent to the pool, in a list of events. *)
Fixpoint queries (evs : list event) : list (string * list value) :=
  match evs with
  | [] => []
  | Query sentence values :: rest => (sentence, values) :: queries rest
  | _ :: rest => queries rest
  end.

(** The value of the last property of a row whose key is rewritten to
    [name] by [toCamelCase]; [fallback] when there is none. *)
Fixpoint last_under (name : string) (props : GenericRow) (fallback : value) : value :=
  match props with
  | [] => fallback
  | (key, v) :: rest =>
      last_under name rest (if String.eqb (toCamelCase key) name then v else fallback)
  end.

(** A value that [updateMany] reads as an operation. *)
Definition is_operation (v : value) : bool :=
  match v with
  | VObject props =>
      match get props "update" with
      | VStr op => String.eqb op "set" || String.eqb op "inc"
      | _ => false
      end
  | _ => false
  end.

End Words.

Import Words.

(* ===================================================================== *)
(** ** Induction on filters *)
(* ===================================================================== *)

(** Induction on filters, with the hypothesis for every child of a
    conjunction or disjunction. *)
Section FilterInduction.

Variable P : GenericFilter -> Prop.
Hypothesis P_null : P FNull.
Hypothesis P_and : forall children, Forall P children -> P (FAnd children).
Hypothesis P_or : forall children, Forall P children -> P (FOr children).
Hypothesis P_not : forall child, P child -> P (FNot child).
Hypothesis P_regex : forall key regexp, P (FRegex key regexp).
Hypothesis P_in : forall key vs, P (FIn key vs).
Hypothesis P_exists : forall key e, P (FExists key e).
Hypothesis P_eq : forall key v, P (FEq key v).
Hypothesis P_ne : forall key v, P (FNe key v).
Hypothesis P_gt : forall key v, P (FGt key v).
Hypothesis P_lt : forall key v, P (FLt key v).
Hypothesis P_gte : forall key v, P (FGte key v).
Hypothesis P_lte : forall key v, P (FLte key v).

Fixpoint filter_induction (f : GenericFilter) : P f :=
  let children_induction :=
    fix go (l : list GenericFilter) : Forall P l :=
      match l with
      | [] => Forall_nil P
      | c :: rest => Forall_cons c (filter_induction c) (go rest)
      end in
  match f with
  | FNull => P_null
  | FAnd children => P_and children (children_induction children)
  | FOr children => P_or children (children_induction children)
  | FNot child => P_not child (filter_induction child)
  | FRegex key regexp => P_regex key regexp
  | FIn key vs => P_in key vs
  | FExists key e => P_exists key e
  | FEq key v => P_eq key v
  | FNe key v => P_ne key v
  | FGt key v => P_gt key v
  | FLt key v => P_lt key v
  | FGte key v => P_gte key v
  | FLte key v => P_lte key v
  end.

End FilterInduction.

(* ===================================================================== *)
(** ** Identifier conversion *)
(* ===================================================================== *)

Section Characters.

Lemma upper_lower_roundtrip (c : ascii) :
  is_upper c = true ->
  Ascii.eqb (toLowerCase c) c = false /\
  Ascii.eqb (toLowerCase c) "_" = false /\
  toUpperCase (toLowerCase c) = c.
Proof.
  destruct c as [[] [] [] [] [] [] [] []]; vm_compute; intros H;
    try discriminate H; repeat split.
Qed.

Lemma lower_upper_roundtrip (c : ascii) :
  is_lower c = true ->
  Ascii.eqb (toLowerCase (toUpperCase c)) (toUpperCase c) = false /\
  toLowerCase (toUpperCase c) = c.
Proof.
  destruct c as [[] [] [] [] [] [] [] []]; vm_compute; intros H;
    try discriminate H; repeat split.
Qed.

Lemma lower_or_digit_fixed (c : ascii) :
  is_lower c || is_digit c = true ->
  Ascii.eqb c "_" = false /\ toLowerCase c = c.
Proof.
  destruct c as [[] [] [] [] [] [] [] []]; vm_compute; intros H;
    try discriminate H; repeat split.
Qed.

Lemma alnum_cases (c : ascii) :
  is_alnum c = true -> is_upper c = true \/ is_lower c || is_digit c = true.
Proof.
  unfold is_alnum. destruct (is_upper c); [left; reflexivity|].
  simpl. intros H. right. exact H.
Qed.

End Characters.

Lemma camel_of_snake (x : string) :
  application_convention x = true -> toCamelCase (toSnakeCase x) = x.
Proof.
  unfold toCamelCase, application_convention.
  induction x as [|c x IH]; simpl; [reflexivity|].
  intros H. apply andb_true_iff in H. destruct H as [Hc Hx].
  specialize (IH Hx).
  destruct (alnum_cases c Hc) as [Hu|Hl].
  - destruct (upper_lower_roundtrip c Hu) as (E1 & E2 & E3).
    rewrite E1. simpl. rewrite E2, E3, IH. reflexivity.
  - destruct (lower_or_digit_fixed c Hl) as (E1 & E2).
    rewrite E2, Ascii.eqb_refl. simpl. rewrite E1, E2, IH. reflexivity.
Qed.

Lemma snake_of_camel_scan (y : string) :
  forall pos, storage_scan true pos y = true ->
  toSnakeCase (toCamelCase_loop (after_underscore pos) y)
  = if after_underscore pos then "_" ++ y else y.
Proof.
  induction y as [|c y IH]; intros pos H.
  - destruct pos; simpl in H; try discriminate H. reflexivity.
  - simpl in H. simpl toCamelCase_loop.
    destruct (Ascii.eqb c "_") eqn:Ec.
    + apply Ascii.eqb_eq in Ec. subst c.
      destruct pos; try discriminate H.
      simpl. apply (IH AfterUnderscore H).
    + destruct pos; simpl in H; apply andb_true_iff in H; destruct H as [Hc Hy];
        specialize (IH InWord Hy); simpl in IH; simpl after_underscore; cbv iota.
      * destruct (lower_or_digit_fixed c Hc) as (_ & E2).
        simpl. rewrite !E2, Ascii.eqb_refl. simpl. rewrite IH. reflexivity.
      * rewrite orb_false_r in Hc.
        destruct (lower_upper_roundtrip c Hc) as (E1 & E2).
        simpl. rewrite E1. simpl. rewrite E2, IH. reflexivity.
      * destruct (lower_or_digit_fixed c Hc) as (_ & E2).
        simpl. rewrite !E2, Ascii.eqb_refl. simpl. rewrite IH. reflexivity.
Qed.

(** C3, as amended.  An identifier of ASCII letters and digits in
    application convention is given back by [toCamelCase] after
    [toSnakeCase]; an identifier in storage convention is given back by
    [toSnakeCase] after [toCamelCase] when each of its words after the
    first begins with a letter. *)
Theorem C3_identifier_roundtrip (x y : string) :
  (application_convention x = true -> toCamelCase (toSnakeCase x) = x) /\
  (storage_convention_letter_led y = true -> toSnakeCase (toCamelCase y) = y).
Proof.
  split.
  - apply camel_of_snake.
  - intros H. exact (snake_of_camel_scan y AtStart H).
Qed.

Lemma C3_identifier_roundtrip_witness :
  (application_convention "hasDriverLicense" = true /\
   toCamelCase (toSnakeCase "hasDriverLicense") = "hasDriverLicense") /\
  (storage_convention_letter_led "has_driver_license" = true /\
   toSnakeCase (toCamelCase "has_driver_license") = "has_driver_license").
Proof.
  destruct (C3_identifier_roundtrip "hasDriverLicense" "has_driver_license")
    as [Hx Hy].
  split; split.
  - reflexivity.
  - apply Hx. reflexivity.
  - reflexivity.
  - apply Hy. reflexivity.
Defined.

(** C3, as stated, fails: [value_1] is in storage convention and comes
    back as [value1]. *)
Lemma C3_storage_roundtrip_counterexample :
  storage_convention "value_1" = true /\
  toSnakeCase (toCamelCase "value_1") = "value1" /\
  toSnakeCase (toCamelCase "value_1") <> "value_1".
Proof.
  split; [reflexivity|]. split; [reflexivity|]. discriminate.
Qed.

(* ===================================================================== *)
(** ** Pattern translation *)
(* ===================================================================== *)

Lemma reverseRegexp_loop_strip (n : nat) :
  forall source, String.length source <= n ->
  reverseRegexp_loop false source = strip_escapes source.
Proof.
  induction n as [|n IH]; intros source Hlen.
  - destruct source; [reflexivity | simpl in Hlen; lia].
  - destruct source as [|c rest]; [reflexivity|].
    simpl in Hlen. simpl.
    destruct (Ascii.eqb c "\") eqn:Ec.
    + destruct rest as [|d rest']; [reflexivity|].
      simpl in Hlen. simpl.
      assert (Hd : reverseRegexp_loop false rest' = strip_escapes rest')
        by (apply IH; lia).
      destruct (Ascii.eqb d "\"); rewrite Hd; reflexivity.
    + f_equal. apply IH. lia.
Qed.

Lemma reverseRegexp_strips_one_layer (re : RegExp) :
  reverseRegexp re = strip_escapes (source re).
Proof.
  unfold reverseRegexp, reverseRegexp_source.
  apply (reverseRegexp_loop_strip (String.length (source re))). lia.
Qed.

Lemma replaceLikeWildcards_escape (str : string) :
  replaceLikeWildcards str = escape str.
Proof.
  unfold replaceLikeWildcards.
  induction str as [|c str IH]; [reflexivity|].
  simpl. destruct (Ascii.eqb c "%") eqn:Ep.
  - apply Ascii.eqb_eq in Ep. subst c. simpl. rewrite IH. reflexivity.
  - simpl. destruct (Ascii.eqb c "_") eqn:Eu; simpl; rewrite IH; [|reflexivity].
    apply Ascii.eqb_eq in Eu. subst c. reflexivity.
Qed.

Lemma substring_whole (s : string) : substring 0 (String.length s) s = s.
Proof. induction s as [|c s IH]; simpl; [reflexivity | rewrite IH; reflexivity]. Qed.

Lemma substring_front (body tail : string) :
  substring 0 (String.length body) (body ++ tail) = body.
Proof.
  induction body as [|c body IH]; simpl.
  - destruct tail; reflexivity.
  - rewrite IH. reflexivity.
Qed.

Lemma length_snoc (body : string) (c : ascii) :
  String.length (body ++ String c "") = S (String.length body).
Proof. induction body as [|d body IH]; simpl; [reflexivity | rewrite IH; reflexivity]. Qed.

Lemma endsWith_snoc (c : ascii) (body : string) :
  endsWith c (body ++ String c "") = true.
Proof.
  induction body as [|d body IH]; simpl.
  - apply Ascii.eqb_refl.
  - destruct (body ++ String c "") eqn:E; [|exact IH].
    destruct body; discriminate E.
Qed.

Lemma endsWith_inv (c : ascii) (s : string) :
  endsWith c s = true -> exists body, s = body ++ String c "".
Proof.
  induction s as [|d s IH]; simpl; [discriminate|].
  destruct s as [|e s'].
  - intros H. apply Ascii.eqb_eq in H. subst d. exists "". reflexivity.
  - intros H. destruct (IH H) as [body Hb]. exists (String d body).
    simpl. rewrite <- Hb. reflexivity.
Qed.

Lemma indexOf_from_count (c : ascii) (s : string) (pos : Z) :
  (0 <= pos)%Z ->
  (0 <=? indexOf_from c s pos)%Z = negb (Nat.eqb (count c s) 0).
Proof.
  revert pos. induction s as [|d s IH]; simpl; intros pos Hpos; [reflexivity|].
  destruct (Ascii.eqb d c); simpl.
  - apply Z.leb_le. exact Hpos.
  - apply IH. lia.
Qed.

(** C4.  A Regex node compiles to one LIKE comparison, wrapped in UPPER()
    on both sides when the expression has the case-insensitive flag, with
    one bound pattern: with [rStr] the source stripped of one layer of
    backslash-escaping, [escape rest ++ "%"] when [rStr] is [^] followed by
    [rest]; otherwise ["%" ++ escape body] when [rStr] is [body] followed
    by [$]; otherwise ["%" ++ escape rStr ++ "%"]. *)
Theorem C4_regex_like_pattern (key : string) (re : RegExp)
    (idConverter : string -> string) :
  let rStr := strip_escapes (source re) in
  let compiled := filterToSQL (FRegex key re) idConverter in
  query compiled
  = (if case_insensitive re
     then "UPPER(" ++ dq ++ idConverter key ++ dq ++ ") LIKE UPPER(?)"
     else dq ++ idConverter key ++ dq ++ " LIKE ?")
  /\ (forall rest, rStr = "^" ++ rest ->
        Filtering.values compiled = [VStr (escape rest ++ "%")])
  /\ (forall body, (forall rest, rStr <> "^" ++ rest) -> rStr = body ++ "$" ->
        Filtering.values compiled = [VStr ("%" ++ escape body)])
  /\ ((forall rest, rStr <> "^" ++ rest) -> (forall body, rStr <> body ++ "$") ->
        Filtering.values compiled = [VStr ("%" ++ escape rStr ++ "%")]).
Proof.
  intros rStr compiled. subst compiled. simpl.
  rewrite reverseRegexp_strips_one_layer. fold rStr.
  unfold like_value. rewrite !replaceLikeWildcards_escape.
  split; [|split; [|split]].
  - unfold indexOf, case_insensitive.
    rewrite indexOf_from_count by lia. reflexivity.
  - intros rest E. rewrite E. simpl.
    unfold substr_from. simpl. rewrite Nat.sub_0_r, substring_whole.
    reflexivity.
  - intros body Hno E.
    assert (Hs : startsWith "^" rStr = false).
    { destruct rStr as [|c r]; [reflexivity|]. simpl.
      destruct (Ascii.eqb c "^") eqn:Ec; [|reflexivity].
      apply Ascii.eqb_eq in Ec. subst c. exfalso. apply (Hno r). reflexivity. }
    rewrite Hs. rewrite E at 1. rewrite endsWith_snoc.
    unfold substr. rewrite E, length_snoc. simpl. rewrite Nat.sub_0_r.
    rewrite substring_front. reflexivity.
  - intros Hno Hno'.
    assert (Hs : startsWith "^" rStr = false).
    { destruct rStr as [|c r]; [reflexivity|]. simpl.
      destruct (Ascii.eqb c "^") eqn:Ec; [|reflexivity].
      apply Ascii.eqb_eq in Ec. subst c. exfalso. apply (Hno r). reflexivity. }
    rewrite Hs.
    destruct (endsWith "$" rStr) eqn:Ee.
    + destruct (endsWith_inv _ _ Ee) as [body Hb]. exfalso. apply (Hno' body Hb).
    + reflexivity.
Qed.

Lemma C4_regex_like_pattern_witness :
  Filtering.values
    (filterToSQL (FRegex "name" {| source := "^a_b"; flags := "i" |}) toSnakeCase)
  = [VStr "a\_b%"]
  /\ Filtering.values
       (filterToSQL (FRegex "name" {| source := "50%\.$"; flags := "" |}) toSnakeCase)
     = [VStr "%50\%."]
  /\ Filtering.values
       (filterToSQL (FRegex "name" {| source := "mid"; flags := "" |}) toSnakeCase)
     = [VStr "%mid%"].
Proof.
  split; [|split].
  - exact (proj1 (proj2 (C4_regex_like_pattern
                           "name" {| source := "^a_b"; flags := "i" |} toSnakeCase))
                 "a_b" eq_refl).
  - apply (proj1 (proj2 (proj2 (C4_regex_like_pattern
                           "name" {| source := "50%\.$"; flags := "" |} toSnakeCase)))
                 "50%.").
    + intros rest H. discriminate H.
    + reflexivity.
  - apply (proj2 (proj2 (proj2 (C4_regex_like_pattern
                           "name" {| source := "mid"; flags := "" |} toSnakeCase)))).
    + intros rest H. discriminate H.
    + intros body H. simpl in H.
      destruct body as [|a [|b [|c [|d body]]]]; discriminate H.
Defined.

(* ===================================================================== *)
(** ** The filter compiler: vacuous nodes and comparisons *)
(* ===================================================================== *)

Lemma nonempty_empty (s : string) : s = "" -> nonempty s = false.
Proof. intros ->. reflexivity. Qed.

Lemma combine_children_vacuous (sep : string) (children : list compiled) :
  Forall (fun child => query child = "") children ->
  forall first query0 values0,
    combine_children sep children first query0 values0
    = {| query := query0; Filtering.values := values0 |}.
Proof.
  induction 1 as [|child rest Hc _ IH]; intros first query0 values0; simpl.
  - reflexivity.
  - rewrite (nonempty_empty _ Hc). apply IH.
Qed.

(** C6.  The null filter, an And or an Or whose children (if any) all
    compile to the empty fragment, a Not whose child compiles to the empty
    fragment, and an In over no value, all compile to the empty fragment
    with no bound value. *)
Theorem C6_vacuous_filters (idConverter : string -> string)
    (children : list GenericFilter) (child : GenericFilter) (key : string) :
  let nothing := {| query := ""; Filtering.values := [] |} in
  filterToSQL FNull idConverter = nothing
  /\ filterToSQL (FAnd []) idConverter = nothing
  /\ filterToSQL (FOr []) idConverter = nothing
  /\ (Forall (fun c => query (filterToSQL c idConverter) = "") children ->
        filterToSQL (FAnd children) idConverter = nothing
        /\ filterToSQL (FOr children) idConverter = nothing)
  /\ (query (filterToSQL child idConverter) = "" ->
        filterToSQL (FNot child) idConverter = nothing)
  /\ filterToSQL (FIn key []) idConverter = nothing.
Proof.
  intros nothing.
  split; [reflexivity|]. split; [reflexivity|]. split; [reflexivity|].
  split; [|split; [|reflexivity]].
  - intros Hchildren.
    assert (Hmap : Forall (fun c => query c = "")
                     (map (fun c => filterToSQL c idConverter) children))
      by (apply Forall_map; exact Hchildren).
    split; simpl; apply combine_children_vacuous; exact Hmap.
  - intros Hchild. simpl. rewrite (nonempty_empty _ Hchild). reflexivity.
Qed.

Lemma C6_vacuous_filters_witness :
  let vacuous := [FNull; FIn "id" []; FNot (FAnd [])] in
  filterToSQL (FAnd vacuous) toSnakeCase = {| query := ""; Filtering.values := [] |}
  /\ filterToSQL (FOr vacuous) toSnakeCase = {| query := ""; Filtering.values := [] |}
  /\ filterToSQL (FNot (FOr vacuous)) toSnakeCase = {| query := ""; Filtering.values := [] |}.
Proof.
  intros vacuous.
  pose proof (C6_vacuous_filters toSnakeCase vacuous (FOr vacuous) "id")
    as (_ & _ & _ & Hchildren & Hnot & _).
  split; [|split].
  - apply Hchildren. repeat constructor.
  - apply Hchildren. repeat constructor.
  - apply Hnot. reflexivity.
Defined.

(** C7.  An Eq node on a null or absent value compiles to
    ["<field>" IS NULL] with no bound value, and on any other value to
    ["<field>" = ?] bound to that value; a Ne node compiles to
    ["<field>" IS NOT NULL] and ["<field>" != ?] in the same way.  The
    field is written as the identifier converter gives it. *)
Theorem C7_eq_ne_null (key : string) (v : value) (idConverter : string -> string) :
  (v = VNull \/ v = VUndefined ->
     filterToSQL (FEq key v) idConverter
     = {| query := dq ++ idConverter key ++ dq ++ " IS NULL"; Filtering.values := [] |}
     /\ filterToSQL (FNe key v) idConverter
        = {| query := dq ++ idConverter key ++ dq ++ " IS NOT NULL"; Filtering.values := [] |})
  /\ (v <> VNull -> v <> VUndefined ->
        filterToSQL (FEq key v) idConverter
        = {| query := dq ++ idConverter key ++ dq ++ " = ?"; Filtering.values := [v] |}
        /\ filterToSQL (FNe key v) idConverter
           = {| query := dq ++ idConverter key ++ dq ++ " != ?"; Filtering.values := [v] |}).
Proof.
  split.
  - intros [-> | ->]; split; reflexivity.
  - intros Hnull Hundef.
    destruct v; try contradiction; split; reflexivity.
Qed.

Lemma C7_eq_ne_null_witness :
  filterToSQL (FEq "age" VNull) toSnakeCase
  = {| query := dq ++ "age" ++ dq ++ " IS NULL"; Filtering.values := [] |}
  /\ filterToSQL (FEq "age" (VNum 5)) toSnakeCase
     = {| query := dq ++ "age" ++ dq ++ " = ?"; Filtering.values := [VNum 5] |}
  /\ filterToSQL (FNe "birthDate" VUndefined) toSnakeCase
     = {| query := dq ++ "birth_date" ++ dq ++ " IS NOT NULL"; Filtering.values := [] |}
  /\ filterToSQL (FNe "birthDate" (VStr "x")) toSnakeCase
     = {| query := dq ++ "birth_date" ++ dq ++ " != ?"; Filtering.values := [VStr "x"] |}.
Proof.
  split; [|split; [|split]].
  - apply (proj1 (C7_eq_ne_null "age" VNull toSnakeCase)). left. reflexivity.
  - apply (proj2 (C7_eq_ne_null "age" (VNum 5) toSnakeCase)); discriminate.
  - apply (proj1 (C7_eq_ne_null "birthDate" VUndefined toSnakeCase)).
    right. reflexivity.
  - apply (proj2 (C7_eq_ne_null "birthDate" (VStr "x") toSnakeCase)); discriminate.
Defined.

(* ===================================================================== *)
(** ** Placeholders: the renumbering pass *)
(* ===================================================================== *)

Lemma append_assoc (a b c : string) : (a ++ b) ++ c = a ++ (b ++ c).
Proof. induction a as [|x a IH]; simpl; [reflexivity | rewrite IH; reflexivity]. Qed.

Lemma append_nil_r (a : string) : a ++ "" = a.
Proof. induction a as [|x a IH]; simpl; [reflexivity | rewrite IH; reflexivity]. Qed.

Lemma length_append (a b : string) :
  String.length (a ++ b) = String.length a + String.length b.
Proof. induction a as [|x a IH]; simpl; [reflexivity | rewrite IH; reflexivity]. Qed.

Lemma no_question_count (s : string) : no_question s = true <-> count "?" s = 0.
Proof. unfold no_question. apply Nat.eqb_eq. Qed.

Lemma toPostgresTemplate_loop_unfold_if (i : nat) (queryTemplate : string) :
  toPostgresTemplate_loop i queryTemplate
  = if (0 <=? indexOf "?" queryTemplate)%Z
    then toPostgresTemplate_loop (S i) (replace_first "?" (marker i) queryTemplate)
    else queryTemplate.
Proof.
  rewrite toPostgresTemplate_loop_unfold_eq.
  unfold toPostgresTemplate_loop_unfold.
  destruct (inspect (0 <=? indexOf "?" queryTemplate)%Z) as [b e].
  destruct b; simpl; rewrite e; reflexivity.
Qed.

Lemma indexOf_test_count (s : string) :
  (0 <=? indexOf "?" s)%Z = negb (Nat.eqb (count "?" s) 0).
Proof. unfold indexOf. apply indexOf_from_count. lia. Qed.

Lemma replace_first_skip (c : ascii) (by_ p s : string) :
  count c p = 0 ->
  replace_first c by_ (p ++ s) = p ++ replace_first c by_ s.
Proof.
  induction p as [|d p IH]; simpl; intros H; [reflexivity|].
  destruct (Ascii.eqb d c); [discriminate H|].
  rewrite IH by exact H. reflexivity.
Qed.

(** Text without a question mark in front of a template is left alone. *)
Lemma toPostgresTemplate_loop_skip (n : nat) :
  forall i p s, count "?" s <= n -> count "?" p = 0 ->
  toPostgresTemplate_loop i (p ++ s) = p ++ toPostgresTemplate_loop i s.
Proof.
  induction n as [|n IH]; intros i p s Hn Hp;
    rewrite (toPostgresTemplate_loop_unfold_if i (p ++ s)),
            (toPostgresTemplate_loop_unfold_if i s),
            !indexOf_test_count, count_append, Hp; simpl.
  - assert (E : count "?" s = 0) by lia. rewrite E. reflexivity.
  - destruct (count "?" s) as [|m] eqn:E; [reflexivity|]. simpl.
    rewrite replace_first_skip by exact Hp.
    apply IH; [|exact Hp].
    pose proof (replace_first_count "?" (marker i) s (marker_no_question i)).
    lia.
Qed.

Lemma toPostgresTemplate_loop_text (i : nat) (p s : string) :
  count "?" p = 0 ->
  toPostgresTemplate_loop i (p ++ s) = p ++ toPostgresTemplate_loop i s.
Proof. intros Hp. apply (toPostgresTemplate_loop_skip (count "?" s)); auto. Qed.

(** A question mark in front of a template takes the counter's marker. *)
Lemma toPostgresTemplate_loop_slot (i : nat) (s : string) :
  toPostgresTemplate_loop i ("?" ++ s) = marker i ++ toPostgresTemplate_loop (S i) s.
Proof.
  rewrite toPostgresTemplate_loop_unfold_if.
  replace (0 <=? indexOf "?" ("?" ++ s))%Z with true by reflexivity.
  replace (replace_first "?" (marker i) ("?" ++ s)) with (marker i ++ s)
    by reflexivity.
  apply toPostgresTemplate_loop_text. apply marker_no_question.
Qed.

Lemma toPostgresTemplate_loop_pieces (ps : list piece) :
  clean ps = true ->
  forall i, toPostgresTemplate_loop i (render ps) = render_pg i ps.
Proof.
  induction ps as [|[s|v] ps IH]; simpl; intros H i.
  - rewrite toPostgresTemplate_loop_unfold_if. reflexivity.
  - apply andb_true_iff in H. destruct H as [Hs Hps].
    apply no_question_count in Hs.
    rewrite toPostgresTemplate_loop_text by exact Hs.
    rewrite IH by exact Hps. reflexivity.
  - change (String "?" (render ps)) with ("?" ++ render ps).
    rewrite toPostgresTemplate_loop_slot, IH by exact H. reflexivity.
Qed.

Lemma render_app (a b : list piece) : render (a ++ b) = render a ++ render b.
Proof.
  induction a as [|[s|v] a IH]; simpl; [reflexivity | |]; rewrite IH.
  - rewrite append_assoc. reflexivity.
  - reflexivity.
Qed.

Lemma slots_app (a b : list piece) : slots (a ++ b) = (slots a ++ slots b)%list.
Proof.
  induction a as [|[s|v] a IH]; simpl; [reflexivity | |]; rewrite IH; reflexivity.
Qed.

Lemma clean_app (a b : list piece) : clean (a ++ b) = clean a && clean b.
Proof. unfold clean. apply forallb_app. Qed.

Lemma clean_count (ps : list piece) :
  clean ps = true -> count "?" (render ps) = List.length (slots ps).
Proof.
  induction ps as [|[s|v] ps IH]; simpl; intros H.
  - reflexivity.
  - apply andb_true_iff in H. destruct H as [Hs Hps].
    apply no_question_count in Hs.
    rewrite count_append, Hs, IH by exact Hps. reflexivity.
  - rewrite IH by exact H. reflexivity.
Qed.

Lemma positions_append (c : ascii) (s t : string) :
  forall offset,
  positions c (s ++ t) offset
  = (positions c s offset ++ positions c t (offset + String.length s))%list.
Proof.
  induction s as [|d s IH]; simpl; intros offset.
  - rewrite Nat.add_0_r. reflexivity.
  - rewrite IH. replace (S offset + String.length s) with (offset + S (String.length s)) by lia.
    destruct (Ascii.eqb d c); reflexivity.
Qed.

Lemma positions_none (c : ascii) (s : string) :
  count c s = 0 -> forall offset, positions c s offset = [].
Proof.
  induction s as [|d s IH]; simpl; intros H offset; [reflexivity|].
  destruct (Ascii.eqb d c); [discriminate H|]. apply IH. exact H.
Qed.

(** In a template whose text holds no question mark, the question marks
    sit exactly where the placeholders were written, in the same order. *)
Lemma clean_positions (ps : list piece) :
  clean ps = true ->
  forall offset,
  combine (positions "?" (render ps) offset) (slots ps) = slot_offsets ps offset.
Proof.
  induction ps as [|[s|v] ps IH]; simpl; intros H offset.
  - reflexivity.
  - apply andb_true_iff in H. destruct H as [Hs Hps].
    apply no_question_count in Hs.
    rewrite positions_append, (positions_none _ _ Hs). simpl.
    apply IH. exact Hps.
  - rewrite IH by exact H. reflexivity.
Qed.

(* ===================================================================== *)
(** ** Placeholders: the filter compiler *)
(* ===================================================================== *)

Ltac strings_normal :=
  repeat (rewrite ?append_nil_r, ?append_assoc, ?app_nil_r; simpl).

Ltac pieces_normal :=
  repeat (rewrite ?render_app, ?slots_app; simpl).

Lemma combine_pieces_agree (sep : string) (idConverter : string -> string)
    (children : list GenericFilter) :
  Forall (fun c => pieces_agree (filterPieces c idConverter) (filterToSQL c idConverter))
         children ->
  forall first acc query0 values0,
    render acc = query0 -> slots acc = values0 ->
    pieces_agree
      (combine_pieces sep (map (fun c => filterPieces c idConverter) children) first acc)
      (combine_children sep (map (fun c => filterToSQL c idConverter) children)
         first query0 values0).
Proof.
  induction 1 as [|child rest [Hr Hs] _ IH]; intros first acc query0 values0 Hq Hv;
    simpl.
  - split; assumption.
  - rewrite Hr. destruct (nonempty (query (filterToSQL child idConverter))).
    + apply IH.
      * destruct first; pieces_normal; rewrite Hq, Hr; strings_normal; reflexivity.
      * destruct first; pieces_normal; rewrite Hv, Hs; strings_normal; reflexivity.
    + apply IH; assumption.
Qed.

Lemma in_pieces_agree (column : string) (vs : list value) :
  forall first acc subquery values0,
    render acc = subquery -> slots acc = values0 ->
    render (in_pieces column vs first acc) = fst (in_loop column vs first subquery values0)
    /\ slots (in_pieces column vs first acc)
       = snd (in_loop column vs first subquery values0).
Proof.
  induction vs as [|v vs IH]; intros first acc subquery values0 Hq Hv; simpl.
  - split; assumption.
  - apply IH.
    + destruct first; pieces_normal; rewrite Hq; strings_normal; reflexivity.
    + destruct first; pieces_normal; rewrite Hv; strings_normal; reflexivity.
Qed.

Lemma filterPieces_agree (idConverter : string -> string) (f : GenericFilter) :
  pieces_agree (filterPieces f idConverter) (filterToSQL f idConverter).
Proof.
  induction f using filter_induction; unfold pieces_agree in *.
  - split; reflexivity.
  - simpl. apply combine_pieces_agree; auto.
  - simpl. apply combine_pieces_agree; auto.
  - destruct IHf as [Hr Hs]. simpl. rewrite Hr.
    destruct (nonempty (query (filterToSQL f idConverter))); simpl.
    + pieces_normal. rewrite Hr, Hs. strings_normal. split; reflexivity.
    + split; reflexivity.
  - simpl. destruct (0 <=? indexOf "i" (flags regexp))%Z; simpl;
      strings_normal; split; reflexivity.
  - simpl.
    destruct (in_pieces_agree (idConverter key) vs true [] "" [] eq_refl eq_refl)
      as [Hr Hs].
    destruct (in_loop (idConverter key) vs true "" []) as [subquery values0].
    simpl in Hr, Hs. rewrite Hr.
    destruct (nonempty subquery) eqn:E; simpl.
    + pieces_normal. rewrite Hr, Hs. strings_normal. split; reflexivity.
    + split; [|exact Hs].
      rewrite Hr. destruct subquery; [reflexivity | discriminate E].
  - simpl. destruct e; simpl; strings_normal; split; reflexivity.
  - simpl. destruct (is_nullish v); simpl; strings_normal; split; reflexivity.
  - simpl. destruct (is_nullish v); simpl; strings_normal; split; reflexivity.
  - simpl. strings_normal. split; reflexivity.
  - simpl. strings_normal. split; reflexivity.
  - simpl. strings_normal. split; reflexivity.
  - simpl. strings_normal. split; reflexivity.
Qed.

Lemma no_question_quoted (column tail : string) :
  no_question column = true -> no_question tail = true ->
  no_question (dq ++ column ++ dq ++ tail) = true.
Proof.
  rewrite !no_question_count. intros Hc Ht.
  rewrite !count_append, Hc, Ht. reflexivity.
Qed.

Lemma comparison_clean (column op : string) (v : value) :
  no_question column = true -> no_question op = true ->
  clean (comparison column op v) = true.
Proof.
  intros Hc Hop. unfold comparison, clean. cbn [forallb text_clean].
  rewrite (no_question_quoted column op Hc Hop). reflexivity.
Qed.

Lemma in_pieces_clean (column : string) (vs : list value) :
  no_question column = true ->
  forall first acc, clean acc = true -> clean (in_pieces column vs first acc) = true.
Proof.
  intros Hc. induction vs as [|v vs IH]; intros first acc Hacc; simpl.
  - exact Hacc.
  - apply IH. rewrite !clean_app, Hacc. simpl.
    assert (E : no_question ("(" ++ dq ++ column ++ dq ++ " = ") = true).
    { apply no_question_count. apply no_question_count in Hc.
      rewrite !count_append, Hc. reflexivity. }
    simpl in E. unfold clean. destruct first; simpl; rewrite E; reflexivity.
Qed.

Lemma combine_pieces_clean (sep : string) (idConverter : string -> string)
    (children : list GenericFilter) :
  no_question sep = true ->
  Forall (fun c => columns_clean c idConverter = true ->
                   clean (filterPieces c idConverter) = true) children ->
  forallb no_question
    (List.concat (map (fun c => columns c idConverter) children)) = true ->
  forall first acc, clean acc = true ->
    clean (combine_pieces sep (map (fun c => filterPieces c idConverter) children)
             first acc) = true.
Proof.
  intros Hsep. induction 1 as [|child rest Hchild _ IH]; intros Hcols first acc Hacc;
    simpl.
  - exact Hacc.
  - simpl in Hcols. rewrite forallb_app in Hcols.
    apply andb_true_iff in Hcols. destruct Hcols as [Hc Hrest].
    specialize (Hchild Hc).
    destruct (nonempty (render (filterPieces child idConverter))).
    + apply IH; [exact Hrest|].
      rewrite !clean_app, Hacc. simpl. rewrite clean_app, Hchild.
      unfold clean. destruct first; simpl; rewrite ?Hsep; reflexivity.
    + apply IH; assumption.
Qed.

Lemma clean_cons_text (s : string) (ps : list piece) :
  clean (Text s :: ps) = no_question s && clean ps.
Proof. reflexivity. Qed.

Lemma filterPieces_clean (idConverter : string -> string) (f : GenericFilter) :
  columns_clean f idConverter = true -> clean (filterPieces f idConverter) = true.
Proof.
  unfold columns_clean.
  induction f using filter_induction; intros Hcols;
    cbn [columns forallb] in Hcols; cbn [filterPieces];
    try (rewrite andb_true_r in Hcols);
    try (apply comparison_clean; [exact Hcols | reflexivity]).
  - reflexivity.
  - apply combine_pieces_clean; auto.
  - apply combine_pieces_clean; auto.
  - specialize (IHf Hcols).
    destruct (nonempty (render (filterPieces f idConverter))); [|reflexivity].
    cbn [app]. rewrite clean_cons_text, clean_app, IHf. reflexivity.
  - destruct (0 <=? indexOf "i" (flags regexp))%Z.
    + rewrite clean_cons_text.
      assert (E : no_question ("UPPER(" ++ dq ++ idConverter key ++ dq ++ ") LIKE UPPER(")
                  = true).
      { apply no_question_count. apply no_question_count in Hcols.
        rewrite !count_append, Hcols. reflexivity. }
      rewrite E. reflexivity.
    + apply comparison_clean; [exact Hcols | reflexivity].
  - pose proof (in_pieces_clean (idConverter key) vs Hcols true [] eq_refl) as Hbody.
    destruct (nonempty (render (in_pieces (idConverter key) vs true []))).
    + cbn [app]. rewrite clean_cons_text, clean_app, Hbody. reflexivity.
    + exact Hbody.
  - destruct e; rewrite clean_cons_text;
      (rewrite no_question_quoted; [reflexivity | exact Hcols | reflexivity]).
  - destruct (is_nullish v).
    + rewrite clean_cons_text.
      rewrite no_question_quoted; [reflexivity | exact Hcols | reflexivity].
    + apply comparison_clean; [exact Hcols | reflexivity].
  - destruct (is_nullish v).
    + rewrite clean_cons_text.
      rewrite no_question_quoted; [reflexivity | exact Hcols | reflexivity].
    + apply comparison_clean; [exact Hcols | reflexivity].
Qed.

(** C1, as amended.  When no field name of the filter, as the identifier
    converter gives it, holds a question mark: the fragment holds as many
    question marks as there are values; and the question marks are, in
    order, the placeholders the compiler wrote, each bound to the value at
    the same rank of the values list. *)
Theorem C1_placeholders_match_values (f : GenericFilter)
    (idConverter : string -> string) :
  columns_clean f idConverter = true ->
  let compiled := filterToSQL f idConverter in
  let written := filterPieces f idConverter in
  count "?" (query compiled) = List.length (Filtering.values compiled)
  /\ render written = query compiled
  /\ slots written = Filtering.values compiled
  /\ combine (positions "?" (query compiled) 0) (Filtering.values compiled)
     = slot_offsets written 0.
Proof.
  intros Hcols compiled written.
  destruct (filterPieces_agree idConverter f) as [Hr Hs].
  pose proof (filterPieces_clean idConverter f Hcols) as Hclean.
  fold compiled written in Hr, Hs, Hclean.
  repeat split.
  - rewrite <- Hr, <- Hs. apply clean_count. exact Hclean.
  - exact Hr.
  - exact Hs.
  - rewrite <- Hr, <- Hs. apply clean_positions. exact Hclean.
Qed.

Lemma C1_placeholders_match_values_witness :
  count "?" (query (filterToSQL
                      (FAnd [FEq "userName" (VStr "ann"); FIn "id" [VNum 1; VNum 2]])
                      toSnakeCase))
  = 3
  /\ combine
       (positions "?" (query (filterToSQL
                                (FAnd [FEq "userName" (VStr "ann");
                                       FIn "id" [VNum 1; VNum 2]])
                                toSnakeCase)) 0)
       [VStr "ann"; VNum 1; VNum 2]
     = [(16, VStr "ann"); (35, VNum 1); (49, VNum 2)].
Proof.
  pose proof (C1_placeholders_match_values
                (FAnd [FEq "userName" (VStr "ann"); FIn "id" [VNum 1; VNum 2]])
                toSnakeCase eq_refl) as (Hcount & _ & _ & Hpos).
  split.
  - rewrite Hcount. reflexivity.
  - exact Hpos.
Defined.

(** C1, as stated, fails: a field name with a question mark puts in the
    fragment a question mark that no value stands for. *)
Lemma C1_question_mark_in_field_counterexample :
  query (filterToSQL (FEq "a?" (VNum 5)) toSnakeCase) = dq ++ "a?" ++ dq ++ " = ?"
  /\ Filtering.values (filterToSQL (FEq "a?" (VNum 5)) toSnakeCase) = [VNum 5]
  /\ count "?" (query (filterToSQL (FEq "a?" (VNum 5)) toSnakeCase))
     <> List.length (Filtering.values (filterToSQL (FEq "a?" (VNum 5)) toSnakeCase)).
Proof.
  split; [reflexivity|]. split; [reflexivity|]. discriminate.
Qed.

(* ===================================================================== *)
(** ** Placeholders: the statements of the builders *)
(* ===================================================================== *)

Lemma insert_issues_first (JSON_stringify : value -> value) (conv : NameConversion)
    (pool_query : string -> list value -> reply)
    (inherited : GenericRow -> string -> value)
    (table : string) (row : GenericRow) (key : option string) (callback : bool) :
  exists rest,
    events (insert JSON_stringify conv pool_query inherited table row key callback)
    = Query (toPostgresTemplate
               (insert_sentence JSON_stringify conv inherited table row key))
            (insert_values JSON_stringify conv row key) :: rest.
Proof.
  unfold insert.
  destruct (pool_query _ _) as [error|results]; [eexists; reflexivity|].
  destruct (insertReturns inherited row key); [|eexists; reflexivity].
  destruct (rows results) as [[|r rs]|]; try (eexists; reflexivity).
  destruct callback; eexists; reflexivity.
Qed.

Lemma where_pieces_agree (conv : NameConversion) (filter : GenericFilter) :
  render (where_pieces conv filter) = sql (where_clause conv filter)
  /\ slots (where_pieces conv filter) = values (where_clause conv filter).
Proof.
  unfold where_pieces, where_clause.
  destruct (filterPieces_agree (toSQL conv) filter) as [Hr Hs].
  rewrite Hr. destruct (nonempty (query (filterToSQL filter (toSQL conv)))); simpl.
  - rewrite Hr, Hs. split; reflexivity.
  - split; reflexivity.
Qed.

Lemma where_pieces_clean (conv : NameConversion) (filter : GenericFilter) :
  columns_clean filter (toSQL conv) = true -> clean (where_pieces conv filter) = true.
Proof.
  intros H. unfold where_pieces.
  pose proof (filterPieces_clean (toSQL conv) filter H) as Hc.
  destruct (nonempty _); [|reflexivity].
  rewrite clean_cons_text, Hc. reflexivity.
Qed.

Lemma updateMany_entry_agree (JSON_stringify : value -> value) (conv : NameConversion)
    (key : string) (v : value) :
  render (updateMany_entry_pieces JSON_stringify conv key v)
  = fst (updateMany_entry JSON_stringify conv key v)
  /\ slots (updateMany_entry_pieces JSON_stringify conv key v)
     = [snd (updateMany_entry JSON_stringify conv key v)].
Proof.
  unfold updateMany_entry_pieces, updateMany_entry.
  destruct v; simpl; strings_normal; try (split; reflexivity).
  destruct (get props "update"); simpl; strings_normal; try (split; reflexivity).
  destruct (String.eqb s "set"); simpl; strings_normal; [split; reflexivity|].
  destruct (String.eqb s "inc"); simpl; strings_normal; split; reflexivity.
Qed.

Lemma updateMany_entry_clean (JSON_stringify : value -> value) (conv : NameConversion)
    (key : string) (v : value) :
  no_question (toSQL conv key) = true ->
  clean (updateMany_entry_pieces JSON_stringify conv key v) = true.
Proof.
  intros H.
  assert (E1 : no_question (dq ++ toSQL conv key ++ dq ++ " = ") = true)
    by (apply no_question_quoted; [exact H | reflexivity]).
  assert (E2 : no_question ((dq ++ toSQL conv key ++ dq) ++ " = "
                              ++ (dq ++ toSQL conv key ++ dq) ++ " + ") = true).
  { apply no_question_count. apply no_question_count in H.
    rewrite !count_append, H. reflexivity. }
  assert (E1' : no_question ((dq ++ toSQL conv key ++ dq) ++ " = ") = true)
    by (rewrite !append_assoc; exact E1).
  unfold updateMany_entry_pieces.
  destruct v; try (rewrite clean_cons_text, E1'; reflexivity).
  destruct (get props "update"); try (rewrite clean_cons_text, E1'; reflexivity).
  destruct (String.eqb s "set"); [rewrite clean_cons_text, E1'; reflexivity|].
  destruct (String.eqb s "inc"); [rewrite clean_cons_text, E2; reflexivity|].
  rewrite clean_cons_text, E1'. reflexivity.
Qed.

Lemma updateMany_set_agree (JSON_stringify : value -> value) (conv : NameConversion)
    (updated : GenericRow) (keys : list string) :
  forall first acc sentence values0,
    render acc = sentence -> slots acc = values0 ->
    render (updateMany_set_pieces JSON_stringify conv updated keys first acc)
    = fst (updateMany_loop JSON_stringify conv updated keys first sentence values0)
    /\ slots (updateMany_set_pieces JSON_stringify conv updated keys first acc)
       = snd (updateMany_loop JSON_stringify conv updated keys first sentence values0).
Proof.
  induction keys as [|key keys IH]; intros first acc sentence values0 Hr Hs; simpl.
  - split; assumption.
  - destruct (updateMany_entry_agree JSON_stringify conv key (get updated key))
      as [Er Es].
    destruct (updateMany_entry JSON_stringify conv key (get updated key)) as [text v].
    simpl in Er, Es. apply IH.
    + rewrite !render_app, Hr, Er. destruct first; strings_normal; reflexivity.
    + rewrite !slots_app, Hs, Es. destruct first; reflexivity.
Qed.

Lemma updateMany_set_clean (JSON_stringify : value -> value) (conv : NameConversion)
    (updated : GenericRow) (keys : list string) :
  forallb (fun key => no_question (toSQL conv key)) keys = true ->
  forall first acc, clean acc = true ->
    clean (updateMany_set_pieces JSON_stringify conv updated keys first acc) = true.
Proof.
  induction keys as [|key keys IH]; simpl; intros Hkeys first acc Hacc.
  - exact Hacc.
  - apply andb_true_iff in Hkeys. destruct Hkeys as [Hkey Hkeys].
    apply IH; [exact Hkeys|].
    rewrite !clean_app, Hacc,
      (updateMany_entry_clean JSON_stringify conv key (get updated key) Hkey).
    destruct first; reflexivity.
Qed.

(** X20.  The statement of [updateMany], where the placeholders of the SET
    clause and those of the filter meet: when the table, the columns of the
    descriptor and the fields of the filter hold no question mark, the
    statement handed to the pool has the markers [$1], [$2], ... in the
    places of the placeholders, from left to right through both clauses,
    and the k-th value handed with it is the value of the k-th
    placeholder. *)
Lemma updateMany_markers_follow_values (JSON_stringify : value -> value)
    (conv : NameConversion) (pool_query : string -> list value -> reply)
    (table : string) (filter : GenericFilter) (updated : GenericRow) :
  updated <> [] ->
  no_question table = true ->
  forallb (fun key => no_question (toSQL conv key)) (Object_keys updated) = true ->
  columns_clean filter (toSQL conv) = true ->
  let ps := updateMany_pieces JSON_stringify conv table filter updated in
  events (updateMany JSON_stringify conv pool_query table filter updated)
  = [Query (render_pg 1 ps) (slots ps)].
Proof.
  intros Hne Htable Hkeys Hfilter ps.
  assert (Hhead : clean [Text ("UPDATE " ++ dq ++ table ++ dq ++ " SET ")] = true).
  { rewrite clean_cons_text. apply no_question_count in Htable.
    replace (no_question ("UPDATE " ++ dq ++ table ++ dq ++ " SET ")) with true;
      [reflexivity|].
    symmetry. apply no_question_count. rewrite !count_append, Htable. reflexivity. }
  destruct (updateMany_set_agree JSON_stringify conv updated (Object_keys updated)
              true [Text ("UPDATE " ++ dq ++ table ++ dq ++ " SET ")]
              ("UPDATE " ++ dq ++ table ++ dq ++ " SET ") [])
    as [Hr Hs]; [apply append_nil_r | reflexivity |].
  destruct (where_pieces_agree conv filter) as [Wr Ws].
  assert (Hrender : render ps
                    = updateMany_sentence JSON_stringify conv table filter updated).
  { subst ps. unfold updateMany_pieces, updateMany_sentence, updateMany_set.
    rewrite render_app, Hr, Wr. reflexivity. }
  assert (Hslots : slots ps
                   = updateMany_values JSON_stringify conv table filter updated).
  { subst ps. unfold updateMany_pieces, updateMany_values, updateMany_set.
    rewrite slots_app, Hs, Ws. reflexivity. }
  assert (Hclean : clean ps = true).
  { subst ps. unfold updateMany_pieces. rewrite clean_app.
    rewrite (updateMany_set_clean JSON_stringify conv updated _ Hkeys true _ Hhead).
    rewrite (where_pieces_clean conv filter Hfilter). reflexivity. }
  unfold updateMany. destruct updated as [|kv updated']; [contradiction|].
  cbn [Object_keys map List.length Nat.eqb events].
  rewrite <- Hrender, <- Hslots.
  unfold toPostgresTemplate. rewrite (toPostgresTemplate_loop_pieces ps Hclean 1).
  reflexivity.
Qed.

(** X19.  When the table and the fields of the filter hold no question
    mark, the statement of [deleteMany] has the markers [$1], [$2], ... in
    the places of the placeholders of the filter, from left to right, and
    the k-th value handed with it is the value of the k-th placeholder. *)
Lemma deleteMany_markers_follow_values (conv : NameConversion)
    (table : string) (filter : GenericFilter) :
  no_question table = true ->
  columns_clean filter (toSQL conv) = true ->
  let ps := deleteMany_pieces conv table filter in
  deleteMany_statement conv table filter
  = {| sql := render_pg 1 ps; values := slots ps |}.
Proof.
  intros Htable Hfilter ps.
  destruct (where_pieces_agree conv filter) as [Wr Ws].
  assert (Hclean : clean ps = true).
  { subst ps. unfold deleteMany_pieces.
    rewrite clean_cons_text, (where_pieces_clean conv filter Hfilter).
    apply no_question_count in Htable.
    replace (no_question ("DELETE FROM " ++ dq ++ table ++ dq)) with true;
      [reflexivity|].
    symmetry. apply no_question_count. rewrite !count_append, Htable. reflexivity. }
  unfold deleteMany_statement, deleteMany_sentence.
  rewrite <- (toPostgresTemplate_loop_pieces ps Hclean 1).
  subst ps. unfold deleteMany_pieces. cbn [render slots].
  rewrite Wr, Ws. unfold toPostgresTemplate.
  strings_normal. reflexivity.
Qed.

Lemma toPostgresTemplate_one (a : string) :
  count "?" a = 0 -> toPostgresTemplate (a ++ "?") = a ++ "$1".
Proof.
  intros Ha. unfold toPostgresTemplate.
  rewrite toPostgresTemplate_loop_text by exact Ha.
  replace (toPostgresTemplate_loop 1 "?") with "$1" by reflexivity.
  reflexivity.
Qed.

Lemma toPostgresTemplate_two (a b : string) :
  count "?" a = 0 -> count "?" b = 0 ->
  toPostgresTemplate (a ++ "?" ++ b ++ "?") = a ++ "$1" ++ b ++ "$2".
Proof.
  intros Ha Hb. unfold toPostgresTemplate.
  rewrite toPostgresTemplate_loop_text by exact Ha.
  rewrite (toPostgresTemplate_loop_slot 1 (b ++ "?")).
  rewrite toPostgresTemplate_loop_text by exact Hb.
  replace (toPostgresTemplate_loop 2 "?") with "$2" by reflexivity.
  reflexivity.
Qed.

(** The sentences numbered by hand are what the pass would give. *)
Lemma hand_numbered_sentences (conv : NameConversion) (table keyName prop : string) :
  no_question table = true ->
  no_question (toSQL conv keyName) = true ->
  no_question (toSQL conv prop) = true ->
  findByKey_sentence conv table keyName
  = toPostgresTemplate
      ("SELECT * FROM " ++ dq ++ table ++ dq ++ " WHERE " ++ dq
         ++ toSQL conv keyName ++ dq ++ " = ?")
  /\ delete_sentence conv table keyName
     = toPostgresTemplate
         ("DELETE FROM " ++ dq ++ table ++ dq ++ " WHERE " ++ dq
            ++ toSQL conv keyName ++ dq ++ " = ?")
  /\ increment_sentence conv table keyName prop
     = toPostgresTemplate
         ("UPDATE " ++ dq ++ table ++ dq ++ " SET " ++ dq ++ toSQL conv prop ++ dq
            ++ " = " ++ dq ++ toSQL conv prop ++ dq ++ " + ? WHERE " ++ dq
            ++ toSQL conv keyName ++ dq ++ " = ?").
Proof.
  intros Ht Hk Hp.
  apply no_question_count in Ht, Hk, Hp.
  split; [|split].
  - transitivity (("SELECT * FROM " ++ dq ++ table ++ dq ++ " WHERE " ++ dq
                     ++ toSQL conv keyName ++ dq ++ " = ") ++ "$1").
    + unfold findByKey_sentence. strings_normal. reflexivity.
    + rewrite <- toPostgresTemplate_one.
      * f_equal. strings_normal. reflexivity.
      * rewrite !count_append, Ht, Hk. reflexivity.
  - transitivity (("DELETE FROM " ++ dq ++ table ++ dq ++ " WHERE " ++ dq
                     ++ toSQL conv keyName ++ dq ++ " = ") ++ "$1").
    + unfold delete_sentence. strings_normal. reflexivity.
    + rewrite <- toPostgresTemplate_one.
      * f_equal. strings_normal. reflexivity.
      * rewrite !count_append, Ht, Hk. reflexivity.
  - transitivity (("UPDATE " ++ dq ++ table ++ dq ++ " SET " ++ dq
                     ++ toSQL conv prop ++ dq ++ " = " ++ dq
                     ++ toSQL conv prop ++ dq ++ " + ")
                    ++ "$1"
                    ++ (" WHERE " ++ dq ++ toSQL conv keyName ++ dq ++ " = ")
                    ++ "$2").
    + unfold increment_sentence. strings_normal. reflexivity.
    + rewrite <- toPostgresTemplate_two.
      * f_equal. strings_normal. reflexivity.
      * rewrite !count_append, Ht, Hp. reflexivity.
      * rewrite !count_append, Hk. reflexivity.
Qed.

(** C5.  In a template whose question marks are all placeholders,
    [toPostgresTemplate] writes, in one pass over the whole statement, the
    marker [$k] in place of the k-th question mark from the left, counting
    from 1, and leaves the text between them as it is.  The statement that
    each builder of a [?]-template hands to the pool (select, count, sum,
    deleteMany, insert, update, updateMany) is the result of that pass on
    the whole sentence the builder has assembled; and the sentences that
    findByKey, delete and increment number by hand are what the pass gives
    on their [?]-templates. *)
Theorem C5_positional_markers (ps : list piece) :
  clean ps = true ->
  toPostgresTemplate (render ps) = render_pg 1 ps
  /\ (forall JSON_stringify conv pool_query inherited table filter sortBy sortDir
             skip limit projection field row key callback keyName keyValue updated,
        sql (generateSelectSentence conv table filter sortBy sortDir skip limit projection)
        = toPostgresTemplate
            (select_sentence conv table filter sortBy sortDir skip limit projection)
        /\ sql (count_statement conv table filter)
           = toPostgresTemplate (count_sentence conv table filter)
        /\ sql (sum_statement conv table filter field)
           = toPostgresTemplate (sum_sentence conv table filter field)
        /\ sql (deleteMany_statement conv table filter)
           = toPostgresTemplate (deleteMany_sentence conv table filter)
        /\ (exists rest,
              events (insert JSON_stringify conv pool_query inherited table row key
                        callback)
              = Query (toPostgresTemplate
                         (insert_sentence JSON_stringify conv inherited table row key))
                      (insert_values JSON_stringify conv row key) :: rest)
        /\ (updated <> [] ->
              events (update JSON_stringify conv pool_query table keyName keyValue updated)
              = [Query (toPostgresTemplate
                          (update_sentence JSON_stringify conv table keyName updated))
                       (update_values JSON_stringify conv table keyValue updated)]
              /\ events (updateMany JSON_stringify conv pool_query table filter updated)
                 = [Query (toPostgresTemplate
                             (updateMany_sentence JSON_stringify conv table filter updated))
                          (updateMany_values JSON_stringify conv table filter updated)]))
  /\ (forall conv table keyName prop,
        no_question table = true ->
        no_question (toSQL conv keyName) = true ->
        no_question (toSQL conv prop) = true ->
        findByKey_sentence conv table keyName
        = toPostgresTemplate
            ("SELECT * FROM " ++ dq ++ table ++ dq ++ " WHERE " ++ dq
               ++ toSQL conv keyName ++ dq ++ " = ?")
        /\ delete_sentence conv table keyName
           = toPostgresTemplate
               ("DELETE FROM " ++ dq ++ table ++ dq ++ " WHERE " ++ dq
                  ++ toSQL conv keyName ++ dq ++ " = ?")
        /\ increment_sentence conv table keyName prop
           = toPostgresTemplate
               ("UPDATE " ++ dq ++ table ++ dq ++ " SET " ++ dq ++ toSQL conv prop ++ dq
                  ++ " = " ++ dq ++ toSQL conv prop ++ dq ++ " + ? WHERE " ++ dq
                  ++ toSQL conv keyName ++ dq ++ " = ?")).
Proof.
  intros H. split; [|split].
  - apply toPostgresTemplate_loop_pieces. exact H.
  - intros JSON_stringify conv pool_query inherited table filter sortBy sortDir
           skip limit projection field row key callback keyName keyValue updated.
    split; [reflexivity|]. split; [reflexivity|]. split; [reflexivity|].
    split; [reflexivity|]. split; [apply insert_issues_first|].
    intros Hkeys. destruct updated as [|kv updated']; [contradiction|].
    split; reflexivity.
  - apply hand_numbered_sentences.
Qed.

Lemma C5_positional_markers_witness :
  toPostgresTemplate
    (render [Text "UPDATE t SET a = "; Slot (VNum 1); Text ", b = b + "; Slot (VNum 2);
             Text " WHERE ( c = "; Slot VNull; Text " )"])
  = "UPDATE t SET a = $1, b = b + $2 WHERE ( c = $3 )".
Proof.
  exact (proj1 (C5_positional_markers
                  [Text "UPDATE t SET a = "; Slot (VNum 1); Text ", b = b + ";
                   Slot (VNum 2); Text " WHERE ( c = "; Slot VNull; Text " )"]
                  eq_refl)).
Defined.

(* ===================================================================== *)
(** ** The driver: rows read by key *)
(* ===================================================================== *)

Lemma has_cons (k' : string) (v' : value) (o : GenericRow) (k : string) :
  has ((k', v') :: o) k = String.eqb k' k || has o k.
Proof. unfold has. simpl. rewrite (String.eqb_sym k k'). reflexivity. Qed.

Lemma has_In (o : GenericRow) (k : string) :
  has o k = true <-> In k (Object_keys o).
Proof.
  unfold has. rewrite existsb_exists. split.
  - intros (x & Hin & E). apply String.eqb_eq in E. subst x. exact Hin.
  - intros H. exists k. split; [exact H | apply String.eqb_refl].
Qed.



Lemma get_assign (o : GenericRow) (k : string) (v : value) (name : string) :
  has o k = true ->
  get (assign o k v) name = if String.eqb k name then v else get o name.
Proof.
  induction o as [|[k' v'] o IH]; [discriminate|].
  rewrite has_cons. simpl. destruct (String.eqb k' k) eqn:E; simpl.
  - intros _. apply String.eqb_eq in E. subst k'.
    destruct (String.eqb k name); reflexivity.
  - intros H. rewrite (IH H).
    destruct (String.eqb k' name) eqn:E'; [|reflexivity].
    apply String.eqb_eq in E'. subst k'.
    rewrite String.eqb_sym in E. rewrite E. reflexivity.
Qed.


Lemma get_add_index (o : GenericRow) (i : N) (k : string) (v : value) (name : string) :
  has o k = false ->
  get (add_index o i k v) name = if String.eqb k name then v else get o name.
Proof.
  induction o as [|[k' v'] o IH]; [reflexivity|].
  rewrite has_cons. intros H. apply orb_false_iff in H. destruct H as [E H].
  simpl. destruct (array_index k') as [j|]; [destruct (N.ltb j i)|];
    try reflexivity.
  simpl. rewrite (IH H).
  destruct (String.eqb k' name) eqn:E'; [|reflexivity].
  apply String.eqb_eq in E'. subst k'.
  rewrite String.eqb_sym in E. rewrite E. reflexivity.
Qed.


Lemma get_last (o : GenericRow) (k : string) (v : value) (name : string) :
  has o k = false ->
  get (o ++ [(k, v)])%list name = if String.eqb k name then v else get o name.
Proof.
  induction o as [|[k' v'] o IH]; [reflexivity|].
  rewrite has_cons. intros H. apply orb_false_iff in H. destruct H as [E H].
  simpl. rewrite (IH H).
  destruct (String.eqb k' name) eqn:E'; [|reflexivity].
  apply String.eqb_eq in E'. subst k'.
  rewrite String.eqb_sym in E. rewrite E. reflexivity.
Qed.


Lemma get_set (o : GenericRow) (k : string) (v : value) (name : string) :
  get (set o k v) name = if String.eqb k name then v else get o name.
Proof.
  unfold set. destruct (has o k) eqn:H.
  - apply get_assign. exact H.
  - destruct (array_index k) as [i|]; [apply get_add_index | apply get_last];
      exact H.
Qed.




Lemma normalizeRow_loop_get (props r : GenericRow) (name : string) :
  get (normalizeRow_loop r props) name = last_under name props (get r name).
Proof.
  revert r. induction props as [|[k v] props IH]; intros r; simpl; [reflexivity|].
  rewrite IH, get_set. reflexivity.
Qed.

Lemma last_under_absent (name : string) (props : GenericRow) (fallback : value) :
  ~ In name (map toCamelCase (Object_keys props)) ->
  last_under name props fallback = fallback.
Proof.
  revert fallback. induction props as [|[k v] props IH]; intros fallback H; simpl;
    [reflexivity|].
  simpl in H. destruct (String.eqb (toCamelCase k) name) eqn:E.
  - apply String.eqb_eq in E. exfalso. apply H. left. exact E.
  - apply IH. intros Hin. apply H. right. exact Hin.
Qed.

Lemma last_under_distinct (key : string) (v : value) (props : GenericRow) :
  NoDup (map toCamelCase (Object_keys props)) ->
  In (key, v) props ->
  forall fallback, last_under (toCamelCase key) props fallback = v.
Proof.
  induction props as [|[k0 v0] props IH]; intros Hnd Hin fallback; [destruct Hin|].
  simpl in Hnd. inversion Hnd as [|? ? Hnotin Hnd']; subst.
  simpl. destruct Hin as [E | Hin].
  - injection E as -> ->. rewrite String.eqb_refl.
    apply last_under_absent. exact Hnotin.
  - apply IH; assumption.
Qed.



(* ===================================================================== *)
(** ** The driver: updates with nothing to update *)
(* ===================================================================== *)

(** C9.  With an update descriptor that has no key, [update] and
    [updateMany] make no call at all (no statement goes to the pool), and
    what they hand back is awaited without error: it is the plain value
    [undefined], which [await] takes for a promise fulfilled with it. *)
Theorem C9_empty_update_is_noop (JSON_stringify : value -> value)
    (conv : NameConversion) (pool_query : string -> list value -> reply)
    (table keyName : string) (keyValue : value) (filter : GenericFilter)
    (updated : GenericRow) :
  Object_keys updated = [] ->
  let one := update JSON_stringify conv pool_query table keyName keyValue updated in
  let many := updateMany JSON_stringify conv pool_query table filter updated in
  events one = [] /\ outcome one = Plain VUndefined
  /\ await (outcome one) = Fulfilled VUndefined
  /\ events many = [] /\ outcome many = Plain VUndefined
  /\ await (outcome many) = Fulfilled VUndefined.
Proof.
  intros Hkeys one many. subst one many.
  unfold update, updateMany. rewrite Hkeys. simpl.
  repeat split.
Qed.

Lemma C9_empty_update_is_noop_witness :
  events (update (fun v => v) default_idConversion (fun _ _ => Failure (VStr "down"))
            "person" "id" (VNum 1) [])
  = []
  /\ await (outcome (updateMany (fun v => v) default_idConversion
                       (fun _ _ => Failure (VStr "down"))
                       "person" (FEq "age" (VNum 3)) []))
     = Fulfilled VUndefined.
Proof.
  pose proof (C9_empty_update_is_noop (fun v => v) default_idConversion
                (fun _ _ => Failure (VStr "down")) "person" "id" (VNum 1)
                (FEq "age" (VNum 3)) [] eq_refl)
    as (Hone & _ & _ & _ & _ & Hmany).
  split; [exact Hone | exact Hmany].
Defined.

(* ===================================================================== *)
(** ** The driver: streaming reads *)
(* ===================================================================== *)

Lemma occurrences_app (p : event -> bool) (a b : list event) :
  occurrences p (a ++ b) = occurrences p a + occurrences p b.
Proof. unfold occurrences. rewrite filter_app, length_app. reflexivity. Qed.

Lemma each_rows_quiet (conv : NameConversion) (each : value -> handler_result)
    (partialResults : list GenericRow) :
  quiet (fst (each_rows conv each partialResults)).
Proof.
  induction partialResults as [|row rest IH]; simpl.
  - split; reflexivity.
  - destruct (each _); [|split; reflexivity].
    destruct (each_rows conv each rest) as [evs ok]. exact IH.
Qed.

Lemma read_loop_quiet (conv : NameConversion) (each : value -> handler_result)
    (cursor : list read_reply) :
  quiet (fst (read_loop conv each cursor)).
Proof.
  induction cursor as [|answer later IH]; simpl.
  - split; reflexivity.
  - destruct (0 <? List.length _)%nat; [|split; reflexivity].
    pose proof (each_rows_quiet conv each
                  match answer with ReadError _ => [] | ReadRows rows => rows end) as Hb.
    destruct (each_rows conv each _) as [evs ok].
    destruct ok; [|exact Hb].
    destruct (read_loop conv each later) as [evs' ok'].
    simpl in *. destruct Hb as [Hc Hr], IH as [Hc' Hr'].
    split; change (Read CURSOR_READ_AMOUNT :: evs ++ evs')%list
             with ([Read CURSOR_READ_AMOUNT] ++ evs ++ evs')%list;
      rewrite !occurrences_app; [rewrite Hc, Hc' | rewrite Hr, Hr']; reflexivity.
Qed.

Lemma each_rows_completes (conv : NameConversion) (each : value -> handler_result)
    (partialResults : list GenericRow) :
  (forall row, each row = Completes) ->
  snd (each_rows conv each partialResults) = true.
Proof.
  intros Hall. induction partialResults as [|row rest IH]; simpl; [reflexivity|].
  rewrite Hall. destruct (each_rows conv each rest) as [evs ok]. exact IH.
Qed.

Lemma read_loop_completes (conv : NameConversion) (each : value -> handler_result)
    (cursor : list read_reply) :
  (forall row, each row = Completes) ->
  snd (read_loop conv each cursor) = true.
Proof.
  intros Hall. induction cursor as [|answer later IH]; simpl; [reflexivity|].
  destruct (0 <? List.length _)%nat; [|reflexivity].
  pose proof (each_rows_completes conv each
                match answer with ReadError _ => [] | ReadRows rows => rows end Hall)
    as Hb.
  destruct (each_rows conv each _) as [evs ok]. simpl in Hb. subst ok.
  destruct (read_loop conv each later) as [evs' ok']. exact IH.
Qed.

(** X27.  When no handler raises, whatever the reads answer (rows, no
    row, or an error), the stream ends with the cursor closed and then the
    connection released, each exactly once, and the promise fulfilled. *)
Lemma stream_releases_when_handlers_complete (conv : NameConversion)
    (cursor_reads : string -> list value -> list read_reply)
    (sentenceAndValues : statement) (each : value -> handler_result) :
  (forall row, each row = Completes) ->
  let r := stream conv Connected cursor_reads sentenceAndValues each in
  (exists before, events r = (before ++ [CloseCursor; Release])%list /\ quiet before)
  /\ occurrences is_close (events r) = 1
  /\ occurrences is_release (events r) = 1
  /\ outcome r = Promise (Fulfilled VUndefined).
Proof.
  intros Hall r. subst r. unfold stream.
  pose proof (read_loop_completes conv each
                (cursor_reads (sql sentenceAndValues) (values sentenceAndValues)) Hall)
    as Hok.
  pose proof (read_loop_quiet conv each
                (cursor_reads (sql sentenceAndValues) (values sentenceAndValues)))
    as [Hc Hr].
  destruct (read_loop conv each _) as [evs ok]. simpl in *. subst ok.
  cbn [events outcome].
  assert (Hq : quiet (Connect :: OpenCursor (sql sentenceAndValues)
                                   (values sentenceAndValues) :: evs)).
  { split; [exact Hc | exact Hr]. }
  change (Connect :: OpenCursor (sql sentenceAndValues) (values sentenceAndValues)
            :: evs ++ [CloseCursor; Release])%list
    with ((Connect :: OpenCursor (sql sentenceAndValues) (values sentenceAndValues)
             :: evs) ++ [CloseCursor; Release])%list.
  split; [eexists; split; [reflexivity | exact Hq]|].
  rewrite !occurrences_app. destruct Hq as [Hc' Hr']. rewrite Hc', Hr'.
  repeat split.
Qed.

(** When a handler raises on a row that the stream delivers, the stream
    stops there: no close, no release, and a promise that never settles. *)
Lemma stream_leaks_when_a_handler_raises (conv : NameConversion)
    (cursor_reads : string -> list value -> list read_reply)
    (sentenceAndValues : statement) (each : value -> handler_result) :
  snd (read_loop conv each
         (cursor_reads (sql sentenceAndValues) (values sentenceAndValues))) = false ->
  let r := stream conv Connected cursor_reads sentenceAndValues each in
  quiet (events r) /\ outcome r = Promise Pending.
Proof.
  intros Hraised r. subst r. unfold stream.
  pose proof (read_loop_quiet conv each
                (cursor_reads (sql sentenceAndValues) (values sentenceAndValues)))
    as [Hc Hr].
  destruct (read_loop conv each _) as [evs ok]. simpl in *. subst ok.
  split; [split; [exact Hc | exact Hr] | reflexivity].
Qed.

(** C2, on a handler that raises on the only row of the result: the
    cursor is never closed, the connection never released, and the promise
    never settles, for [findStream] and for [findStreamSync] alike. *)
Theorem C2_handler_error_leaks_cursor :
  let reads := fun (_ : string) (_ : list value) => [ReadRows [[("id", VNum 1)]]] in
  let each := fun _ : value => Raises (VStr "handler failed") in
  let suspending :=
    findStream default_idConversion Connected reads
      "person" FNull None None None None None each in
  let synchronous :=
    findStreamSync default_idConversion Connected reads
      "person" FNull None None None None None each in
  events suspending
  = [Connect; OpenCursor ("SELECT * FROM " ++ dq ++ "person" ++ dq) [];
     Read 100; Each (VObject [("id", VNum 1)])]
  /\ occurrences is_close (events suspending) = 0
  /\ occurrences is_release (events suspending) = 0
  /\ outcome suspending = Promise Pending
  /\ events synchronous = events suspending
  /\ outcome synchronous = Promise Pending.
Proof.
  repeat split.
Qed.

(* ===================================================================== *)
(** ** The driver: insert *)
(* ===================================================================== *)

Lemma insert_loop_kept (JSON_stringify : value -> value) (conv : NameConversion)
    (row : GenericRow) (key : option string) (keys : list string) :
  forall sqlKeys values0 qm,
    insert_loop JSON_stringify conv row key keys sqlKeys values0 qm
    = let fields :=
        filter (fun k => negb (key_is key k && is_nullish (get row k))) keys in
      ((sqlKeys ++ map (fun k => (dq ++ toSQL conv k ++ dq)%string) fields)%list,
       (values0 ++ map (fun k => toSQLCompatibleValue JSON_stringify (get row k)) fields)%list,
       (qm ++ map (fun _ => "?") fields)%list).
Proof.
  induction keys as [|k keys IH]; intros sqlKeys values0 qm; simpl.
  - rewrite !app_nil_r. reflexivity.
  - destruct (key_is key k && is_nullish (get row k)); simpl.
    + apply IH.
    + rewrite IH. simpl. rewrite <- !app_assoc. reflexivity.
Qed.

Lemma kept_fields_key (row : GenericRow) (name : string) :
  In name (kept_fields row (Some name))
  <-> has row name = true /\ is_nullish (get row name) = false.
Proof.
  unfold kept_fields. rewrite filter_In, has_In. simpl.
  rewrite String.eqb_refl. simpl. rewrite negb_true_iff. reflexivity.
Qed.

(** C8, as amended.  The column list of an insert is made of all the
    fields that the row lists, null ones included, except the key when its
    value is null or absent, each bound to its value as
    [toSQLCompatibleValue] gives it.  When the key is named and the row
    gives null or nothing under it, the key is not in the list, a
    RETURNING clause on the key ends the statement, and what the first row
    of the result gives under the key's column is passed to the callback.
    When the row lists the key with a value, the key is in the list, bound
    to its value (unchanged if it is a number, a string or a date), and
    the statement has no RETURNING clause and the callback is not called.
    When the row does not list the key but inherits a value under its
    name, the key is not in the list and the statement has no RETURNING
    clause either. *)
Theorem C8_insert_columns_and_returning (JSON_stringify : value -> value)
    (conv : NameConversion) (pool_query : string -> list value -> reply)
    (inherited : GenericRow -> string -> value)
    (table : string) (row : GenericRow) (key : option string) (callback : bool) :
  let fields := kept_fields row key in
  let columns := map (fun k => dq ++ toSQL conv k ++ dq) fields in
  let bound := map (fun k => toSQLCompatibleValue JSON_stringify (get row k)) fields in
  let head :=
    "INSERT INTO " ++ dq ++ table ++ dq ++ "(" ++ join "," columns
      ++ ") VALUES (" ++ join "," (map (fun _ => "?") fields) ++ ")" in
  let r := insert JSON_stringify conv pool_query inherited table row key callback in
  insert_columns JSON_stringify conv row key = columns
  /\ insert_values JSON_stringify conv row key = bound
  /\ (forall name, key = Some name -> name <> "" ->
        is_nullish (member inherited row name) = true ->
        ~ In name fields
        /\ insert_sentence JSON_stringify conv inherited table row key
           = head ++ " RETURNING " ++ dq ++ toSQL conv name ++ dq
        /\ (forall results first rest,
              pool_query (toPostgresTemplate
                            (head ++ " RETURNING " ++ dq ++ toSQL conv name ++ dq)) bound
              = Success results ->
              rows results = Some (first :: rest) -> callback = true ->
              events r
              = [Query (toPostgresTemplate
                          (head ++ " RETURNING " ++ dq ++ toSQL conv name ++ dq)) bound;
                 Callback (member inherited first (toSQL conv name))]
              /\ outcome r = Promise (Fulfilled VUndefined)))
  /\ (forall name, key = Some name ->
        has row name = true -> is_nullish (get row name) = false ->
        In name fields
        /\ (forall n, get row name = VNum n ->
              toSQLCompatibleValue JSON_stringify (get row name) = VNum n)
        /\ (forall str, get row name = VStr str ->
              toSQLCompatibleValue JSON_stringify (get row name) = VStr str)
        /\ (forall t, get row name = VDate t ->
              toSQLCompatibleValue JSON_stringify (get row name) = VDate t)
        /\ insert_sentence JSON_stringify conv inherited table row key = head
        /\ (forall results,
              pool_query (toPostgresTemplate head) bound = Success results ->
              events r = [Query (toPostgresTemplate head) bound]
              /\ outcome r = Promise (Fulfilled VUndefined)))
  /\ (forall name, key = Some name ->
        has row name = false -> is_nullish (inherited row name) = false ->
        ~ In name fields
        /\ insert_sentence JSON_stringify conv inherited table row key = head
        /\ (forall results,
              pool_query (toPostgresTemplate head) bound = Success results ->
              events r = [Query (toPostgresTemplate head) bound]
              /\ outcome r = Promise (Fulfilled VUndefined))).
Proof.
  intros fields columns bound head r.
  assert (Hcols : insert_columns JSON_stringify conv row key = columns).
  { unfold insert_columns. rewrite insert_loop_kept. reflexivity. }
  assert (Hvals : insert_values JSON_stringify conv row key = bound).
  { unfold insert_values. rewrite insert_loop_kept. reflexivity. }
  assert (Hqm : insert_qm JSON_stringify conv row key = map (fun _ => "?") fields).
  { unfold insert_qm. rewrite insert_loop_kept. reflexivity. }
  assert (Hplain : forall name, key = Some name ->
            insertReturns inherited row (Some name) = false ->
            insert_sentence JSON_stringify conv inherited table row key = head
            /\ (forall results,
                  pool_query (toPostgresTemplate head) bound = Success results ->
                  events r = [Query (toPostgresTemplate head) bound]
                  /\ outcome r = Promise (Fulfilled VUndefined))).
  { intros name Hkey Hret.
    assert (Hsent : insert_sentence JSON_stringify conv inherited table row key = head).
    { unfold insert_sentence. rewrite Hkey, Hret. rewrite <- Hkey, Hcols, Hqm.
      subst head. strings_normal. reflexivity. }
    split; [exact Hsent|].
    intros results Hq. subst r. unfold insert.
    rewrite Hsent, Hvals, Hq, Hkey, Hret. split; reflexivity. }
  split; [exact Hcols|]. split; [exact Hvals|]. split; [|split].
  - intros name Hkey Hname Hnull.
    assert (Hret : insertReturns inherited row (Some name) = true).
    { unfold insertReturns. simpl. rewrite Hnull.
      destruct name; [contradiction | reflexivity]. }
    assert (Hsent : insert_sentence JSON_stringify conv inherited table row key
                    = head ++ " RETURNING " ++ dq ++ toSQL conv name ++ dq).
    { unfold insert_sentence. rewrite Hkey, Hret. rewrite <- Hkey, Hcols, Hqm.
      subst head. strings_normal. reflexivity. }
    split; [|split; [exact Hsent|]].
    + subst fields. rewrite Hkey. rewrite kept_fields_key. intros [Hhas Hvalue].
      unfold member in Hnull. rewrite Hhas, Hvalue in Hnull. discriminate Hnull.
    + intros results first rest Hq Hrows ->. subst r. unfold insert.
      rewrite Hsent, Hvals, Hq, Hkey, Hret, Hrows. split; reflexivity.
  - intros name Hkey Hhas Hvalue.
    assert (Hret : insertReturns inherited row (Some name) = false).
    { unfold insertReturns, get_key, member. rewrite Hhas, Hvalue.
      apply andb_false_r. }
    split; [|split; [|split; [|split; [|exact (Hplain name Hkey Hret)]]]].
    + subst fields. rewrite Hkey. apply kept_fields_key. split; assumption.
    + intros n ->. reflexivity.
    + intros str ->. reflexivity.
    + intros t ->. reflexivity.
  - intros name Hkey Hhas Hvalue.
    assert (Hret : insertReturns inherited row (Some name) = false).
    { unfold insertReturns, get_key, member. rewrite Hhas, Hvalue.
      apply andb_false_r. }
    split; [|exact (Hplain name Hkey Hret)].
    subst fields. rewrite Hkey. rewrite kept_fields_key. intros [Hown _].
    rewrite Hhas in Hown. discriminate Hown.
Qed.

Lemma C8_insert_columns_and_returning_witness :
  events (insert (fun v => v) default_idConversion
            (fun _ _ => Success {| rows := Some [[("id", VNum 42)]]; rowCount := 1 |})
            Object_prototype
            "dummy" [("id", VNull); ("value1", VNum 3); ("data", VNull)] (Some "id") true)
  = [Query ("INSERT INTO " ++ dq ++ "dummy" ++ dq ++ "(" ++ dq ++ "value1" ++ dq ++ ","
              ++ dq ++ "data" ++ dq ++ ") VALUES ($1,$2) RETURNING " ++ dq ++ "id" ++ dq)
           [VNum 3; VNull];
     Callback (VNum 42)]
  /\ events (insert (fun v => v) default_idConversion
               (fun _ _ => Success {| rows := Some []; rowCount := 1 |})
               Object_prototype
               "person" [("id", VNum 7); ("name", VStr "ann")] (Some "id") false)
     = [Query ("INSERT INTO " ++ dq ++ "person" ++ dq ++ "(" ++ dq ++ "id" ++ dq ++ ","
                 ++ dq ++ "name" ++ dq ++ ") VALUES ($1,$2)")
              [VNum 7; VStr "ann"]]
  /\ events (insert (fun v => v) default_idConversion
               (fun _ _ => Success {| rows := Some [[("a", VNum 1)]]; rowCount := 1 |})
               Object_prototype
               "dummy" [("a", VNum 1)] (Some "constructor") true)
     = [Query ("INSERT INTO " ++ dq ++ "dummy" ++ dq ++ "(" ++ dq ++ "a" ++ dq
                 ++ ") VALUES ($1)")
              [VNum 1]].
Proof.
  split; [|split].
  - pose proof (C8_insert_columns_and_returning (fun v => v) default_idConversion
                  (fun _ _ => Success {| rows := Some [[("id", VNum 42)]]; rowCount := 1 |})
                  Object_prototype
                  "dummy" [("id", VNull); ("value1", VNum 3); ("data", VNull)]
                  (Some "id") true) as (_ & _ & Hauto & _).
    destruct (Hauto "id" eq_refl) as (_ & _ & Hcall);
      [discriminate | reflexivity |].
    destruct (Hcall {| rows := Some [[("id", VNum 42)]]; rowCount := 1 |}
                [("id", VNum 42)] [] eq_refl eq_refl eq_refl) as (Hevents & _).
    exact Hevents.
  - pose proof (C8_insert_columns_and_returning (fun v => v) default_idConversion
                  (fun _ _ => Success {| rows := Some []; rowCount := 1 |})
                  Object_prototype
                  "person" [("id", VNum 7); ("name", VStr "ann")]
                  (Some "id") false) as (_ & _ & _ & Hgiven & _).
    destruct (Hgiven "id" eq_refl eq_refl eq_refl) as (_ & _ & _ & _ & _ & Hquery).
    destruct (Hquery {| rows := Some []; rowCount := 1 |} eq_refl) as (Hevents & _).
    exact Hevents.
  - pose proof (C8_insert_columns_and_returning (fun v => v) default_idConversion
                  (fun _ _ => Success {| rows := Some [[("a", VNum 1)]]; rowCount := 1 |})
                  Object_prototype
                  "dummy" [("a", VNum 1)]
                  (Some "constructor") true) as (_ & _ & _ & _ & Hinherited).
    destruct (Hinherited "constructor" eq_refl eq_refl eq_refl) as (_ & _ & Hquery).
    destruct (Hquery {| rows := Some [[("a", VNum 1)]]; rowCount := 1 |} eq_refl)
      as (Hevents & _).
    exact Hevents.
Defined.

(** C8, as stated, fails: a field that is null and is not the key is in
    the column list, bound to null. *)
Lemma C8_null_field_is_inserted_counterexample :
  insert_columns (fun v => v) default_idConversion
    [("id", VNum 1); ("name", VNull)] (Some "id")
  = [dq ++ "id" ++ dq; dq ++ "name" ++ dq]
  /\ insert_values (fun v => v) default_idConversion
       [("id", VNum 1); ("name", VNull)] (Some "id")
     = [VNum 1; VNull]
  /\ non_null_columns (toSQL default_idConversion) [("id", VNum 1); ("name", VNull)]
     = [dq ++ "id" ++ dq]
  /\ insert_columns (fun v => v) default_idConversion
       [("id", VNum 1); ("name", VNull)] (Some "id")
     <> non_null_columns (toSQL default_idConversion) [("id", VNum 1); ("name", VNull)].
Proof.
  repeat split. discriminate.
Qed.

(* ===================================================================== *)
(** ** Identifier conversion, further *)
(* ===================================================================== *)

Lemma lower_case_facts (c : ascii) :
  is_ascii c = true ->
  is_upper (toLowerCase c) = false
  /\ is_ascii (toLowerCase c) = true
  /\ (Ascii.eqb (toLowerCase c) c = true -> is_upper c = false)
  /\ (is_upper c = false -> toLowerCase c = c).
Proof.
  destruct c as [[] [] [] [] [] [] [] []]; vm_compute; intros Hc;
    try discriminate Hc; repeat split; intros H; try discriminate H; reflexivity.
Qed.

Lemma upper_case_facts (c : ascii) :
  is_ascii c = true ->
  Ascii.eqb c "_" = false ->
  Ascii.eqb (toUpperCase c) "_" = false /\ Ascii.eqb (toLowerCase c) "_" = false.
Proof.
  destruct c as [[] [] [] [] [] [] [] []]; vm_compute; intros Hc H;
    try discriminate Hc; try discriminate H; split; reflexivity.
Qed.

Lemma toSnakeCase_no_upper (camel : string) :
  ascii_only camel = true ->
  all_chars (fun c => negb (is_upper c)) (toSnakeCase camel) = true
  /\ ascii_only (toSnakeCase camel) = true.
Proof.
  induction camel as [|c camel IH]; simpl; [split; reflexivity|].
  intros H. apply andb_true_iff in H. destruct H as [Hc Hs].
  destruct (IH Hs) as [IHupper IHascii].
  destruct (lower_case_facts c Hc) as (Hlow & Hascii & Hsame & _).
  destruct (Ascii.eqb (toLowerCase c) c) eqn:E; simpl.
  - rewrite (Hsame eq_refl), Hc, IHupper, IHascii. split; reflexivity.
  - rewrite Hlow, Hascii, IHupper, IHascii. split; reflexivity.
Qed.

Lemma toSnakeCase_fixes_lower (s : string) :
  ascii_only s = true ->
  all_chars (fun c => negb (is_upper c)) s = true -> toSnakeCase s = s.
Proof.
  induction s as [|c s IH]; simpl; [reflexivity|].
  intros Ha H. apply andb_true_iff in Ha. destruct Ha as [Hac Has].
  apply andb_true_iff in H. destruct H as [Hc Hs].
  apply negb_true_iff in Hc.
  destruct (lower_case_facts c Hac) as (_ & _ & _ & Hfix).
  rewrite (Hfix Hc), Ascii.eqb_refl. simpl. rewrite (IH Has Hs). reflexivity.
Qed.

(** X1.  For a name made of ASCII characters, [toSnakeCase] gives a name
    without any upper-case letter, and gives that name back when applied
    to it again. *)
Theorem X1_toSnakeCase_lower_case_and_stable (camel : string) :
  ascii_only camel = true ->
  all_chars (fun c => negb (is_upper c)) (toSnakeCase camel) = true
  /\ toSnakeCase (toSnakeCase camel) = toSnakeCase camel.
Proof.
  intros H. destruct (toSnakeCase_no_upper camel H) as [Hupper Hascii].
  split; [exact Hupper|].
  apply toSnakeCase_fixes_lower; assumption.
Qed.

Lemma X1_toSnakeCase_lower_case_and_stable_witness :
  toSnakeCase (toSnakeCase "birthDate_ofUser") = "birth_date_of_user".
Proof.
  exact (proj2 (X1_toSnakeCase_lower_case_and_stable "birthDate_ofUser" eq_refl)).
Defined.

(** X2.  Two different names in application convention are never given
    the same storage name by [toSnakeCase]. *)
Theorem X2_toSnakeCase_keeps_names_apart (x y : string) :
  application_convention x = true ->
  application_convention y = true ->
  x <> y ->
  toSnakeCase x <> toSnakeCase y.
Proof.
  intros Hx Hy Hxy E. apply Hxy.
  rewrite <- (camel_of_snake x Hx), <- (camel_of_snake y Hy), E. reflexivity.
Qed.

Lemma X2_toSnakeCase_keeps_names_apart_witness :
  toSnakeCase "userName" <> toSnakeCase "username".
Proof.
  apply X2_toSnakeCase_keeps_names_apart; [reflexivity | reflexivity | discriminate].
Defined.

Lemma toCamelCase_loop_no_underscore (snake : string) :
  ascii_only snake = true ->
  forall nextUpper, JsString.count "_" (toCamelCase_loop nextUpper snake) = 0.
Proof.
  induction snake as [|c snake IH]; intros H nextUpper; simpl; [reflexivity|].
  simpl in H. apply andb_true_iff in H. destruct H as [Hc Hs].
  destruct (Ascii.eqb c "_") eqn:E; [apply IH; exact Hs|].
  destruct (upper_case_facts c Hc E) as [Hu Hl].
  destruct nextUpper; simpl; rewrite ?Hu, ?Hl, (IH Hs); reflexivity.
Qed.

Lemma toCamelCase_loop_plain (snake : string) :
  ascii_only snake = true ->
  JsString.count "_" snake = 0 -> toCamelCase_loop false snake = lower_string snake.
Proof.
  induction snake as [|c snake IH]; simpl; [reflexivity|].
  intros Ha. apply andb_true_iff in Ha. destruct Ha as [_ Hs].
  destruct (Ascii.eqb c "_"); [discriminate|].
  simpl. intros H. rewrite (IH Hs H). reflexivity.
Qed.

(** X3.  For a name made of ASCII characters, [toCamelCase] gives a name
    without any underscore; and such a name that has no underscore comes
    out with all its letters in lower case, so that a column named in
    medial capitals is not given back as it is. *)
Theorem X3_toCamelCase_no_underscore_and_lowers (snake : string) :
  ascii_only snake = true ->
  JsString.count "_" (toCamelCase snake) = 0
  /\ (JsString.count "_" snake = 0 -> toCamelCase snake = lower_string snake).
Proof.
  intros H. split.
  - apply toCamelCase_loop_no_underscore. exact H.
  - apply toCamelCase_loop_plain. exact H.
Qed.

Lemma X3_toCamelCase_no_underscore_and_lowers_witness :
  toCamelCase "userName" = "username".
Proof.
  exact (proj2 (X3_toCamelCase_no_underscore_and_lowers "userName" eq_refl) eq_refl).
Defined.

(* ===================================================================== *)
(** ** Pattern translation, further *)
(* ===================================================================== *)

Lemma escape_guarded (s : string) :
  forall after_backslash, wildcards_guarded after_backslash (escape s) = true.
Proof.
  induction s as [|c s IH]; intros b; simpl; [reflexivity|].
  destruct (Ascii.eqb c "%") eqn:Ep; simpl.
  - apply Ascii.eqb_eq in Ep. subst c. simpl. apply IH.
  - destruct (Ascii.eqb c "_") eqn:Eu; simpl.
    + apply Ascii.eqb_eq in Eu. subst c. simpl. apply IH.
    + rewrite Ep, Eu. simpl. apply IH.
Qed.

Lemma escape_length (s : string) :
  String.length (escape s)
  = String.length s + JsString.count "%" s + JsString.count "_" s.
Proof.
  induction s as [|c s IH]; simpl; [reflexivity|].
  destruct (Ascii.eqb c "%") eqn:Ep; simpl.
  - apply Ascii.eqb_eq in Ep. subst c. simpl. rewrite IH. lia.
  - destruct (Ascii.eqb c "_"); simpl; rewrite IH; lia.
Qed.

(** X4.  In the result of [replaceLikeWildcards] every [%] and every [_]
    comes right after a backslash, and the result is longer than the
    string by the number of its [%] and [_]: nothing else is added or
    removed. *)
Theorem X4_replaceLikeWildcards_guards_wildcards (str : string) :
  wildcards_guarded false (replaceLikeWildcards str) = true
  /\ String.length (replaceLikeWildcards str)
     = String.length str + JsString.count "%" str + JsString.count "_" str.
Proof.
  rewrite replaceLikeWildcards_escape. split.
  - apply escape_guarded.
  - apply escape_length.
Qed.

Lemma reverseRegexp_loop_plain (source : string) :
  JsString.count "\" source = 0 ->
  forall nextEscape, reverseRegexp_loop nextEscape source = source.
Proof.
  induction source as [|c source IH]; simpl; intros H nextEscape; [reflexivity|].
  destruct (Ascii.eqb c "\"); [discriminate|].
  rewrite (IH H). reflexivity.
Qed.

Lemma reverseRegexp_loop_shorter (source : string) :
  forall nextEscape,
  String.length (reverseRegexp_loop nextEscape source) <= String.length source.
Proof.
  induction source as [|c source IH]; intros nextEscape; simpl; [lia|].
  destruct (Ascii.eqb c "\"); [destruct nextEscape|]; simpl;
    try (specialize (IH false); lia); specialize (IH true); lia.
Qed.

(** X5.  [reverseRegexp] gives back as it is a source that holds no
    backslash, and never gives a string longer than the source. *)
Theorem X5_reverseRegexp_plain_source (exp : RegExp) :
  (JsString.count "\" (source exp) = 0 -> reverseRegexp exp = source exp)
  /\ String.length (reverseRegexp exp) <= String.length (source exp).
Proof.
  unfold reverseRegexp, reverseRegexp_source. split.
  - intros H. apply reverseRegexp_loop_plain. exact H.
  - apply reverseRegexp_loop_shorter.
Qed.

Lemma X5_reverseRegexp_plain_source_witness :
  reverseRegexp {| source := "^abc"; flags := "i" |} = "^abc".
Proof.
  exact (proj1 (X5_reverseRegexp_plain_source {| source := "^abc"; flags := "i" |})
               eq_refl).
Defined.

Lemma escape_append (a b : string) : escape (a ++ b) = escape a ++ escape b.
Proof.
  induction a as [|c a IH]; simpl; [reflexivity|].
  destruct (Ascii.eqb c "%" || Ascii.eqb c "_"); simpl; rewrite IH; reflexivity.
Qed.

(** X6.  A regular expression anchored at both ends is not compiled to an
    exact match: with [^body$] as its source once the escapes are
    stripped, the bound pattern is a prefix pattern in which the [$] is an
    ordinary character, [body] escaped, then [$%]. *)
Theorem X6_regex_with_both_anchors (key : string) (re : RegExp)
    (idConverter : string -> string) (body : string) :
  reverseRegexp re = "^" ++ body ++ "$" ->
  Filtering.values (filterToSQL (FRegex key re) idConverter)
  = [VStr (replaceLikeWildcards body ++ "$%")].
Proof.
  intros E. simpl. rewrite E. unfold like_value. simpl.
  unfold substr_from. simpl. rewrite Nat.sub_0_r, substring_whole.
  rewrite !replaceLikeWildcards_escape, escape_append. simpl.
  rewrite append_assoc. reflexivity.
Qed.

Lemma X6_regex_with_both_anchors_witness :
  Filtering.values
    (filterToSQL (FRegex "name" {| source := "^ann$"; flags := "" |}) toSnakeCase)
  = [VStr "ann$%"].
Proof.
  exact (X6_regex_with_both_anchors "name" {| source := "^ann$"; flags := "" |}
           toSnakeCase "ann" eq_refl).
Defined.

(* ===================================================================== *)
(** ** The filter compiler, further *)
(* ===================================================================== *)

Lemma nonempty_append_l (a b : string) : nonempty a = true -> nonempty (a ++ b) = true.
Proof. destruct a; [discriminate | reflexivity]. Qed.

Lemma nonempty_append_r (a b : string) : nonempty b = true -> nonempty (a ++ b) = true.
Proof.
  unfold nonempty. rewrite length_append. intros H.
  apply Nat.ltb_lt in H. apply Nat.ltb_lt. lia.
Qed.

Lemma nonempty_false (s : string) : nonempty s = false -> s = "".
Proof. destruct s; [reflexivity | discriminate]. Qed.

Lemma join_step (sep x y : string) (ys : list string) :
  join sep (x :: y :: ys) = x ++ sep ++ join sep (y :: ys).
Proof. reflexivity. Qed.

(** The loop of a group, in closed form: the fragments that are not empty,
    each between parentheses, after what the loop started with. *)
Lemma combine_children_closed (sep : string) (children : list compiled) :
  forall first query0 values0,
    combine_children sep children first query0 values0
    = {| query :=
           query0
             ++ match map wrapped (fragments children) with
                | [] => ""
                | w :: ws => (if first then "" else sep) ++ join sep (w :: ws)
                end;
         Filtering.values :=
           (values0
              ++ List.concat (map Filtering.values
                                (filter (fun c => nonempty (query c)) children)))%list |}.
Proof.
  unfold fragments.
  induction children as [|child rest IH]; intros first query0 values0.
  - simpl. rewrite append_nil_r, app_nil_r. reflexivity.
  - cbn [combine_children map filter].
    destruct (nonempty (query child)) eqn:E.
    + rewrite IH. cbn [map List.concat]. f_equal.
      * destruct (map wrapped (filter nonempty (map query rest))) as [|w ws].
        -- cbn [join]. unfold wrapped.
           destruct first; rewrite ?append_nil_r, ?append_assoc; reflexivity.
        -- rewrite join_step. unfold wrapped.
           destruct first; rewrite ?append_nil_r, ?append_assoc; reflexivity.
      * rewrite <- app_assoc. reflexivity.
    + rewrite IH. reflexivity.
Qed.

Lemma group_closed (sep : string) (children : list compiled) :
  combine_children sep children true "" []
  = {| query := join sep (map wrapped (fragments children));
       Filtering.values :=
         List.concat (map Filtering.values
                        (filter (fun c => nonempty (query c)) children)) |}.
Proof.
  rewrite combine_children_closed. cbn [app]. f_equal.
  destruct (map wrapped (fragments children)) as [|w ws]; reflexivity.
Qed.

Lemma in_loop_closed (column : string) (vs : list value) :
  forall first subquery values0,
    in_loop column vs first subquery values0
    = (subquery
         ++ match vs with
            | [] => ""
            | _ :: _ =>
                (if first then "" else " OR ")
                  ++ join " OR "
                       (map (fun _ => "(" ++ dq ++ column ++ dq ++ " = ?)") vs)
            end,
       (values0 ++ vs)%list).
Proof.
  induction vs as [|v vs IH]; intros first subquery values0.
  - simpl. rewrite append_nil_r, app_nil_r. reflexivity.
  - cbn [in_loop]. rewrite IH. f_equal.
    + destruct vs as [|v' vs'].
      * cbn [map join]. destruct first; rewrite ?append_nil_r, ?append_assoc;
          reflexivity.
      * cbn [map]. rewrite join_step.
        destruct first; rewrite ?append_nil_r, ?append_assoc; reflexivity.
    + rewrite <- app_assoc. reflexivity.
Qed.

Lemma join_nonempty (sep x : string) (xs : list string) :
  nonempty x = true -> nonempty (join sep (x :: xs)) = true.
Proof.
  intros H. destruct xs as [|y ys]; [exact H|].
  rewrite join_step. apply nonempty_append_l. exact H.
Qed.

Lemma in_fragment_nonempty (column : string) (v : value) (vs : list value) :
  nonempty (fst (in_loop column (v :: vs) true "" [])) = true.
Proof.
  rewrite in_loop_closed. cbn [fst map]. apply join_nonempty. reflexivity.
Qed.

Lemma existsb_map_negb {A B : Type} (g : A -> B) (p : A -> bool) (q : B -> bool)
    (l : list A) :
  Forall (fun x => q (g x) = negb (p x)) l ->
  existsb q (map g l) = negb (forallb p l).
Proof.
  induction 1 as [|x l Hx _ IH]; simpl; [reflexivity|].
  rewrite Hx, IH. destruct (p x); reflexivity.
Qed.

Lemma group_nonempty (sep : string) (children : list compiled) :
  nonempty (query (combine_children sep children true "" []))
  = existsb (fun c => nonempty (query c)) children.
Proof.
  rewrite group_closed. cbn [query]. unfold fragments.
  induction children as [|child rest IH]; [reflexivity|].
  cbn [map filter existsb].
  destruct (nonempty (query child)) eqn:E; [|exact IH].
  cbn [map orb]. apply join_nonempty. reflexivity.
Qed.

Lemma filter_nonempty_vacuous (idConverter : string -> string) (f : GenericFilter) :
  nonempty (query (filterToSQL f idConverter)) = negb (vacuous f).
Proof.
  induction f using filter_induction; try reflexivity.
  - cbn [filterToSQL vacuous]. rewrite group_nonempty.
    apply (existsb_map_negb (fun c => filterToSQL c idConverter) vacuous
             (fun c => nonempty (query c))). exact H.
  - cbn [filterToSQL vacuous]. rewrite group_nonempty.
    apply (existsb_map_negb (fun c => filterToSQL c idConverter) vacuous
             (fun c => nonempty (query c))). exact H.
  - cbn [filterToSQL vacuous]. rewrite <- IHf.
    destruct (nonempty (query (filterToSQL f idConverter))); reflexivity.
  - cbn [filterToSQL]. destruct (0 <=? indexOf "i" (flags regexp))%Z; reflexivity.
  - cbn [filterToSQL vacuous]. destruct vs as [|v vs]; [reflexivity|].
    pose proof (in_fragment_nonempty (idConverter key) v vs) as Hne.
    destruct (in_loop (idConverter key) (v :: vs) true "" []) as [subquery values0].
    simpl in Hne. rewrite Hne. reflexivity.
  - cbn [filterToSQL]. destruct e; reflexivity.
  - cbn [filterToSQL]. destruct (is_nullish v); reflexivity.
  - cbn [filterToSQL]. destruct (is_nullish v); reflexivity.
Qed.

Lemma filter_values_tree (idConverter : string -> string) (f : GenericFilter) :
  Filtering.values (filterToSQL f idConverter) = tree_values f
  /\ (vacuous f = true -> tree_values f = []).
Proof.
  induction f using filter_induction; try (split; [reflexivity | discriminate]).
  - split; reflexivity.
  - cbn [filterToSQL vacuous tree_values]. rewrite group_closed. simpl.
    split.
    + induction H as [|child rest [Hv Hvac] _ IH]; simpl; [reflexivity|].
      rewrite filter_nonempty_vacuous.
      destruct (vacuous child) eqn:E; simpl.
      * rewrite (Hvac eq_refl). exact IH.
      * rewrite Hv, IH. reflexivity.
    + induction H as [|child rest [Hv Hvac] _ IH]; simpl; [reflexivity|].
      intros Hall. apply andb_true_iff in Hall. destruct Hall as [Hc Hr].
      rewrite (Hvac Hc), (IH Hr). reflexivity.
  - cbn [filterToSQL vacuous tree_values]. rewrite group_closed. simpl.
    split.
    + induction H as [|child rest [Hv Hvac] _ IH]; simpl; [reflexivity|].
      rewrite filter_nonempty_vacuous.
      destruct (vacuous child) eqn:E; simpl.
      * rewrite (Hvac eq_refl). exact IH.
      * rewrite Hv, IH. reflexivity.
    + induction H as [|child rest [Hv Hvac] _ IH]; simpl; [reflexivity|].
      intros Hall. apply andb_true_iff in Hall. destruct Hall as [Hc Hr].
      rewrite (Hvac Hc), (IH Hr). reflexivity.
  - destruct IHf as [Hv Hvac]. cbn [filterToSQL vacuous tree_values].
    rewrite filter_nonempty_vacuous. split; [|exact Hvac].
    destruct (vacuous f) eqn:E; simpl; [rewrite (Hvac eq_refl); reflexivity | exact Hv].
  - cbn [filterToSQL vacuous tree_values]. rewrite in_loop_closed.
    split.
    + destruct (nonempty _); reflexivity.
    + destruct vs; [reflexivity | discriminate].
  - cbn [filterToSQL]. destruct e; split; try reflexivity; discriminate.
  - cbn [filterToSQL tree_values]. destruct (is_nullish v);
      split; try reflexivity; discriminate.
  - cbn [filterToSQL tree_values]. destruct (is_nullish v);
      split; try reflexivity; discriminate.
Qed.

(** X7.  A filter compiles to the empty fragment exactly when it asks
    nothing (no filter, a group of nothing but such filters, the negation
    of one, a membership in no value); and the empty fragment never comes
    with a value. *)
Theorem X7_empty_fragment_iff_vacuous (f : GenericFilter)
    (idConverter : string -> string) :
  (query (filterToSQL f idConverter) = "" <-> vacuous f = true)
  /\ (query (filterToSQL f idConverter) = "" ->
        Filtering.values (filterToSQL f idConverter) = []).
Proof.
  pose proof (filter_nonempty_vacuous idConverter f) as Hne.
  destruct (filter_values_tree idConverter f) as [Hv Hvac].
  assert (Hiff : query (filterToSQL f idConverter) = "" <-> vacuous f = true).
  { split.
    - intros E. rewrite E in Hne. simpl in Hne.
      destruct (vacuous f); [reflexivity | discriminate].
    - intros E. rewrite E in Hne. apply nonempty_false. exact Hne. }
  split; [exact Hiff|].
  intros E. rewrite Hv. apply Hvac. apply Hiff. exact E.
Qed.

Lemma X7_empty_fragment_iff_vacuous_witness :
  Filtering.values
    (filterToSQL (FAnd [FNull; FNot (FOr [FIn "id" []])]) toSnakeCase) = [].
Proof.
  apply (proj2 (X7_empty_fragment_iff_vacuous
                  (FAnd [FNull; FNot (FOr [FIn "id" []])]) toSnakeCase)).
  reflexivity.
Defined.

(** X8.  The values bound by a compiled filter are the values of the
    tree read from left to right (none for a null comparison of Eq or Ne
    and for Exists, the pattern for Regex, all of them for In), whatever
    the identifier converter. *)
Theorem X8_values_are_the_tree_values (f : GenericFilter)
    (idConverter : string -> string) :
  Filtering.values (filterToSQL f idConverter) = tree_values f.
Proof. apply filter_values_tree. Qed.

(** X9.  The fragment of an And (of an Or) is made of the fragments of
    its children that are not empty, in order, each between "( " and " )",
    joined by " AND " (by " OR "). *)
Theorem X9_group_joins_wrapped_fragments (children : list GenericFilter)
    (idConverter : string -> string) :
  let compiled := map (fun c => filterToSQL c idConverter) children in
  query (filterToSQL (FAnd children) idConverter)
  = join " AND " (map wrapped (fragments compiled))
  /\ query (filterToSQL (FOr children) idConverter)
     = join " OR " (map wrapped (fragments compiled)).
Proof.
  intros compiled. subst compiled. cbn [filterToSQL].
  rewrite !group_closed. split; reflexivity.
Qed.

Lemma group_drops_vacuous (sep : string) (idConverter : string -> string)
    (children : list GenericFilter) :
  forall first query0 values0,
    combine_children sep (map (fun c => filterToSQL c idConverter) children)
      first query0 values0
    = combine_children sep
        (map (fun c => filterToSQL c idConverter)
           (filter (fun c => negb (vacuous c)) children))
        first query0 values0.
Proof.
  induction children as [|child rest IH]; intros first query0 values0; simpl;
    [reflexivity|].
  rewrite filter_nonempty_vacuous.
  destruct (vacuous child) eqn:E; simpl.
  - apply IH.
  - rewrite filter_nonempty_vacuous, E. simpl. apply IH.
Qed.

(** X10.  Children that ask nothing can be taken out of an And or an Or
    without changing what it compiles to, fragment and values. *)
Theorem X10_vacuous_children_do_not_count (children : list GenericFilter)
    (idConverter : string -> string) :
  let kept := filter (fun c => negb (vacuous c)) children in
  filterToSQL (FAnd children) idConverter = filterToSQL (FAnd kept) idConverter
  /\ filterToSQL (FOr children) idConverter = filterToSQL (FOr kept) idConverter.
Proof.
  intros kept. subst kept. cbn [filterToSQL].
  split; apply group_drops_vacuous.
Qed.

(** X11.  An In over at least one value compiles to one comparison
    ["<field>" = ?] per value, each between parentheses, joined by " OR "
    and between parentheses as a whole, bound to the values in their
    order; a null among the values is bound like any other. *)
Theorem X11_in_is_a_disjunction_of_equalities (key : string) (v : value)
    (vs : list value) (idConverter : string -> string) :
  filterToSQL (FIn key (v :: vs)) idConverter
  = {| query :=
         "(" ++ join " OR "
                  (map (fun _ => "(" ++ dq ++ idConverter key ++ dq ++ " = ?)") (v :: vs))
             ++ ")";
       Filtering.values := v :: vs |}.
Proof.
  cbn [filterToSQL]. rewrite in_loop_closed. cbn [map app].
  change ("" ++ "" ++ ?x) with x.
  rewrite join_nonempty by reflexivity. reflexivity.
Qed.

Lemma parens_even_iff (s : string) :
  parens_even s = true <-> JsString.count "(" s = JsString.count ")" s.
Proof. unfold parens_even. apply Nat.eqb_eq. Qed.

Lemma parens_even_append (a b : string) :
  parens_even a = true -> parens_even b = true -> parens_even (a ++ b) = true.
Proof.
  rewrite !parens_even_iff, !count_append. lia.
Qed.

Lemma parens_even_join (sep : string) (l : list string) :
  parens_even sep = true ->
  Forall (fun x => parens_even x = true) l ->
  parens_even (join sep l) = true.
Proof.
  intros Hsep. induction 1 as [|x l Hx Hl IH]; [reflexivity|].
  destruct l as [|y ys]; [exact Hx|].
  rewrite join_step. apply parens_even_append; [exact Hx|].
  apply parens_even_append; [exact Hsep | exact IH].
Qed.

Lemma parens_even_between (a b x : string) :
  JsString.count "(" a + JsString.count "(" b
  = JsString.count ")" a + JsString.count ")" b ->
  parens_even x = true -> parens_even (a ++ x ++ b) = true.
Proof.
  rewrite !parens_even_iff, !count_append. lia.
Qed.

Lemma parens_even_group (sep : string) (idConverter : string -> string)
    (children : list GenericFilter) :
  parens_even sep = true ->
  Forall (fun c => forallb parens_even (columns c idConverter) = true ->
                   parens_even (query (filterToSQL c idConverter)) = true) children ->
  forallb parens_even
    (List.concat (map (fun c => columns c idConverter) children)) = true ->
  parens_even
    (query (combine_children sep (map (fun c => filterToSQL c idConverter) children)
              true "" [])) = true.
Proof.
  intros Hsep Hall Hcols. rewrite group_closed. cbn [query].
  apply parens_even_join; [exact Hsep|].
  unfold fragments.
  induction Hall as [|child rest Hchild _ IH]; [constructor|].
  cbn [map List.concat] in Hcols. rewrite forallb_app in Hcols.
  apply andb_true_iff in Hcols. destruct Hcols as [Hc Hrest].
  cbn [map filter].
  destruct (nonempty (query (filterToSQL child idConverter))); [|exact (IH Hrest)].
  cbn [map]. constructor; [|exact (IH Hrest)].
  unfold wrapped. apply parens_even_between; [reflexivity | exact (Hchild Hc)].
Qed.

(** X12.  When the field names of a filter, as the identifier converter
    gives them, have as many opening as closing parentheses (none, for
    instance), so has the fragment the filter compiles to. *)
Theorem X12_fragment_parentheses_pair_up (f : GenericFilter)
    (idConverter : string -> string) :
  forallb parens_even (columns f idConverter) = true ->
  parens_even (query (filterToSQL f idConverter)) = true.
Proof.
  induction f using filter_induction; intros Hcols;
    cbn [columns forallb] in Hcols; cbn [filterToSQL];
    try (rewrite andb_true_r in Hcols);
    try (apply (parens_even_between dq (dq ++ _) (idConverter key));
         [reflexivity | exact Hcols]).
  - reflexivity.
  - apply parens_even_group; auto.
  - apply parens_even_group; auto.
  - specialize (IHf Hcols).
    destruct (nonempty (query (filterToSQL f idConverter))); [|reflexivity].
    cbn [query]. apply (parens_even_between "NOT( " " )"); [reflexivity | exact IHf].
  - cbn [query]. destruct (0 <=? indexOf "i" (flags regexp))%Z.
    + apply (parens_even_between ("UPPER(" ++ dq) (dq ++ ") LIKE UPPER(?)")
               (idConverter key)); [reflexivity | exact Hcols].
    + apply (parens_even_between dq (dq ++ _) (idConverter key));
        [reflexivity | exact Hcols].
  - destruct vs as [|v vs]; [reflexivity|].
    rewrite in_loop_closed. cbn [map app]. change ("" ++ "" ++ ?x) with x.
    rewrite join_nonempty by reflexivity. cbn [query].
    apply (parens_even_between "(" ")"); [reflexivity|].
    apply parens_even_join; [reflexivity|].
    change ((("(" ++ dq ++ idConverter key ++ dq ++ " = ?)")
               :: map (fun _ : value => "(" ++ dq ++ idConverter key ++ dq ++ " = ?)") vs))
      with (map (fun _ : value => "(" ++ dq ++ idConverter key ++ dq ++ " = ?)")
              (v :: vs)).
    apply Forall_map. apply Forall_forall. intros x _.
    apply (parens_even_between ("(" ++ dq) (dq ++ " = ?)") (idConverter key));
      [reflexivity | exact Hcols].
  - destruct e; cbn [query];
      apply (parens_even_between dq (dq ++ _) (idConverter key));
      [reflexivity | exact Hcols | reflexivity | exact Hcols].
  - destruct (is_nullish v); cbn [query];
      apply (parens_even_between dq (dq ++ _) (idConverter key));
      [reflexivity | exact Hcols | reflexivity | exact Hcols].
  - destruct (is_nullish v); cbn [query];
      apply (parens_even_between dq (dq ++ _) (idConverter key));
      [reflexivity | exact Hcols | reflexivity | exact Hcols].
Qed.

Lemma X12_fragment_parentheses_pair_up_witness :
  parens_even
    (query (filterToSQL
              (FOr [FNot (FIn "id" [VNum 1; VNum 2]);
                    FRegex "name" {| source := "^a"; flags := "i" |}])
              toSnakeCase)) = true.
Proof.
  apply X12_fragment_parentheses_pair_up. reflexivity.
Defined.

(* ===================================================================== *)
(** ** The statements of the builders, further *)
(* ===================================================================== *)

Lemma where_clause_values (conv : NameConversion) (filter : GenericFilter) :
  values (where_clause conv filter) = tree_values filter.
Proof.
  unfold where_clause. rewrite filter_nonempty_vacuous.
  destruct (filter_values_tree (toSQL conv) filter) as [Hv Hvac].
  destruct (vacuous filter); simpl.
  - symmetry. apply Hvac. reflexivity.
  - exact Hv.
Qed.

(** X13.  The statements of select, count, sum and deleteMany are handed
    to the pool with exactly the values of the filter tree, read from left
    to right: leaving the WHERE clause out for an empty fragment drops no
    value, and sort, skip, limit and projection bind none. *)
Theorem X13_filter_statements_bind_the_tree_values (conv : NameConversion)
    (table : string) (filter : GenericFilter) (sortBy sortDir : option string)
    (skip limit : option Z) (projection : option (list string)) (field : string) :
  values (generateSelectSentence conv table filter sortBy sortDir skip limit projection)
  = tree_values filter
  /\ values (count_statement conv table filter) = tree_values filter
  /\ values (sum_statement conv table filter field) = tree_values filter
  /\ values (deleteMany_statement conv table filter) = tree_values filter.
Proof.
  repeat split; apply where_clause_values.
Qed.

Lemma toPostgresTemplate_loop_clean (s : string) (k : nat) :
  JsString.count "?" s = 0 -> toPostgresTemplate_loop k s = s.
Proof.
  intros H. rewrite toPostgresTemplate_loop_unfold_if, indexOf_test_count, H.
  reflexivity.
Qed.

(** A list of texts, each followed by a question mark, joined by a
    separator: the pass numbers the question marks in order. *)
Lemma toPostgresTemplate_loop_numbered (sep : string) (texts : list string) :
  JsString.count "?" sep = 0 ->
  Forall (fun t => JsString.count "?" t = 0) texts ->
  forall k tail,
    toPostgresTemplate_loop k (join sep (map (fun t => t ++ "?") texts) ++ tail)
    = join sep (numbered texts k)
        ++ toPostgresTemplate_loop (k + List.length texts) tail.
Proof.
  intros Hsep. induction 1 as [|t texts Ht Hall IH]; intros k tail.
  - simpl. rewrite Nat.add_0_r. reflexivity.
  - destruct texts as [|t' texts'].
    + cbn [map join numbered List.length].
      rewrite !append_assoc, toPostgresTemplate_loop_text by exact Ht.
      rewrite toPostgresTemplate_loop_slot.
      replace (k + 1) with (S k) by lia. reflexivity.
    + cbn [map]. rewrite join_step. cbn [numbered]. rewrite join_step.
      rewrite !append_assoc, toPostgresTemplate_loop_text by exact Ht.
      rewrite toPostgresTemplate_loop_slot.
      rewrite toPostgresTemplate_loop_text by exact Hsep.
      specialize (IH (S k) tail). cbn [map numbered] in IH. rewrite IH.
      cbn [List.length]. replace (k + S (S (List.length texts')))
        with (S k + S (List.length texts')) by lia.
      reflexivity.
Qed.

Lemma count_join (c : ascii) (sep : string) (l : list string) :
  JsString.count c sep = 0 ->
  Forall (fun x => JsString.count c x = 0) l ->
  JsString.count c (join sep l) = 0.
Proof.
  intros Hsep. induction 1 as [|x l Hx _ IH]; [reflexivity|].
  destruct l as [|y ys]; [exact Hx|].
  rewrite join_step, !count_append, Hx, Hsep, IH. reflexivity.
Qed.

Lemma update_loop_closed (JSON_stringify : value -> value) (conv : NameConversion)
    (updated : GenericRow) (keys : list string) :
  forall first sentence values0,
    update_loop JSON_stringify conv updated keys first sentence values0
    = (sentence
         ++ match keys with
            | [] => ""
            | _ :: _ =>
                (if first then "" else ", ")
                  ++ join ", "
                       (map (fun t => t ++ "?")
                          (map (fun key => dq ++ toSQL conv key ++ dq ++ " = ") keys))
            end,
       (values0
          ++ map (fun key => toSQLCompatibleValue JSON_stringify (get updated key)) keys)%list).
Proof.
  induction keys as [|key keys IH]; intros first sentence values0.
  - simpl. rewrite append_nil_r, app_nil_r. reflexivity.
  - cbn [update_loop]. rewrite IH. f_equal.
    + destruct keys as [|key' keys'].
      * cbn [map join]. destruct first; rewrite ?append_nil_r, ?append_assoc;
          reflexivity.
      * cbn [map]. rewrite join_step.
        destruct first; rewrite ?append_nil_r, ?append_assoc; reflexivity.
    + cbn [map]. rewrite <- app_assoc. reflexivity.
Qed.

(** X14.  With a descriptor that has keys, and when the table and the
    columns hold no question mark, [update] hands to the pool a statement
    whose SET clause gives the columns of the descriptor, in its order,
    the markers [$1] to [$n], whose WHERE clause compares the key with
    [$n+1], and whose values are those of the descriptor, as
    [toSQLCompatibleValue] gives them and in the same order, followed by
    the value of the key. *)
Theorem X14_update_statement (JSON_stringify : value -> value)
    (conv : NameConversion) (pool_query : string -> list value -> reply)
    (table keyName : string) (keyValue : value) (updated : GenericRow) :
  updated <> [] ->
  no_question table = true ->
  forallb (fun key => no_question (toSQL conv key)) (Object_keys updated) = true ->
  no_question (toSQL conv keyName) = true ->
  events (update JSON_stringify conv pool_query table keyName keyValue updated)
  = [Query
       ("UPDATE " ++ dq ++ table ++ dq ++ " SET "
          ++ join ", "
               (numbered
                  (map (fun key => dq ++ toSQL conv key ++ dq ++ " = ")
                     (Object_keys updated)) 1)
          ++ " WHERE " ++ dq ++ toSQL conv keyName ++ dq ++ " = "
          ++ marker (S (List.length (Object_keys updated))))
       (map (fun key => toSQLCompatibleValue JSON_stringify (get updated key))
          (Object_keys updated) ++ [keyValue])%list].
Proof.
  intros Hne Htable Hkeys Hkey.
  apply no_question_count in Htable, Hkey.
  unfold update. destruct updated as [|kv rest]; [contradiction|].
  remember (kv :: rest) as row eqn:Erow.
  replace (List.length (Object_keys row) =? 0)%nat with false
    by (subst row; reflexivity).
  cbn [events]. f_equal. f_equal.
  - unfold update_sentence, update_set, toPostgresTemplate.
    rewrite update_loop_closed. cbn [fst].
    remember (map (fun key => dq ++ toSQL conv key ++ dq ++ " = ") (Object_keys row))
      as texts eqn:Etexts.
    assert (Hclean : Forall (fun t => JsString.count "?" t = 0) texts).
    { subst texts. apply Forall_map. apply Forall_forall. intros key Hin.
      rewrite forallb_forall in Hkeys. specialize (Hkeys key Hin).
      apply no_question_count in Hkeys.
      rewrite !count_append, Hkeys. reflexivity. }
    assert (Hlen : List.length texts = List.length (Object_keys row))
      by (subst texts; apply length_map).
    replace (match Object_keys row with
             | [] => ""
             | _ :: _ =>
                 (if true then "" else ", ") ++ join ", " (map (fun t => t ++ "?") texts)
             end)
      with (join ", " (map (fun t => t ++ "?") texts))
      by (subst row; reflexivity).
    remember ("UPDATE " ++ dq ++ table ++ dq ++ " SET ") as head eqn:Ehead.
    remember (" WHERE " ++ dq ++ toSQL conv keyName ++ dq ++ " = ") as tail eqn:Etail.
    assert (Hhead : JsString.count "?" head = 0)
      by (subst head; rewrite !count_append, Htable; reflexivity).
    assert (Htail : JsString.count "?" tail = 0)
      by (subst tail; rewrite !count_append, Hkey; reflexivity).
    replace ((head ++ join ", " (map (fun t => t ++ "?") texts))
               ++ " WHERE " ++ dq ++ toSQL conv keyName ++ dq ++ " = ?")
      with (head ++ (join ", " (map (fun t => t ++ "?") texts) ++ (tail ++ "?")))
      by (subst tail; rewrite !append_assoc; reflexivity).
    rewrite toPostgresTemplate_loop_text by exact Hhead.
    rewrite toPostgresTemplate_loop_numbered by (reflexivity || exact Hclean).
    rewrite toPostgresTemplate_loop_text by exact Htail.
    rewrite (toPostgresTemplate_loop_slot _ ""), toPostgresTemplate_loop_clean
      by reflexivity.
    rewrite append_nil_r, Hlen. subst head tail.
    rewrite !append_assoc. reflexivity.
  - unfold update_values, update_set. rewrite update_loop_closed. reflexivity.
Qed.

Lemma X14_update_statement_witness :
  events (update (fun v => v) default_idConversion (fun _ _ => Failure VNull)
            "person" "id" (VNum 7) [("firstName", VStr "ann"); ("age", VNum 30)])
  = [Query ("UPDATE " ++ dq ++ "person" ++ dq ++ " SET " ++ dq ++ "first_name" ++ dq
              ++ " = $1, " ++ dq ++ "age" ++ dq ++ " = $2 WHERE " ++ dq ++ "id" ++ dq
              ++ " = $3")
           [VStr "ann"; VNum 30; VNum 7]].
Proof.
  apply (X14_update_statement (fun v => v) default_idConversion
           (fun _ _ => Failure VNull) "person" "id" (VNum 7)
           [("firstName", VStr "ann"); ("age", VNum 30)]);
    [discriminate | reflexivity | reflexivity | reflexivity].
Defined.

Lemma numbered_blank {A : Type} (l : list A) :
  forall k, numbered (map (fun _ => "") l) k = map marker (seq k (List.length l)).
Proof.
  induction l as [|x l IH]; intros k; simpl; [reflexivity|].
  rewrite IH. reflexivity.
Qed.

(** X15.  When the table and the columns hold no question mark, [insert]
    hands to the pool a statement that lists the columns of the fields it
    keeps, in the order of the row, then as many markers, [$1] to [$n], as
    there are columns, then the RETURNING clause if the key is to be
    generated (the key is named, and the row gives null or nothing under
    it, what it inherits counted); and it hands with it one value for each
    marker. *)
Theorem X15_insert_statement (JSON_stringify : value -> value)
    (conv : NameConversion) (pool_query : string -> list value -> reply)
    (inherited : GenericRow -> string -> value)
    (table : string) (row : GenericRow) (key : option string) (callback : bool) :
  no_question table = true ->
  forallb (fun k => no_question (toSQL conv k)) (kept_fields row key) = true ->
  (forall name, key = Some name -> no_question (toSQL conv name) = true) ->
  let fields := kept_fields row key in
  let bound := map (fun k => toSQLCompatibleValue JSON_stringify (get row k)) fields in
  let generated :=
    match key with
    | Some name => nonempty name && is_nullish (member inherited row name)
    | None => false
    end in
  exists rest,
    events (insert JSON_stringify conv pool_query inherited table row key callback)
    = Query
        ("INSERT INTO " ++ dq ++ table ++ dq ++ "("
           ++ join "," (map (fun k => dq ++ toSQL conv k ++ dq) fields)
           ++ ") VALUES ("
           ++ join "," (map marker (seq 1 (List.length bound)))
           ++ ")"
           ++ (if generated
               then " RETURNING " ++ dq
                      ++ toSQL conv (match key with Some name => name | None => "" end)
                      ++ dq
               else ""))
        bound :: rest.
Proof.
  intros Htable Hfields Hkey fields bound generated.
  assert (Hgen : generated = insertReturns inherited row key).
  { subst generated. destruct key; reflexivity. }
  rewrite Hgen. clear Hgen generated.
  destruct (insert_issues_first JSON_stringify conv pool_query inherited table row key
              callback) as [rest Hrest].
  exists rest. rewrite Hrest. f_equal. f_equal.
  - unfold insert_sentence, insert_columns, insert_qm, toPostgresTemplate.
    rewrite insert_loop_kept. cbn [fst snd app]. fold (kept_fields row key). fold fields.
    remember ("INSERT INTO " ++ dq ++ table ++ dq ++ "("
                ++ join "," (map (fun k => dq ++ toSQL conv k ++ dq) fields)
                ++ ") VALUES (") as head eqn:Ehead.
    remember (")" ++ (if insertReturns inherited row key
                      then " RETURNING " ++ dq
                             ++ toSQL conv (match key with
                                            | Some name => name
                                            | None => ""
                                            end) ++ dq
                      else "")) as tail eqn:Etail.
    assert (Hhead : JsString.count "?" head = 0).
    { subst head. apply no_question_count in Htable.
      rewrite !count_append, Htable, count_join; [reflexivity | reflexivity |].
      apply Forall_map. apply Forall_forall. intros k Hin.
      rewrite forallb_forall in Hfields. specialize (Hfields k Hin).
      apply no_question_count in Hfields.
      rewrite !count_append, Hfields. reflexivity. }
    assert (Htail : JsString.count "?" tail = 0).
    { subst tail.
      destruct key as [name|]; [|reflexivity].
      specialize (Hkey name eq_refl). apply no_question_count in Hkey.
      destruct (insertReturns inherited row (Some name)); [|reflexivity].
      rewrite !count_append, Hkey. reflexivity. }
    transitivity (toPostgresTemplate_loop 1
                    (head ++ (join "," (map (fun t => t ++ "?")
                                          (map (fun _ : string => "") fields)) ++ tail))).
    + f_equal. subst head tail. rewrite map_map. rewrite !append_assoc. reflexivity.
    + rewrite toPostgresTemplate_loop_text by exact Hhead.
      rewrite toPostgresTemplate_loop_numbered.
      * rewrite toPostgresTemplate_loop_clean by exact Htail.
        rewrite numbered_blank. subst head tail bound.
        rewrite !length_map, !append_assoc. reflexivity.
      * reflexivity.
      * apply Forall_map. apply Forall_forall. intros k _. reflexivity.
  - unfold insert_values. rewrite insert_loop_kept. reflexivity.
Qed.

Lemma X15_insert_statement_witness :
  (exists rest,
     events (insert (fun v => v) default_idConversion (fun _ _ => Failure VNull)
               Object_prototype
               "dummy" [("id", VNull); ("value1", VNum 3); ("data", VNull)]
               (Some "id") true)
     = Query ("INSERT INTO " ++ dq ++ "dummy" ++ dq ++ "(" ++ dq ++ "value1" ++ dq ++ ","
                ++ dq ++ "data" ++ dq ++ ") VALUES ($1,$2) RETURNING " ++ dq ++ "id" ++ dq)
             [VNum 3; VNull] :: rest)
  /\ (exists rest,
        events (insert (fun v => v) default_idConversion (fun _ _ => Failure VNull)
                  Object_prototype
                  "dummy" [("a", VNum 1)] (Some "constructor") true)
        = Query ("INSERT INTO " ++ dq ++ "dummy" ++ dq ++ "(" ++ dq ++ "a" ++ dq
                   ++ ") VALUES ($1)")
                [VNum 1] :: rest).
Proof.
  split.
  - apply (X15_insert_statement (fun v => v) default_idConversion
             (fun _ _ => Failure VNull) Object_prototype "dummy"
             [("id", VNull); ("value1", VNum 3); ("data", VNull)] (Some "id") true).
    + reflexivity.
    + reflexivity.
    + intros name E. injection E as <-. reflexivity.
  - apply (X15_insert_statement (fun v => v) default_idConversion
             (fun _ _ => Failure VNull) Object_prototype "dummy"
             [("a", VNum 1)] (Some "constructor") true).
    + reflexivity.
    + reflexivity.
    + intros name E. injection E as <-. reflexivity.
Defined.

Lemma get_not_operation (updated : GenericRow) (key : string) :
  forallb (fun kv => negb (is_operation (snd kv))) updated = true ->
  is_operation (get updated key) = false.
Proof.
  induction updated as [|[k v] updated IH]; simpl; intros H; [reflexivity|].
  apply andb_true_iff in H. destruct H as [Hv Hrest].
  destruct (String.eqb k key); [apply negb_true_iff; exact Hv | apply IH; exact Hrest].
Qed.

Lemma updateMany_entry_plain (JSON_stringify : value -> value) (conv : NameConversion)
    (key : string) (v : value) :
  is_operation v = false ->
  updateMany_entry JSON_stringify conv key v
  = (dq ++ toSQL conv key ++ dq ++ " = ?", toSQLCompatibleValue JSON_stringify v).
Proof.
  unfold updateMany_entry, is_operation. cbv zeta. intros H.
  assert (E : (dq ++ toSQL conv key ++ dq) ++ " = ?"
              = dq ++ toSQL conv key ++ dq ++ " = ?")
    by (rewrite !append_assoc; reflexivity).
  destruct v; rewrite ?E; try reflexivity.
  destruct (get props "update"); rewrite ?E; try reflexivity.
  destruct (String.eqb s "set"); [discriminate H|].
  destruct (String.eqb s "inc"); [discriminate H|].
  reflexivity.
Qed.

Lemma updateMany_loop_plain (JSON_stringify : value -> value) (conv : NameConversion)
    (updated : GenericRow) (keys : list string) :
  forallb (fun kv => negb (is_operation (snd kv))) updated = true ->
  forall first sentence values0,
    updateMany_loop JSON_stringify conv updated keys first sentence values0
    = update_loop JSON_stringify conv updated keys first sentence values0.
Proof.
  intros Hplain. induction keys as [|key keys IH]; intros first sentence values0;
    [reflexivity|].
  cbn [updateMany_loop update_loop].
  rewrite (updateMany_entry_plain JSON_stringify conv key (get updated key)
             (get_not_operation updated key Hplain)).
  apply IH.
Qed.

(** X16.  For a descriptor none of whose values is a [set] or [inc]
    operation, and a key value that is not null, [update] by the key sends
    the pool the very statement and values that [updateMany] sends for the
    filter Eq(key, value). *)
Theorem X16_update_is_updateMany_on_the_key (JSON_stringify : value -> value)
    (conv : NameConversion) (pool_query : string -> list value -> reply)
    (table keyName : string) (keyValue : value) (updated : GenericRow) :
  forallb (fun kv => negb (is_operation (snd kv))) updated = true ->
  is_nullish keyValue = false ->
  events (update JSON_stringify conv pool_query table keyName keyValue updated)
  = events (updateMany JSON_stringify conv pool_query table
              (FEq keyName keyValue) updated).
Proof.
  intros Hplain Hkey. unfold update, updateMany.
  destruct (List.length (Object_keys updated) =? 0)%nat; [reflexivity|].
  cbn [events].
  assert (Hs : updateMany_sentence JSON_stringify conv table (FEq keyName keyValue) updated
               = update_sentence JSON_stringify conv table keyName updated).
  { unfold updateMany_sentence, update_sentence, updateMany_set, update_set, where_clause.
    rewrite updateMany_loop_plain by exact Hplain.
    cbn [filterToSQL]. rewrite Hkey. cbn [query sql].
    replace (nonempty (dq ++ toSQL conv keyName ++ dq ++ " = ?")) with true
      by reflexivity.
    reflexivity. }
  assert (Hv : updateMany_values JSON_stringify conv table (FEq keyName keyValue) updated
               = update_values JSON_stringify conv table keyValue updated).
  { unfold updateMany_values, update_values, updateMany_set, update_set, where_clause.
    rewrite updateMany_loop_plain by exact Hplain.
    cbn [filterToSQL]. rewrite Hkey. cbn [query Filtering.values].
    replace (nonempty (dq ++ toSQL conv keyName ++ dq ++ " = ?")) with true
      by reflexivity.
    reflexivity. }
  rewrite Hs, Hv. reflexivity.
Qed.

Lemma X16_update_is_updateMany_on_the_key_witness :
  events (update (fun v => v) default_idConversion (fun _ _ => Failure VNull)
            "person" "id" (VNum 7) [("age", VNum 30)])
  = events (updateMany (fun v => v) default_idConversion (fun _ _ => Failure VNull)
              "person" (FEq "id" (VNum 7)) [("age", VNum 30)]).
Proof.
  apply X16_update_is_updateMany_on_the_key; reflexivity.
Defined.

Lemma select_by_key_sentence (conv : NameConversion) (table keyName : string)
    (keyValue : value) :
  no_question table = true ->
  no_question (toSQL conv keyName) = true ->
  is_nullish keyValue = false ->
  generateSelectSentence conv table (FEq keyName keyValue) None None None None None
  = {| sql := findByKey_sentence conv table keyName; values := [keyValue] |}.
Proof.
  intros Htable Hkey Hvalue.
  destruct (hand_numbered_sentences conv table keyName keyName Htable Hkey Hkey)
    as (Hfind & _ & _).
  unfold generateSelectSentence, select_sentence, where_clause.
  cbn [filterToSQL]. rewrite Hvalue. cbn [query Filtering.values].
  replace (nonempty (dq ++ toSQL conv keyName ++ dq ++ " = ?")) with true
    by reflexivity.
  cbn [sql values]. rewrite Hfind. f_equal. f_equal.
  rewrite ?append_nil_r, ?append_assoc. reflexivity.
Qed.

(** X17.  When the table and the key column hold no question mark and the
    key value is not null, [findByKey] sends the pool the very statement
    and value that [find] sends for the filter Eq(key, value) without sort,
    skip, limit or projection; and on the same answer, [findByKey] gives
    the first of the rows that [find] gives, or null when the answer has
    no row. *)
Theorem X17_findByKey_is_find_on_the_key (conv : NameConversion)
    (pool_query : string -> list value -> reply)
    (table keyName : string) (keyValue : value) :
  no_question table = true ->
  no_question (toSQL conv keyName) = true ->
  is_nullish keyValue = false ->
  let one := findByKey conv pool_query table keyName keyValue in
  let all :=
    Methods.find conv pool_query table (FEq keyName keyValue) None None None None None in
  Methods.rows_events all = events one
  /\ (forall error,
        outcome one = Promise (Rejected error)
        <-> Methods.rows_outcome all = Methods.RowsRejected error)
  /\ (forall results row rest,
        pool_query (findByKey_sentence conv table keyName) [keyValue] = Success results ->
        rows results = Some (row :: rest) ->
        exists found,
          Methods.rows_outcome all = Methods.RowsFulfilled found
          /\ outcome one = Promise (Fulfilled (first_row found)))
  /\ (forall results,
        pool_query (findByKey_sentence conv table keyName) [keyValue] = Success results ->
        rows results = None \/ rows results = Some [] ->
        outcome one = Promise (Fulfilled VNull)).
Proof.
  intros Htable Hkey Hvalue one all. subst one all.
  unfold Methods.find, findByKey.
  rewrite (select_by_key_sentence conv table keyName keyValue Htable Hkey Hvalue).
  cbn [sql values Methods.rows_events Methods.rows_outcome events outcome].
  split; [reflexivity|]. split; [|split].
  - intros error.
    destruct (pool_query (findByKey_sentence conv table keyName) [keyValue])
      as [e|results].
    + split; intros H; injection H as <-; reflexivity.
    + destruct (rows results) as [[|r rs]|]; split; intros H; discriminate H.
  - intros results row rest Hq Hrows. rewrite Hq, Hrows.
    eexists. split; reflexivity.
  - intros results Hq [Hrows | Hrows]; rewrite Hq, Hrows; reflexivity.
Qed.

Lemma X17_findByKey_is_find_on_the_key_witness :
  Methods.rows_events
    (Methods.find default_idConversion (fun _ _ => Failure VNull)
       "person" (FEq "id" (VNum 7)) None None None None None)
  = events (findByKey default_idConversion (fun _ _ => Failure VNull)
              "person" "id" (VNum 7)).
Proof.
  apply (X17_findByKey_is_find_on_the_key default_idConversion
           (fun _ _ => Failure VNull) "person" "id" (VNum 7));
    reflexivity.
Defined.

(** X18.  When the table and the columns hold no question mark and the
    key value is not null, [increment] of a property by a number sends the
    pool the very statement and values that [updateMany] sends for the
    descriptor that gives that property the operation [inc] of that number
    and the filter Eq(key, value). *)
Theorem X18_increment_is_updateMany_inc (JSON_stringify : value -> value)
    (conv : NameConversion) (pool_query : string -> list value -> reply)
    (table keyName prop : string) (keyValue : value) (n : Z) :
  no_question table = true ->
  no_question (toSQL conv keyName) = true ->
  no_question (toSQL conv prop) = true ->
  is_nullish keyValue = false ->
  events (Methods.increment conv pool_query table keyName keyValue prop (VNum n))
  = events (updateMany JSON_stringify conv pool_query table (FEq keyName keyValue)
              [(prop, VObject [("update", VStr "inc"); ("value", VNum n)])]).
Proof.
  intros Htable Hkey Hprop Hvalue.
  destruct (hand_numbered_sentences conv table keyName prop Htable Hkey Hprop)
    as (_ & _ & Hinc).
  unfold Methods.increment, updateMany. cbn [Object_keys map List.length Nat.eqb events].
  rewrite Hinc. f_equal. f_equal.
  - f_equal. unfold updateMany_sentence, updateMany_set, where_clause.
    cbn [Object_keys map updateMany_loop get]. rewrite String.eqb_refl.
    unfold updateMany_entry. cbn [get String.eqb Ascii.eqb Bool.eqb fst].
    cbn [filterToSQL]. rewrite Hvalue. cbn [query sql].
    replace (nonempty (dq ++ toSQL conv keyName ++ dq ++ " = ?")) with true
      by reflexivity.
    cbn [sql]. rewrite !append_assoc. reflexivity.
  - unfold updateMany_values, updateMany_set, where_clause.
    cbn [Object_keys map updateMany_loop get]. rewrite String.eqb_refl.
    unfold updateMany_entry. cbn [get String.eqb Ascii.eqb Bool.eqb snd].
    cbn [filterToSQL]. rewrite Hvalue. cbn [query Filtering.values].
    replace (nonempty (dq ++ toSQL conv keyName ++ dq ++ " = ?")) with true
      by reflexivity.
    reflexivity.
Qed.

Lemma X18_increment_is_updateMany_inc_witness :
  events (Methods.increment default_idConversion (fun _ _ => Failure VNull)
            "dummy" "id" (VNum 7) "value1" (VNum 2))
  = events (updateMany (fun v => v) default_idConversion (fun _ _ => Failure VNull)
              "dummy" (FEq "id" (VNum 7))
              [("value1", VObject [("update", VStr "inc"); ("value", VNum 2)])]).
Proof.
  apply (X18_increment_is_updateMany_inc (fun v => v)
           default_idConversion (fun _ _ => Failure VNull)
           "dummy" "id" "value1" (VNum 7) 2);
    reflexivity.
Defined.

Lemma deleteMany_markers_follow_values_witness :
  deleteMany_statement default_idConversion "person"
    (FAnd [FGte "age" (VNum 18); FIn "id" [VNum 1; VNum 2]])
  = {| sql := "DELETE FROM " ++ dq ++ "person" ++ dq ++ " WHERE ( " ++ dq ++ "age" ++ dq
                ++ " >= $1 ) AND ( ((" ++ dq ++ "id" ++ dq ++ " = $2) OR (" ++ dq ++ "id"
                ++ dq ++ " = $3)) )";
       values := [VNum 18; VNum 1; VNum 2] |}.
Proof.
  exact (deleteMany_markers_follow_values default_idConversion "person"
           (FAnd [FGte "age" (VNum 18); FIn "id" [VNum 1; VNum 2]]) eq_refl eq_refl).
Defined.

Lemma updateMany_markers_follow_values_witness :
  events (updateMany (fun v => v) default_idConversion (fun _ _ => Failure VNull)
            "person" (FEq "id" (VNum 7))
            [("age", VObject [("update", VStr "inc"); ("value", VNum 1)]);
             ("name", VStr "ann")])
  = [Query ("UPDATE " ++ dq ++ "person" ++ dq ++ " SET " ++ dq ++ "age" ++ dq ++ " = "
              ++ dq ++ "age" ++ dq ++ " + $1, " ++ dq ++ "name" ++ dq ++ " = $2 WHERE "
              ++ dq ++ "id" ++ dq ++ " = $3")
           [VNum 1; VStr "ann"; VNum 7]].
Proof.
  apply (updateMany_markers_follow_values (fun v => v) default_idConversion
           (fun _ _ => Failure VNull) "person" (FEq "id" (VNum 7))
           [("age", VObject [("update", VStr "inc"); ("value", VNum 1)]);
            ("name", VStr "ann")]);
    [discriminate | reflexivity | reflexivity | reflexivity].
Defined.

(* ===================================================================== *)
(** ** Streaming reads, further *)
(* ===================================================================== *)

Lemma handled_app (a b : list event) : handled (a ++ b) = (handled a ++ handled b)%list.
Proof.
  induction a as [|e a IH]; simpl; [reflexivity|].
  destruct e; simpl; rewrite IH; reflexivity.
Qed.

Lemma asked_app (a b : list event) : asked (a ++ b) = (asked a ++ asked b)%list.
Proof.
  induction a as [|e a IH]; simpl; [reflexivity|].
  destruct e; simpl; rewrite IH; reflexivity.
Qed.

Lemma each_rows_handles_all (conv : NameConversion) (each : value -> handler_result)
    (partialResults : list GenericRow) :
  (forall row, each row = Completes) ->
  handled (fst (each_rows conv each partialResults))
  = map (fun row => first_row (parseResults conv [row])) partialResults
  /\ asked (fst (each_rows conv each partialResults)) = []
  /\ snd (each_rows conv each partialResults) = true.
Proof.
  intros Hall. induction partialResults as [|row rest IH]; simpl.
  - repeat split.
  - rewrite Hall. destruct (each_rows conv each rest) as [evs ok].
    simpl in *. destruct IH as (Hh & Ha & Hok). rewrite Hh. repeat split; assumption.
Qed.

Lemma read_loop_delivers (conv : NameConversion) (each : value -> handler_result)
    (cursor : list read_reply) :
  (forall row, each row = Completes) ->
  handled (fst (read_loop conv each cursor))
  = map (fun row => first_row (parseResults conv [row])) (delivered cursor)
  /\ asked (fst (read_loop conv each cursor))
     = repeat CURSOR_READ_AMOUNT (reads_made cursor).
Proof.
  intros Hall. induction cursor as [|answer later IH]; [split; reflexivity|].
  cbn [read_loop].
  destruct answer as [err|[|row rows]]; [split; reflexivity | split; reflexivity |].
  replace (0 <? List.length (row :: rows))%nat with true by reflexivity.
  destruct (each_rows_handles_all conv each (row :: rows) Hall) as (Hh & Ha & Hok).
  destruct (each_rows conv each (row :: rows)) as [evs ok]. simpl in Hh, Ha, Hok.
  subst ok. destruct (read_loop conv each later) as [evs' ok'].
  simpl in IH. destruct IH as [IHh IHa].
  cbn [fst delivered reads_made repeat].
  change (Read CURSOR_READ_AMOUNT :: evs ++ evs')%list
    with ([Read CURSOR_READ_AMOUNT] ++ evs ++ evs')%list.
  rewrite !handled_app, !asked_app, Hh, Ha, IHh, IHa.
  split; [|reflexivity].
  cbn [handled app]. rewrite <- map_app. reflexivity.
Qed.

(** X21.  When no handler raises, a stream hands to the handler, one by
    one and in their order, the rows of the reads that come before the
    first read without rows, each row as the conversion gives it; a read
    that fails counts as a read without rows, so that the rows after it are
    never handed over and the promise is fulfilled all the same.  Every
    read asks for 100 rows, and there is one read more than there are
    reads with rows. *)
Theorem X21_stream_delivers_rows_in_order (conv : NameConversion)
    (cursor_reads : string -> list value -> list read_reply)
    (sentenceAndValues : statement) (each : value -> handler_result) :
  (forall row, each row = Completes) ->
  let cursor := cursor_reads (sql sentenceAndValues) (values sentenceAndValues) in
  let r := stream conv Connected cursor_reads sentenceAndValues each in
  handled (events r)
  = map (fun row => first_row (parseResults conv [row])) (delivered cursor)
  /\ asked (events r) = repeat 100 (reads_made cursor)
  /\ outcome r = Promise (Fulfilled VUndefined).
Proof.
  intros Hall cursor r. subst r. unfold stream. fold cursor.
  destruct (read_loop_delivers conv each cursor Hall) as [Hh Ha].
  pose proof (read_loop_completes conv each cursor Hall) as Hok.
  destruct (read_loop conv each cursor) as [evs ok]. simpl in Hh, Ha, Hok. subst ok.
  cbn [events outcome].
  change (Connect :: OpenCursor (sql sentenceAndValues) (values sentenceAndValues)
            :: evs ++ [CloseCursor; Release])%list
    with ([Connect; OpenCursor (sql sentenceAndValues) (values sentenceAndValues)]
            ++ evs ++ [CloseCursor; Release])%list.
  rewrite !handled_app, !asked_app, Hh, Ha. cbn [handled asked app].
  rewrite !app_nil_r. repeat split.
Qed.

Lemma X21_stream_delivers_rows_in_order_witness :
  handled
    (events
       (stream default_idConversion Connected
          (fun _ _ => [ReadRows [[("id", VNum 1)]; [("id", VNum 2)]];
                       ReadError (VStr "lost");
                       ReadRows [[("id", VNum 3)]]])
          {| sql := "SELECT 1"; values := [] |} (fun _ => Completes)))
  = [VObject [("id", VNum 1)]; VObject [("id", VNum 2)]].
Proof.
  exact (proj1 (X21_stream_delivers_rows_in_order default_idConversion
                  (fun _ _ => [ReadRows [[("id", VNum 1)]; [("id", VNum 2)]];
                               ReadError (VStr "lost");
                               ReadRows [[("id", VNum 3)]]])
                  {| sql := "SELECT 1"; values := [] |} (fun _ => Completes)
                  (fun _ => eq_refl))).
Defined.

Lemma stream_releases_when_handlers_complete_witness :
  occurrences is_close
    (events (stream default_idConversion Connected
               (fun _ _ => [ReadRows [[("id", VNum 1)]]; ReadError (VStr "lost")])
               {| sql := "SELECT 1"; values := [] |} (fun _ => Completes))) = 1
  /\ occurrences is_release
       (events (stream default_idConversion Connected
                  (fun _ _ => [ReadRows [[("id", VNum 1)]]; ReadError (VStr "lost")])
                  {| sql := "SELECT 1"; values := [] |} (fun _ => Completes))) = 1.
Proof.
  pose proof (stream_releases_when_handlers_complete default_idConversion
                (fun _ _ => [ReadRows [[("id", VNum 1)]]; ReadError (VStr "lost")])
                {| sql := "SELECT 1"; values := [] |} (fun _ => Completes)
                (fun _ => eq_refl)) as (_ & Hclose & Hrelease & _).
  split; [exact Hclose | exact Hrelease].
Defined.

(* ===================================================================== *)
(** ** Inserting many rows *)
(* ===================================================================== *)

Lemma insert_without_key (JSON_stringify : value -> value) (conv : NameConversion)
    (pool_query : string -> list value -> reply)
    (inherited : GenericRow -> string -> value) (table : string) (row : GenericRow) :
  insert JSON_stringify conv pool_query inherited table row None false
  = {| events := [Query (toPostgresTemplate
                           (insert_sentence JSON_stringify conv inherited table row None))
                        (insert_values JSON_stringify conv row None)];
       outcome := Promise
         match pool_query (toPostgresTemplate
                             (insert_sentence JSON_stringify conv inherited table row None))
                          (insert_values JSON_stringify conv row None) with
         | Failure error => Rejected error
         | Success _ => Fulfilled VUndefined
         end |}.
Proof.
  unfold insert. destruct (pool_query _ _); reflexivity.
Qed.

Lemma batchInsert_from_accepted (JSON_stringify : value -> value)
    (conv : NameConversion) (pool_after : list event -> string -> list value -> reply)
    (inherited : GenericRow -> string -> value) (table : string)
    (rows : list GenericRow) :
  let statement_of := fun row =>
    Query (toPostgresTemplate (insert_sentence JSON_stringify conv inherited table row None))
          (insert_values JSON_stringify conv row None) in
  forall (made : list event),
    (forall done row rest, rows = (done ++ row :: rest)%list ->
       exists results,
         pool_after (made ++ map statement_of done)%list
           (toPostgresTemplate (insert_sentence JSON_stringify conv inherited table row None))
           (insert_values JSON_stringify conv row None) = Success results) ->
    forall after,
      Methods.batchInsert_from JSON_stringify conv pool_after inherited made table
        (rows ++ after)%list
      = let others :=
          Methods.batchInsert_from JSON_stringify conv pool_after inherited
            (made ++ map statement_of rows)%list table after in
        {| events := (map statement_of rows ++ events others)%list;
           outcome := outcome others |}.
Proof.
  intros statement_of. induction rows as [|row rows IH]; intros made Hall after.
  - cbn [map app]. rewrite app_nil_r.
    destruct (Methods.batchInsert_from _ _ _ _ _ _ _); reflexivity.
  - destruct (Hall [] row rows eq_refl) as [results Hrow].
    cbn [map app] in Hrow. rewrite app_nil_r in Hrow.
    cbn [app Methods.batchInsert_from]. rewrite insert_without_key, Hrow.
    cbn [outcome await events].
    rewrite (IH (made ++ [statement_of row])%list).
    + cbn [map events outcome]. rewrite <- !app_assoc. reflexivity.
    + intros done row' rest E.
      destruct (Hall (row :: done) row' rest) as [results' Hrow'].
      * rewrite E. reflexivity.
      * exists results'. cbn [map] in Hrow'. rewrite <- app_assoc. exact Hrow'.
Qed.

(** X22.  [batchInsert] sends one INSERT for each row, in the order of
    the rows and without RETURNING clause, as long as the pool, as the
    statements before have left it, accepts them, and is then fulfilled;
    at the first INSERT that the pool refuses it is rejected with that
    error, and no statement is sent for the rows after it. *)
Theorem X22_batchInsert_stops_at_first_failure (JSON_stringify : value -> value)
    (conv : NameConversion) (pool_after : list event -> string -> list value -> reply)
    (inherited : GenericRow -> string -> value)
    (table : string) (before after : list GenericRow) (bad : GenericRow)
    (error : value) :
  let statement_of := fun row =>
    Query (toPostgresTemplate (insert_sentence JSON_stringify conv inherited table row None))
          (insert_values JSON_stringify conv row None) in
  let answer := fun (done : list GenericRow) (row : GenericRow) =>
    pool_after (map statement_of done)
      (toPostgresTemplate (insert_sentence JSON_stringify conv inherited table row None))
      (insert_values JSON_stringify conv row None) in
  (forall done row rest, before = (done ++ row :: rest)%list ->
     exists results, answer done row = Success results) ->
  ((forall done row rest, after = (done ++ row :: rest)%list ->
      exists results, answer (before ++ done)%list row = Success results) ->
     Methods.batchInsert JSON_stringify conv pool_after inherited table
       (before ++ after)%list
     = {| events := map statement_of (before ++ after);
          outcome := Promise (Fulfilled VUndefined) |})
  /\ (answer before bad = Failure error ->
      Methods.batchInsert JSON_stringify conv pool_after inherited table
        (before ++ bad :: after)%list
      = {| events := map statement_of (before ++ [bad]);
           outcome := Promise (Rejected error) |}).
Proof.
  intros statement_of answer Hbefore. unfold Methods.batchInsert. split.
  - intros Hafter.
    rewrite <- (app_nil_r (before ++ after)%list) at 1.
    rewrite (batchInsert_from_accepted JSON_stringify conv pool_after inherited table
               (before ++ after)%list []).
    + cbn [Methods.batchInsert_from events outcome]. rewrite app_nil_r. reflexivity.
    + intros done row rest E. cbn [app].
      destruct (app_eq_app _ _ _ _ E) as [l [[E1 E2] | [E1 E2]]].
      * destruct l as [|x l].
        -- rewrite app_nil_r in E1. subst done. cbn [app] in E2.
           pose proof (Hafter [] row rest (eq_sym E2)) as Hrow.
           rewrite app_nil_r in Hrow. exact Hrow.
        -- cbn [app] in E2. injection E2 as <- E2.
           apply (Hbefore done row l E1).
      * subst done. apply (Hafter l row rest E2).
  - intros Hbad.
    rewrite (batchInsert_from_accepted JSON_stringify conv pool_after inherited table
               before []).
    + cbn [app Methods.batchInsert_from]. rewrite insert_without_key.
      fold statement_of. unfold answer in Hbad. rewrite Hbad.
      cbn [outcome await events]. rewrite map_app. reflexivity.
    + intros done row rest E. cbn [app]. apply (Hbefore done row rest E).
Qed.

Lemma X22_batchInsert_stops_at_first_failure_witness :
  Words.queries
    (events
       (Methods.batchInsert (fun v => v) default_idConversion
          (fun made _ vs =>
             if existsb (fun e => match e with
                                  | Query _ [VNum sent] =>
                                      match vs with
                                      | [VNum n] => Z.eqb sent n
                                      | _ => false
                                      end
                                  | _ => false
                                  end) made
             then Failure (VStr "duplicate key")
             else Success {| rows := Some []; rowCount := 1 |})
          Object_prototype
          "dummy" [[("id", VNum 1)]; [("id", VNum 2)]; [("id", VNum 1)];
                   [("id", VNum 3)]]))
  = [("INSERT INTO " ++ dq ++ "dummy" ++ dq ++ "(" ++ dq ++ "id" ++ dq
        ++ ") VALUES ($1)", [VNum 1]);
     ("INSERT INTO " ++ dq ++ "dummy" ++ dq ++ "(" ++ dq ++ "id" ++ dq
        ++ ") VALUES ($1)", [VNum 2]);
     ("INSERT INTO " ++ dq ++ "dummy" ++ dq ++ "(" ++ dq ++ "id" ++ dq
        ++ ") VALUES ($1)", [VNum 1])].
Proof.
  pose proof (X22_batchInsert_stops_at_first_failure (fun v => v) default_idConversion
                (fun made _ vs =>
                   if existsb (fun e => match e with
                                        | Query _ [VNum sent] =>
                                            match vs with
                                            | [VNum n] => Z.eqb sent n
                                            | _ => false
                                            end
                                        | _ => false
                                        end) made
                   then Failure (VStr "duplicate key")
                   else Success {| rows := Some []; rowCount := 1 |})
                Object_prototype
                "dummy" [[("id", VNum 1)]; [("id", VNum 2)]] [[("id", VNum 3)]]
                [("id", VNum 1)] (VStr "duplicate key")) as H.
  cbv zeta in H.
  destruct H as [_ Hbad].
  - intros done row rest E.
    destruct done as [|r1 [|r2 [|r3 done]]]; cbn [app] in E.
    + injection E as <- _. eexists. reflexivity.
    + injection E as <- <- _. eexists. reflexivity.
    + injection E as _ _ E. discriminate E.
    + injection E as _ _ E. destruct done; discriminate E.
  - pose proof (Hbad eq_refl) as E.
    apply (f_equal (fun r => Words.queries (events r))) in E. exact E.
Defined.

(* ===================================================================== *)
(** ** Rows as the driver gives them back *)
(* ===================================================================== *)



(* ===================================================================== *)
(** ** Aggregates *)
(* ===================================================================== *)

Lemma to_uint_not_nil (n : nat) : Nat.to_uint n <> Decimal.Nil.
Proof.
  intros E. pose proof (DecimalNat.Unsigned.of_to n) as H. rewrite E in H.
  simpl in H. subst n. discriminate E.
Qed.

Lemma parse_digits_uint (d : Decimal.uint) :
  forall a : nat,
    JsNumber.parse_digits (Some (Z.of_nat a)) (NilEmpty.string_of_uint d)
    = Some (Z.of_nat (Nat.of_uint_acc d a)).
Proof.
  induction d; intros a; cbn [NilEmpty.string_of_uint Nat.of_uint_acc];
    [reflexivity | ..];
    cbn [JsNumber.parse_digits];
    match goal with
    | |- context [is_digit ?c] => replace (is_digit c) with true by reflexivity
    end;
    rewrite <- IHd; f_equal; f_equal;
    rewrite Nat.tail_mul_spec; unfold JsNumber.digit_value; simpl nat_of_ascii;
    simpl Nat.sub; lia.
Qed.

Lemma uint_starts_with_digit (d : Decimal.uint) :
  d <> Decimal.Nil ->
  exists c rest,
    NilEmpty.string_of_uint d = String c rest
    /\ is_digit c = true /\ JsNumber.is_space c = false
    /\ Ascii.eqb c "-" = false /\ Ascii.eqb c "+" = false.
Proof.
  intros H. destruct d; [contradiction | ..];
    cbn [NilEmpty.string_of_uint]; eexists; eexists; repeat split.
Qed.

Lemma Number_value_exact (m : Z) :
  Z.leb (Z.abs m) (2 ^ 53) = true -> JsNumber.Number_value m = m.
Proof.
  intros H. apply Z.leb_le in H. unfold JsNumber.Number_value.
  destruct (Z.ltb (Z.abs m) (2 ^ 53)) eqn:E; [reflexivity|].
  apply Z.ltb_ge in E.
  change (2 ^ 53)%Z with 9007199254740992%Z in H, E.
  assert (Hm : m = 9007199254740992%Z \/ m = (-9007199254740992)%Z) by lia.
  destruct Hm as [-> | ->]; reflexivity.
Qed.

(** [parseInt] reads back the decimal writing of a natural number that
    is not above 2^53. *)
Lemma parseInt10_of_nat (n : nat) :
  Z.leb (Z.of_nat n) (2 ^ 53) = true ->
  JsNumber.parseInt10 (of_nat n) = Some (Z.of_nat n).
Proof.
  intros Hn. unfold of_nat.
  destruct (uint_starts_with_digit (Nat.to_uint n) (to_uint_not_nil n))
    as (c & rest & Es & Hdigit & Hspace & Hminus & Hplus).
  assert (Hfirst : JsNumber.parseInt10 (NilEmpty.string_of_uint (Nat.to_uint n))
                   = option_map JsNumber.Number_value
                       (JsNumber.parse_digits (Some (Z.of_nat 0))
                          (NilEmpty.string_of_uint (Nat.to_uint n)))).
  { rewrite Es. unfold JsNumber.parseInt10. cbn [JsNumber.trim_start].
    rewrite Hspace, Hminus, Hplus. cbn [JsNumber.parse_digits]. rewrite Hdigit.
    reflexivity. }
  rewrite Hfirst, parse_digits_uint.
  pose proof (DecimalNat.Unsigned.of_to n) as Hback. unfold Nat.of_uint in Hback.
  rewrite Hback. cbn [option_map]. rewrite Number_value_exact; [reflexivity|].
  rewrite Z.abs_eq by lia. exact Hn.
Qed.

(** X24.  When the query of [count] succeeds and the first row of the
    answer has, in its column [count], the decimal writing of a natural
    number up to 2^53, the promise is fulfilled with that number; when the
    answer has no row, or its column [count] is not the writing of a
    number, the promise is fulfilled with 0. *)
Theorem X24_count_reads_the_number (ToString_object : value -> string)
    (conv : NameConversion) (pool_query : string -> list value -> reply)
    (table : string) (filter : GenericFilter) (results : QueryResult) :
  pool_query (sql (count_statement conv table filter))
             (values (count_statement conv table filter)) = Success results ->
  let r := Methods.count ToString_object conv pool_query table filter in
  (forall first rest n,
     rows results = Some (first :: rest) ->
     get first "count" = VStr (of_nat n) ->
     Z.leb (Z.of_nat n) (2 ^ 53) = true ->
     outcome r = Promise (Fulfilled (VNum (Z.of_nat n))))
  /\ (forall first rest,
        rows results = Some (first :: rest) ->
        JsNumber.parseInt10 (JsNumber.ToString ToString_object (get first "count"))
        = None ->
        outcome r = Promise (Fulfilled (VNum 0)))
  /\ (rows results = None \/ rows results = Some [] ->
        outcome r = Promise (Fulfilled (VNum 0))).
Proof.
  intros Hq r. subst r. unfold Methods.count. cbn [outcome]. rewrite Hq.
  split; [|split].
  - intros first rest n Hrows Hcount Hn. rewrite Hrows.
    unfold JsNumber.parseInt_or_0. rewrite Hcount. cbn [JsNumber.ToString].
    rewrite (parseInt10_of_nat n Hn). reflexivity.
  - intros first rest Hrows Hnan. rewrite Hrows.
    unfold JsNumber.parseInt_or_0. rewrite Hnan. reflexivity.
  - intros [Hrows | Hrows]; rewrite Hrows; reflexivity.
Qed.

Lemma X24_count_reads_the_number_witness :
  outcome (Methods.count (fun _ => "") default_idConversion
             (fun _ _ => Success {| rows := Some [[("count", VStr "250")]];
                                    rowCount := 1 |})
             "person" FNull)
  = Promise (Fulfilled (VNum 250)).
Proof.
  exact (proj1 (X24_count_reads_the_number (fun _ => "") default_idConversion
                  (fun _ _ => Success {| rows := Some [[("count", VStr "250")]];
                                         rowCount := 1 |})
                  "person" FNull
                  {| rows := Some [[("count", VStr "250")]]; rowCount := 1 |} eq_refl)
               [("count", VStr "250")] [] 250 eq_refl eq_refl eq_refl).
Defined.

(** X25.  With the default conversion and a field named in application
    convention, [sum] finds its own column again: when the first row of
    the answer, its columns named in ASCII characters, has in the column
    [toSnakeCase field] the decimal writing of a natural number up to 2^53
    (and no two columns of that row are rewritten to the same name), the
    promise is fulfilled with that number. *)
Theorem X25_sum_reads_back_its_column (ToString_object : value -> string)
    (pool_query : string -> list value -> reply) (sum_without_rows : settled)
    (table : string) (filter : GenericFilter) (field : string)
    (results : QueryResult) (row : GenericRow) (rest : list GenericRow) (n : nat) :
  application_convention field = true ->
  pool_query (sql (sum_statement default_idConversion table filter field))
             (values (sum_statement default_idConversion table filter field))
  = Success results ->
  rows results = Some (row :: rest) ->
  forallb ascii_only (Object_keys row) = true ->
  NoDup (map toCamelCase (Object_keys row)) ->
  In (toSnakeCase field, VStr (of_nat n)) row ->
  Z.leb (Z.of_nat n) (2 ^ 53) = true ->
  outcome (Methods.sum ToString_object default_idConversion pool_query sum_without_rows
             table filter field)
  = Promise (Fulfilled (VNum (Z.of_nat n))).
Proof.
  intros Hfield Hq Hrows _ Hnd Hin Hn.
  unfold Methods.sum. cbn [outcome]. rewrite Hq, Hrows.
  cbn [default_idConversion constructor_idConversion customIdentifierConversion
       disableIdentifierConversion parseResults normalizeSQLResults map].
  unfold JsNumber.parseInt_or_0.
  rewrite <- (camel_of_snake field Hfield) at 1.
  unfold normalizeRow. rewrite normalizeRow_loop_get.
  rewrite (last_under_distinct (toSnakeCase field) (VStr (of_nat n)) row Hnd Hin).
  cbn [JsNumber.ToString]. rewrite (parseInt10_of_nat n Hn). reflexivity.
Qed.

Lemma X25_sum_reads_back_its_column_witness :
  outcome (Methods.sum (fun _ => "") default_idConversion
             (fun _ _ => Success {| rows := Some [[("total_price", VStr "1200")]];
                                    rowCount := 1 |})
             Pending "orders" FNull "totalPrice")
  = Promise (Fulfilled (VNum 1200)).
Proof.
  apply (X25_sum_reads_back_its_column (fun _ => "")
           (fun _ _ => Success {| rows := Some [[("total_price", VStr "1200")]];
                                  rowCount := 1 |})
           Pending "orders" FNull "totalPrice"
           {| rows := Some [[("total_price", VStr "1200")]]; rowCount := 1 |}
           [("total_price", VStr "1200")] [] 1200).
  - reflexivity.
  - reflexivity.
  - reflexivity.
  - reflexivity.
  - repeat constructor. intros [].
  - left. reflexivity.
  - reflexivity.
Defined.

(** X26.  With the default conversion, [sum] over a field whose name
    [toCamelCase] does not give back from its storage name (a name with an
    underscore, for instance) is fulfilled with 0 whatever the column
    holds: the answer made of the column [toSnakeCase field] is read under
    the name [field], where the rewritten row has nothing. *)
Theorem X26_sum_of_a_name_that_does_not_come_back (ToString_object : value -> string)
    (pool_query : string -> list value -> reply) (sum_without_rows : settled)
    (table : string) (filter : GenericFilter) (field : string)
    (results : QueryResult) (total : value) :
  toCamelCase (toSnakeCase field) <> field ->
  pool_query (sql (sum_statement default_idConversion table filter field))
             (values (sum_statement default_idConversion table filter field))
  = Success results ->
  rows results = Some [[(toSnakeCase field, total)]] ->
  outcome (Methods.sum ToString_object default_idConversion pool_query sum_without_rows
             table filter field)
  = Promise (Fulfilled (VNum 0)).
Proof.
  intros Hname Hq Hrows.
  unfold Methods.sum. cbn [outcome]. rewrite Hq, Hrows.
  cbn [default_idConversion constructor_idConversion customIdentifierConversion
       disableIdentifierConversion parseResults normalizeSQLResults map].
  unfold normalizeRow. rewrite normalizeRow_loop_get. cbn [last_under get].
  apply String.eqb_neq in Hname. rewrite Hname. reflexivity.
Qed.

Lemma X26_sum_of_a_name_that_does_not_come_back_witness :
  outcome (Methods.sum (fun _ => "") default_idConversion
             (fun _ _ => Success {| rows := Some [[("total_price", VStr "1200")]];
                                    rowCount := 1 |})
             Pending "orders" FNull "total_price")
  = Promise (Fulfilled (VNum 0)).
Proof.
  apply (X26_sum_of_a_name_that_does_not_come_back (fun _ => "")
           (fun _ _ => Success {| rows := Some [[("total_price", VStr "1200")]];
                                  rowCount := 1 |})
           Pending "orders" FNull "total_price"
           {| rows := Some [[("total_price", VStr "1200")]]; rowCount := 1 |}
           (VStr "1200")).
  - discriminate.
  - reflexivity.
  - reflexivity.
Defined.
